(** * tg-sender: the bulk dispatch core of [MessagingService] and its start-up
    in [AppService], embedded as Rocq functions.

    Conventions of the embedding.
    - A JavaScript string is carried as the UTF-8 bytes of its text (a Rocq
      [string]).  Every pattern the program looks for is ASCII, and an ASCII
      byte never occurs inside a multi-byte UTF-8 sequence, so [includes],
      [split] and the digit search see what the program sees; white space
      that is not ASCII is matched through its UTF-8 sequence.
    - A JavaScript number is [JsNumber]: [NaN], an infinity, or a double
      whose value is an integer, carried as that integer.  [parseInt] and
      the multiplication by 1000 round as IEEE 754 binary64 does (to the
      nearest double, ties to the even significand, an infinity past the
      largest double), and a number is printed as [Number::toString] prints
      it.  The two zeros are one value: the program multiplies, compares
      with 0, prints and sets timers, and none of these tells them apart.
      The counters of the rounds are incremented by one from 0 and are
      carried as integers.
    - The Telegram client, the clock and the timers are outside the
      program: they are the operations of the class [TelegramClient] over an
      abstract world.  Everything the program does to the outside is
      recorded, in order, in a trace of [Event]s. *)

From Stdlib Require Import String Ascii ZArith List Lia Bool DecimalString.
From stdpp Require Import gmap strings.
Import ListNotations.
Open Scope string_scope.
Open Scope list_scope.

(** ** Strings *)

Module JsString.

Definition nl : string := String (ascii_of_nat 10) "".
Definition dquote : string := String (ascii_of_nat 34) "".
Definition backslash : ascii := ascii_of_nat 92.

(** [s.startsWith(p)] *)
Fixpoint startsWith (s p : string) {struct p} : bool :=
  match p, s with
  | EmptyString, _ => true
  | String a p', String b s' => Ascii.eqb a b && startsWith s' p'
  | String _ _, EmptyString => false
  end.

(** [s.includes(needle)] *)
Fixpoint includes (s needle : string) : bool :=
  if startsWith s needle then true
  else match s with
       | EmptyString => false
       | String _ t => includes t needle
       end.

Fixpoint drop (n : nat) (s : string) : string :=
  match n, s with
  | S k, String _ t => drop k t
  | _, _ => s
  end.

(** [s.replace(pat, rep)] for a string pattern: the first occurrence only.
    (The replacement strings of the program hold no [$].) *)
Fixpoint replace_first (pat rep s : string) : string :=
  if startsWith s pat then rep +:+ drop (String.length pat) s
  else match s with
       | EmptyString => EmptyString
       | String c t => String c (replace_first pat rep t)
       end.

(** [s.replace(/\\n/g, '\n')]: every backslash followed by [n] becomes a
    line feed, scanning left to right. *)
Fixpoint unescape_newlines (s : string) : string :=
  match s with
  | EmptyString => EmptyString
  | String c t =>
      match t with
      | String c' t' =>
          if (Ascii.eqb c backslash && Ascii.eqb c' "n"%char)%bool
          then String (ascii_of_nat 10) (unescape_newlines t')
          else String c (unescape_newlines t)
      | EmptyString => String c EmptyString
      end
  end.

(** [s.split(',')] *)
Fixpoint split_comma (s : string) : list string :=
  match s with
  | EmptyString => [EmptyString]
  | String c t =>
      if Ascii.eqb c ","%char then EmptyString :: split_comma t
      else match split_comma t with
           | h :: r => String c h :: r
           | [] => [String c EmptyString]
           end
  end.

Definition code (c : ascii) : N := N_of_ascii c.

(** White space and line terminators of ECMAScript, as UTF-8:
    U+0009..U+000D and U+0020 (one byte); U+00A0 (two bytes);
    U+1680, U+2000..U+200A, U+2028, U+2029, U+202F, U+205F, U+3000 and
    U+FEFF (three bytes). *)
Definition ws1 (c : ascii) : bool :=
  ((9 <=? code c)%N && (code c <=? 13)%N) || (code c =? 32)%N.

Definition ws2 (c1 c2 : ascii) : bool :=
  (code c1 =? 194)%N && (code c2 =? 160)%N.

Definition ws3 (c1 c2 c3 : ascii) : bool :=
  ((code c1 =? 225)%N && (code c2 =? 154)%N && (code c3 =? 128)%N)
  || ((code c1 =? 226)%N && (code c2 =? 128)%N
      && (((128 <=? code c3)%N && (code c3 <=? 138)%N)
          || (code c3 =? 168)%N || (code c3 =? 169)%N || (code c3 =? 175)%N))
  || ((code c1 =? 226)%N && (code c2 =? 129)%N && (code c3 =? 159)%N)
  || ((code c1 =? 227)%N && (code c2 =? 128)%N && (code c3 =? 128)%N)
  || ((code c1 =? 239)%N && (code c2 =? 187)%N && (code c3 =? 191)%N).

Fixpoint trimStart (s : string) : string :=
  match s with
  | EmptyString => s
  | String c1 t1 =>
      if ws1 c1 then trimStart t1
      else match t1 with
           | EmptyString => s
           | String c2 t2 =>
               if ws2 c1 c2 then trimStart t2
               else match t2 with
                    | EmptyString => s
                    | String c3 t3 =>
                        if ws3 c1 c2 c3 then trimStart t3 else s
                    end
           end
  end.

Fixpoint rev_onto (s acc : string) : string :=
  match s with
  | EmptyString => acc
  | String c t => rev_onto t (String c acc)
  end.

Definition rev (s : string) : string := rev_onto s EmptyString.

(** The same scan on the reversed text: the bytes of a sequence come last
    byte first. *)
Fixpoint trimStart_rev (s : string) : string :=
  match s with
  | EmptyString => s
  | String c1 t1 =>
      if ws1 c1 then trimStart_rev t1
      else match t1 with
           | EmptyString => s
           | String c2 t2 =>
               if ws2 c2 c1 then trimStart_rev t2
               else match t2 with
                    | EmptyString => s
                    | String c3 t3 =>
                        if ws3 c3 c2 c1 then trimStart_rev t3 else s
                    end
           end
  end.

Definition trimEnd (s : string) : string := rev (trimStart_rev (rev s)).

(** [s.trim()] *)
Definition trim (s : string) : string := trimEnd (trimStart s).

Definition is_empty (s : string) : bool :=
  match s with EmptyString => true | _ => false end.

(** [\d] *)
Definition is_digit (c : ascii) : bool :=
  (48 <=? code c)%N && (code c <=? 57)%N.

Fixpoint take_digits (s : string) : string :=
  match s with
  | EmptyString => EmptyString
  | String c t => if is_digit c then String c (take_digits t) else EmptyString
  end.

(** [s.match(/(\d+)/)]: [None] for [null], otherwise the first group, which
    is the leftmost longest run of digits. *)
Fixpoint match_digits (s : string) : option string :=
  match s with
  | EmptyString => None
  | String c t => if is_digit c then Some (take_digits s) else match_digits t
  end.

(** A value of a template literal hole that holds an integer. *)
Definition of_Z (z : Z) : string := NilZero.string_of_int (Z.to_int z).

Definition of_nat (n : nat) : string := of_Z (Z.of_nat n).

End JsString.

(** ** Numbers *)

(** A number the program holds: [NaN], a double whose value is the integer
    [z], or an infinity. *)
Inductive JsNumber : Type :=
| JNaN
| JNum (z : Z)
| JInf (negative : bool).

Module Num.

Import JsString.

(** The Number value for an integer: the IEEE 754 binary64 value nearest to
    it, ties to the even significand.  An integer below 2^53 in magnitude is
    its own value; above, the 53 leading bits are kept and rounded; what
    rounds to 2^1024 is an infinity. *)
Definition double (z : Z) : JsNumber :=
  let a := Z.abs z in
  if (a <? 2 ^ 53)%Z then JNum z
  else
    let e := (Z.log2 a - 52)%Z in
    let q := Z.shiftr a e in
    let r := Z.land a (Z.ones e) in
    let half := Z.shiftl 1 (e - 1) in
    let q' :=
      if (r <? half)%Z then q
      else if (half <? r)%Z then (q + 1)%Z
      else if Z.even q then q else (q + 1)%Z in
    let v := Z.shiftl q' e in
    if (2 ^ 1024 <=? v)%Z then JInf (z <? 0)%Z else JNum (Z.sgn z * v).

(** The value of a digit in radix 10 or 16; [None] when the byte is not a
    digit of that radix. *)
Definition digit_value (radix : Z) (c : ascii) : option Z :=
  let n := Z.of_N (code c) in
  if (48 <=? n)%Z && (n <=? 57)%Z then Some (n - 48)%Z
  else if (radix =? 16)%Z && (97 <=? n)%Z && (n <=? 102)%Z then Some (n - 87)%Z
  else if (radix =? 16)%Z && (65 <=? n)%Z && (n <=? 70)%Z then Some (n - 55)%Z
  else None.

(** The longest prefix of digits, read in the radix; [None] when the
    prefix is empty. *)
Fixpoint read_digits (radix : Z) (acc : option Z) (s : string) : option Z :=
  match s with
  | EmptyString => acc
  | String c t =>
      match digit_value radix c with
      | Some d =>
          read_digits radix
            (Some (match acc with Some a => a * radix + d | None => d end)%Z) t
      | None => acc
      end
  end.

(** [parseInt(s)] with no radix: leading white space is skipped, a sign
    is read, then [0x] or [0X] selects radix 16, then the longest prefix of
    digits is read; no digit gives [NaN], else the Number value for the
    integer read. *)
Definition parseInt (s : string) : JsNumber :=
  let s1 := trimStart s in
  let '(sign, s2) :=
    match s1 with
    | String c t =>
        if Ascii.eqb c "-"%char then ((-1)%Z, t)
        else if Ascii.eqb c "+"%char then (1%Z, t)
        else (1%Z, s1)
    | EmptyString => (1%Z, s1)
    end in
  let '(radix, s3) :=
    match s2 with
    | String c1 (String c2 t) =>
        if (Ascii.eqb c1 "0"%char
            && (Ascii.eqb c2 "x"%char || Ascii.eqb c2 "X"%char))%bool
        then (16%Z, t) else (10%Z, s2)
    | _ => (10%Z, s2)
    end in
  match read_digits radix None s3 with
  | Some v => double (sign * v)
  | None => JNaN
  end.

(** [a * b], for an integer [b] that is a double. *)
Definition mul (a : JsNumber) (b : Z) : JsNumber :=
  match a with
  | JNaN => JNaN
  | JNum z => double (z * b)
  | JInf negative =>
      if (b =? 0)%Z then JNaN else JInf (xorb negative (b <? 0)%Z)
  end.

(** [a > 0] *)
Definition gt0 (a : JsNumber) : bool :=
  match a with
  | JNaN => false
  | JNum z => (0 <? z)%Z
  | JInf negative => negb negative
  end.

(** Whether the decimal [c] is read back as the double [x]. *)
Definition reads_as (x c : Z) : bool :=
  match double c with
  | JNum v => (v =? x)%Z
  | _ => false
  end.

(** The digits [Number::toString] gives a positive double [x] that is an
    integer: the multiple of the greatest power of ten, from [10 ^ j] down,
    that is read back as [x]; of two such neighbours of [x], the nearer. *)
Fixpoint shortest (j : nat) (x : Z) : Z :=
  let p := (10 ^ Z.of_nat j)%Z in
  let lo := (x / p * p)%Z in
  let hi := (lo + p)%Z in
  if reads_as x lo && reads_as x hi then
    if (x - lo <? hi - x)%Z then lo
    else if (hi - x <? x - lo)%Z then hi
    else if Z.even (x / p) then lo else hi
  else if reads_as x lo then lo
  else if reads_as x hi then hi
  else match j with
       | O => x
       | S j' => shortest j' x
       end.

Fixpoint drop_zeros (s : string) : string :=
  match s with
  | String c t => if Ascii.eqb c "0"%char then drop_zeros t else s
  | EmptyString => s
  end.

(** A positive double of 2^53 or more: its shortest digits, followed by
    zeros up to 21 digits, in exponent notation beyond. *)
Definition show_large (x : Z) : string :=
  let digits := of_Z (shortest (String.length (of_Z x)) x) in
  let n := String.length digits in
  if (n <=? 21)%nat then digits
  else
    match rev (drop_zeros (rev digits)) with
    | String d rest =>
        String d (if is_empty rest then "" else "." +:+ rest)
          +:+ "e+" +:+ of_nat (n - 1)
    | EmptyString => digits
    end.

(** A template literal hole that holds a number: [Number::toString].  An
    integer below 2^53 in magnitude prints as its decimal digits. *)
Definition to_string (a : JsNumber) : string :=
  match a with
  | JNaN => "NaN"
  | JNum z =>
      if (Z.abs z <? 2 ^ 53)%Z then of_Z z
      else if (z <? 0)%Z then "-" +:+ show_large (- z) else show_large z
  | JInf negative => if negative then "-Infinity" else "Infinity"
  end.

End Num.

Import JsString.

(** ** Values that cross the boundary of the program *)

(** [this.logger.log], [.warn] and [.error]. *)
Inductive Level : Type :=
| LevelLog
| LevelWarn
| LevelError.

(** What a [catch] receives.  [message] is [error.message] ([None] when the
    property is missing) and [toStr] is what [error.toString()] returns. *)
Record JsError : Type := mkError {
  message : option string;
  toStr : string
}.

(** What [client.getEntity] resolves to; the fields the program reads.
    [None] is a missing (or [null]) property. *)
Record Entity : Type := mkEntity {
  username : option string;
  className : string;
  id : Z;
  title : option string;
  firstName : option string
}.

(** What [client.sendMessage] resolves to; the program reads [id]. *)
Record SentMessage : Type := mkSent {
  sent_id : Z
}.

(** How a call ends: normally with a value, or by throwing. *)
Inductive Completion (A : Type) : Type :=
| Normal (a : A)
| Throw (e : JsError).

Arguments Normal {A} a.
Arguments Throw {A} e.

(** [boolean | 'flood_wait'], the result of [sendMessageWithLogging]. *)
Inductive SendResult : Type :=
| ResTrue
| ResFalse
| ResFloodWait.

(** [x || y] on strings that may be missing: the empty string is falsy. *)
Definition or_else (x : option string) (y : string) : string :=
  match x with
  | Some s => if is_empty s then y else s
  | None => y
  end.

(** Truthiness of a string property that may be missing. *)
Definition truthy (x : option string) : bool :=
  match x with
  | Some s => negb (is_empty s)
  | None => false
  end.

(** A template literal hole that holds a property that may be missing. *)
Definition show_property (x : option string) : string :=
  match x with
  | Some s => s
  | None => "undefined"
  end.

Definition lines (l : list string) : string := String.concat nl l.

(** ** The audit reports

    The five texts the program hands to [sendLogMessage], with the values of
    their holes; [render] is the text. *)
Inductive Report : Type :=
| MessageSent (time chatTitle postLink : string)
| SendFailed (time chatId description action : string)
| RoundStarted (time : string) (round : Z) (chats : nat) (totalOk totalFail totalFlood : Z)
| RoundPaused (time : string) (round : Z) (processed chats : nat) (roundOk roundFail : Z)
| RoundCompleted (time : string) (round roundOk roundFail totalOk totalFail totalFlood : Z)
    (intervalSeconds : JsNumber).

Definition render (r : Report) : string :=
  match r with
  | MessageSent time chatTitle postLink =>
      lines [ "✅ MESSAGE SENT";
              "⏰ Time: " +:+ time;
              "💬 Group name: " +:+ chatTitle;
              "🔗 Post link: " +:+ postLink ]
  | SendFailed time chatId description action =>
      lines [ "❌ SEND FAILED";
              "⏰ Time: " +:+ time;
              "💬 Group: " +:+ chatId;
              "🚫 Error: " +:+ description;
              "⚠️ Action: " +:+ action ]
  | RoundStarted time round chats totalOk totalFail totalFlood =>
      lines [ "🔄 NEW ROUND STARTED";
              "⏰ Time: " +:+ time;
              "🎯 Round #" +:+ of_Z round;
              "📝 Chats in round: " +:+ of_nat chats;
              "📊 Total stats: ✅" +:+ of_Z totalOk +:+ " ❌" +:+ of_Z totalFail
                +:+ " ⏸️" +:+ of_Z totalFlood ]
  | RoundPaused time round processed chats roundOk roundFail =>
      lines [ "⏸️ ROUND PAUSED (FLOOD WAIT)";
              "⏰ Time: " +:+ time;
              "🎯 Round #" +:+ of_Z round +:+ " paused";
              "🚫 Reason: Telegram flood control activated";
              "📊 Round progress: " +:+ of_nat processed +:+ "/" +:+ of_nat chats
                +:+ " chats processed";
              "✅ Round sent: " +:+ of_Z roundOk +:+ " | ❌ Round failed: "
                +:+ of_Z roundFail;
              "⏳ Will start new round after flood control expires" ]
  | RoundCompleted time round roundOk roundFail totalOk totalFail totalFlood
      intervalSeconds =>
      lines [ "✅ ROUND COMPLETED";
              "⏰ Time: " +:+ time;
              "🎯 Round #" +:+ of_Z round +:+ " finished";
              "✅ Round sent: " +:+ of_Z roundOk;
              "❌ Round failed: " +:+ of_Z roundFail;
              "📊 Total stats: ✅" +:+ of_Z totalOk +:+ " ❌" +:+ of_Z totalFail
                +:+ " ⏸️" +:+ of_Z totalFlood;
              "🔄 Starting next round in " +:+ Num.to_string intervalSeconds
                +:+ " seconds..." ]
  end.

(** ** The trace *)

(** The three places where the dispatch core suspends itself. *)
Inductive Pause : Type :=
| BetweenMessages
| BetweenRounds
| ExtraCooldown.

Inductive Event : Type :=
| EvLogger (level : Level) (text : string)
    (** [this.logger.log], [.warn], [.error] *)
| EvAudit (r : Report)
    (** [sendLogMessage] was called with [render r] *)
| EvAttempt (i : nat) (chatId : string) (result : SendResult)
    (** in a round, [sendMessageWithLogging] returned [result] for
        [chatIds[i]] *)
| EvSleep (why : Pause) (ms : JsNumber)
    (** [await new Promise(resolve => setTimeout(resolve, ms))] *).

(** ** The outside world *)

(** How the body of the [try] of [initializeClient] ended: it returned, or it
    threw, before or after [this.client] was assigned. *)
Inductive StartOutcome : Type :=
| Started
| StartFailed (clientAssigned : bool) (e : JsError).

(** The collaborators of the dispatch core, over a world [T] that they may
    change: the Telegram client, the clock and the timer. *)
Class TelegramClient (T : Type) : Type := {
  (** [client.getEntity(id)] *)
  getEntity : string -> T -> Completion Entity * T;
  (** [client.sendMessage(entity, { message })] *)
  sendMessage : Entity -> string -> T -> Completion SentMessage * T;
  (** the body of the [try] of [initializeClient]: session loading,
      [client.start] and session saving, with the lines it logs *)
  start : T -> StartOutcome * list (Level * string) * T;
  (** [new Date().toLocaleString('ru-RU', options)]; the flag tells whether
      the two-digit options are given *)
  toLocaleString : bool -> T -> string;
  (** the world after a timer of [ms] milliseconds has fired *)
  elapse : JsNumber -> T -> T
}.

(** ** The program *)

Module MessagingService.

(** The return value of [analyzeError]. *)
Record ErrorInfo : Type := mkInfo {
  description : string;
  action : string;
  waitTime : JsNumber
}.

Definition errorMessageOf (error : JsError) : string :=
  or_else (message error) (toStr error).

Definition analyzeError (error : JsError) : ErrorInfo :=
  let errorMessage := errorMessageOf error in
  if includes errorMessage "FLOOD_WAIT" || includes errorMessage "Too Many Requests" then
    let waitTime :=
      match match_digits errorMessage with
      | Some group1 => Num.parseInt group1
      | None => JNum 300
      end in
    {| description := "Flood control activated, need to wait "
                        +:+ Num.to_string waitTime +:+ " seconds";
       action := "Will pause bulk sending until flood control expires";
       waitTime := waitTime |}
  else if includes errorMessage "CHAT_WRITE_FORBIDDEN" || includes errorMessage "write access" then
    {| description := "No permission to send messages to this chat";
       action := "Skip this chat and continue with others";
       waitTime := JNum 0 |}
  else if includes errorMessage "USER_BANNED_IN_CHANNEL" || includes errorMessage "banned" then
    {| description := "User is banned in this channel";
       action := "Skip this chat permanently";
       waitTime := JNum 0 |}
  else if includes errorMessage "CHANNEL_PRIVATE" || includes errorMessage "private" then
    {| description := "Channel became private or was deleted";
       action := "Skip this chat permanently";
       waitTime := JNum 0 |}
  else if includes errorMessage "CHAT_ADMIN_REQUIRED" || includes errorMessage "admin" then
    {| description := "Admin rights required to send messages";
       action := "Skip this chat and continue with others";
       waitTime := JNum 0 |}
  else if includes errorMessage "PEER_ID_INVALID" || includes errorMessage "Could not find" then
    {| description := "Chat not found or not accessible";
       action := "Skip this chat permanently";
       waitTime := JNum 0 |}
  else
    {| description := "Unknown error: " +:+ errorMessage;
       action := "Skip this chat and continue with others";
       waitTime := JNum 0 |}.

Definition getPostLink (entity : Entity) (messageId : Z) : string :=
  if truthy (username entity) then
    "https://t.me/" +:+ show_property (username entity) +:+ "/" +:+ of_Z messageId
  else if String.eqb (className entity) "Channel" then
    let channelId := replace_first "-100" "" (of_Z (id entity)) in
    "https://t.me/c/" +:+ channelId +:+ "/" +:+ of_Z messageId
  else
    "Private group (ID: " +:+ of_Z (id entity) +:+ ", Message: "
      +:+ of_Z messageId +:+ ")".

Definition getEntityTitle (entity : Entity) : string :=
  if truthy (title entity) then show_property (title entity)
  else if truthy (firstName entity) then show_property (firstName entity)
  else "Unknown".

(** The errors the program or the runtime makes itself. *)
Definition notInitialized : JsError :=
  {| message := Some "Telegram client not initialized";
     toStr := "Error: Telegram client not initialized" |}.

Definition undefinedClient : JsError :=
  {| message := Some "Cannot read properties of undefined (reading 'getEntity')";
     toStr := "TypeError: Cannot read properties of undefined (reading 'getEntity')" |}.

Section WithClient.

Context {T : Type} `{TelegramClient T}.

(** The state an [async] method runs in: the field [this.client] (set or
    not) and the world. *)
Record State : Type := mkState {
  client : bool;
  world : T
}.

(** An [async] method: from a state to a completion, the events it
    emitted, in order, and the state it leaves. *)
Definition M (A : Type) : Type := State -> Completion A * list Event * State.

Definition ret {A} (a : A) : M A := fun s => (Normal a, [], s).

Definition throw {A} (e : JsError) : M A := fun s => (Throw e, [], s).

Definition bind {A B} (m : M A) (f : A -> M B) : M B :=
  fun s =>
    match m s with
    | (Normal a, tr, s') =>
        match f a s' with
        | (r, tr', s'') => (r, tr ++ tr', s'')
        end
    | (Throw e, tr, s') => (Throw e, tr, s')
    end.

(** [try { body } catch (error) { handler(error) }] *)
Definition try_catch {A} (body : M A) (handler : JsError -> M A) : M A :=
  fun s =>
    match body s with
    | (Normal a, tr, s') => (Normal a, tr, s')
    | (Throw e, tr, s') =>
        match handler e s' with
        | (r, tr', s'') => (r, tr ++ tr', s'')
        end
    end.

Definition emit (ev : Event) : M unit := fun s => (Normal tt, [ev], s).

Definition logger (level : Level) (text : string) : M unit :=
  emit (EvLogger level text).

(** A call of a method of [this.client]; a [TypeError] when the field is
    not set. *)
Definition call {A} (op : T -> Completion A * T) : M A :=
  fun s =>
    if client s then
      match op (world s) with
      | (r, w) => (r, [], {| client := client s; world := w |})
      end
    else (Throw undefinedClient, [], s).

Definition localTime (twoDigit : bool) : M string :=
  fun s => (Normal (toLocaleString twoDigit (world s)), [], s).

Definition sleep (why : Pause) (ms : JsNumber) : M unit :=
  fun s => (Normal tt, [EvSleep why ms],
            {| client := client s; world := elapse ms (world s) |}).

Definition clientMissing : M bool := fun s => (Normal (negb (client s)), [], s).

Notation "'let*' x ':=' m 'in' f" := (bind m (fun x => f))
  (at level 10, x name, m at level 100, f at level 200).
Notation "m ';;' f" := (bind m (fun _ => f))
  (at level 100, f at level 200, right associativity).

Definition sendLogMessage (logChatId : string) (r : Report) : M unit :=
  emit (EvAudit r) ;;
  try_catch
    (let* logEntity := call (getEntity logChatId) in
     let* _ := call (sendMessage logEntity (render r)) in
     ret tt)
    (fun error =>
       logger LevelError
         ("Failed to send log message: " +:+ show_property (message error))).

(** The [try] block and the [catch] block of [sendMessageWithLogging]. *)
Definition try_block (chatId text logChatId : string) : M SendResult :=
  logger LevelLog ("📤 Sending message to chat " +:+ chatId) ;;
  let* entity := call (getEntity chatId) in
  let* sentMessage := call (sendMessage entity text) in
  let* timeString := localTime true in
  let chatTitle := getEntityTitle entity in
  let postLink := getPostLink entity (sent_id sentMessage) in
  sendLogMessage logChatId (MessageSent timeString chatTitle postLink) ;;
  logger LevelLog ("✅ Message sent successfully to " +:+ chatId) ;;
  ret ResTrue.

Definition catch_block (chatId logChatId : string) (error : JsError)
  : M SendResult :=
  let errorInfo := analyzeError error in
  let* timeString := localTime true in
  sendLogMessage logChatId
    (SendFailed timeString chatId (description errorInfo) (action errorInfo)) ;;
  logger LevelError
    ("❌ " +:+ description errorInfo +:+ " for chat " +:+ chatId) ;;
  if Num.gt0 (waitTime errorInfo) then
    logger LevelWarn
      ("⏳ Need to wait " +:+ Num.to_string (waitTime errorInfo)
         +:+ " seconds due to flood control") ;;
    ret ResFloodWait
  else ret ResFalse.

Definition sendMessageWithLogging (chatId text logChatId : string)
  : M SendResult :=
  let* missing := clientMissing in
  if missing : bool then throw notInitialized
  else try_catch (try_block chatId text logChatId) (catch_block chatId logChatId).

(** The variables of [sendBulkMessagesWithInterval] that live across
    rounds, and those of one round. *)
Record Totals : Type := mkTotals {
  totalSuccessCount : Z;
  totalFailCount : Z;
  totalFloodWaitCount : Z;
  roundNumber : Z
}.

Record Round : Type := mkRound {
  roundSuccessCount : Z;
  roundFailCount : Z;
  roundFloodWaitCount : Z;
  roundStopped : bool
}.

Section Bulk.

Variables (chatIds : list string) (text logChatId : string)
          (intervalSeconds : JsNumber).

(** The [for] loop of a round, from index [i] on; [rest] is
    [chatIds.slice(i)]. *)
Fixpoint for_loop (rest : list string) (i : nat) (tot : Totals) (rnd : Round)
  : M (Totals * Round) :=
  match rest with
  | [] => ret (tot, rnd)
  | chatId :: rest' =>
      logger LevelLog
        ("📊 Round " +:+ of_Z (roundNumber tot) +:+ " - Progress: "
           +:+ of_nat (i + 1) +:+ "/" +:+ of_nat (length chatIds) +:+ " chats") ;;
      let* result := sendMessageWithLogging chatId text logChatId in
      emit (EvAttempt i chatId result) ;;
      match result with
      | ResFloodWait =>
          let rnd' :=
            {| roundSuccessCount := roundSuccessCount rnd;
               roundFailCount := roundFailCount rnd;
               roundFloodWaitCount := roundFloodWaitCount rnd + 1;
               roundStopped := true |} in
          let tot' :=
            {| totalSuccessCount := totalSuccessCount tot;
               totalFailCount := totalFailCount tot;
               totalFloodWaitCount := totalFloodWaitCount tot + 1;
               roundNumber := roundNumber tot |} in
          logger LevelWarn "🚫 FloodWait detected! Pausing current round..." ;;
          let* time := localTime false in
          sendLogMessage logChatId
            (RoundPaused time (roundNumber tot') (i + 1) (length chatIds)
               (roundSuccessCount rnd') (roundFailCount rnd')) ;;
          ret (tot', rnd')
      | _ =>
          let rnd' :=
            match result with
            | ResTrue =>
                {| roundSuccessCount := roundSuccessCount rnd + 1;
                   roundFailCount := roundFailCount rnd;
                   roundFloodWaitCount := roundFloodWaitCount rnd;
                   roundStopped := roundStopped rnd |}
            | _ =>
                {| roundSuccessCount := roundSuccessCount rnd;
                   roundFailCount := roundFailCount rnd + 1;
                   roundFloodWaitCount := roundFloodWaitCount rnd;
                   roundStopped := roundStopped rnd |}
            end in
          let tot' :=
            match result with
            | ResTrue =>
                {| totalSuccessCount := totalSuccessCount tot + 1;
                   totalFailCount := totalFailCount tot;
                   totalFloodWaitCount := totalFloodWaitCount tot;
                   roundNumber := roundNumber tot |}
            | _ =>
                {| totalSuccessCount := totalSuccessCount tot;
                   totalFailCount := totalFailCount tot + 1;
                   totalFloodWaitCount := totalFloodWaitCount tot;
                   roundNumber := roundNumber tot |}
            end in
          (if (Z.of_nat i <? Z.of_nat (length chatIds) - 1)%Z then
             logger LevelLog
               ("⏳ Waiting " +:+ Num.to_string intervalSeconds
                  +:+ " seconds before next message...") ;;
             sleep BetweenMessages (Num.mul intervalSeconds 1000)
           else ret tt) ;;
          for_loop rest' (i + 1) tot' rnd'
      end
  end.

Definition newRound : Round :=
  {| roundSuccessCount := 0; roundFailCount := 0;
     roundFloodWaitCount := 0; roundStopped := false |}.

(** What follows the [for] loop in the body of [while (true)], for the
    values the variables have there. *)
Definition after_loop (tot : Totals) (rnd : Round) : M Totals :=
  (if negb (roundStopped rnd) then
     let* time := localTime false in
     sendLogMessage logChatId
       (RoundCompleted time (roundNumber tot) (roundSuccessCount rnd)
          (roundFailCount rnd) (totalSuccessCount tot) (totalFailCount tot)
          (totalFloodWaitCount tot) intervalSeconds) ;;
     logger LevelLog
       ("✅ Round #" +:+ of_Z (roundNumber tot) +:+ " completed: "
          +:+ of_Z (roundSuccessCount rnd) +:+ " sent, "
          +:+ of_Z (roundFailCount rnd) +:+ " failed") ;;
     logger LevelLog
       ("⏳ Waiting " +:+ Num.to_string intervalSeconds
          +:+ " seconds before next round...") ;;
     sleep BetweenRounds (Num.mul intervalSeconds 1000)
   else ret tt) ;;
  let tot' :=
    {| totalSuccessCount := totalSuccessCount tot;
       totalFailCount := totalFailCount tot;
       totalFloodWaitCount := totalFloodWaitCount tot;
       roundNumber := roundNumber tot + 1 |} in
  (if (0 <? roundFloodWaitCount rnd)%Z && negb (roundStopped rnd) then
     logger LevelWarn
       "⚠️ FloodWait detected but round completed. Adding extra delay..." ;;
     sleep ExtraCooldown (JNum (300 * 1000))
   else ret tt) ;;
  ret tot'.

(** One pass through the body of [while (true)]. *)
Definition round (tot : Totals) : M Totals :=
  let* time := localTime false in
  sendLogMessage logChatId
    (RoundStarted time (roundNumber tot) (length chatIds)
       (totalSuccessCount tot) (totalFailCount tot) (totalFloodWaitCount tot)) ;;
  logger LevelLog ("🔄 Starting round #" +:+ of_Z (roundNumber tot)) ;;
  let* vars := for_loop chatIds 0 tot newRound in
  after_loop (fst vars) (snd vars).

(** The first [n] passes of [while (true)]. *)
Fixpoint rounds (n : nat) (tot : Totals) : M Totals :=
  match n with
  | O => ret tot
  | S k => let* tot' := round tot in rounds k tot'
  end.

Definition initialTotals : Totals :=
  {| totalSuccessCount := 0; totalFailCount := 0;
     totalFloodWaitCount := 0; roundNumber := 1 |}.

End Bulk.

(** [sendBulkMessagesWithInterval], cut after [n] rounds: the loop has no
    exit, so the method itself never returns. [intervalSeconds] is
    [None] when the argument is left out. *)
Definition sendBulkMessagesWithInterval (n : nat) (chatIds : list string)
  (text logChatId : string) (intervalSeconds : option JsNumber) : M Totals :=
  let intervalSeconds :=
    match intervalSeconds with Some v => v | None => JNum 90 end in
  logger LevelLog
    ("📤 Starting infinite bulk messaging to " +:+ of_nat (length chatIds)
       +:+ " chats with " +:+ Num.to_string intervalSeconds
       +:+ "s interval...") ;;
  rounds chatIds text logChatId intervalSeconds n initialTotals.

(** [initializeClient]: the body of its [try] is the collaborator [start];
    on success [this.client] is set, on failure the error is logged and
    thrown again. *)
Definition initializeClient : M unit :=
  fun s =>
    match start (world s) with
    | (Started, logged, w) =>
        (Normal tt,
         map (fun l => EvLogger (fst l) (snd l)) logged,
         {| client := true; world := w |})
    | (StartFailed assigned error, logged, w) =>
        (Throw error,
         map (fun l => EvLogger (fst l) (snd l)) logged
           ++ [EvLogger LevelError
                 ("Failed to initialize messaging client: "
                    +:+ show_property (message error))],
         {| client := client s || assigned; world := w |})
    end.

End WithClient.

End MessagingService.

Module AppService.

Import MessagingService.

(** How the model of [sendTestMessage] ends: the method returned, or it is
    still inside the endless loop of [sendBulkMessagesWithInterval], with
    these totals after the rounds that were run. *)
Inductive Exit : Type :=
| Returned
| InsideLoop (tot : Totals).

Section WithClient.

Context {T : Type} `{TelegramClient T}.

Notation "'let*' x ':=' m 'in' f" := (bind m (fun x => f))
  (at level 10, x name, m at level 100, f at level 200).
Notation "m ';;' f" := (bind m (fun _ => f))
  (at level 100, f at level 200, right associativity).

(** The settings [sendTestMessage] reads from [process.env]. *)
Definition messageText (env : gmap string string) : string :=
  unescape_newlines (or_else (env !! "BULK_MESSAGE_TEXT") "Default test message").

Definition logChatId (env : gmap string string) : string :=
  or_else (env !! "LOG_CHAT_ID") "-4872735777".

Definition intervalSeconds (env : gmap string string) : JsNumber :=
  Num.parseInt (or_else (env !! "BULK_INTERVAL_SECONDS") "90").

Definition targetChats (env : gmap string string) : list string :=
  let targetChatsEnv := or_else (env !! "TARGET_CHATS") "" in
  List.filter (fun chat => negb (is_empty chat))
    (map trim (split_comma targetChatsEnv)).

(** [sendTestMessage], with the loop it starts cut after [n] rounds.  (The
    call of [disconnect] that follows the endless loop is never reached.) *)
Definition sendTestMessage (n : nat) (env : gmap string string) : M (T := T) Exit :=
  logger LevelLog "📤 Starting bulk message sending with env config..." ;;
  initializeClient ;;
  if (length (targetChats env) =? 0)%nat then
    logger LevelError "❌ No target chats found in TARGET_CHATS env variable" ;;
    logger LevelLog "💡 Please set TARGET_CHATS in .env file like:" ;;
    logger LevelLog "   TARGET_CHATS=-1001234567890,-1001234567891,-1001234567892" ;;
    ret Returned
  else if is_empty (messageText env) || is_empty (trim (messageText env)) then
    logger LevelError "❌ No message text found in BULK_MESSAGE_TEXT env variable" ;;
    logger LevelLog "💡 Please set BULK_MESSAGE_TEXT in .env file" ;;
    ret Returned
  else
    logger LevelLog "📋 Configuration loaded from .env:" ;;
    logger LevelLog ("📝 Message: " +:+ dquote +:+ messageText env +:+ dquote) ;;
    logger LevelLog ("📊 Log chat: " +:+ logChatId env) ;;
    logger LevelLog
      ("⏱️ Interval: " +:+ Num.to_string (intervalSeconds env) +:+ " seconds") ;;
    logger LevelLog
      ("🎯 Target chats: " +:+ of_nat (length (targetChats env)) +:+ " chats") ;;
    logger LevelLog ("📋 Chat list: " +:+ String.concat ", " (targetChats env)) ;;
    let* tot :=
      sendBulkMessagesWithInterval n (targetChats env) (messageText env)
        (logChatId env) (Some (intervalSeconds env)) in
    ret (InsideLoop tot).

(** The variables [onModuleInit] requires. *)
Definition requiredEnvVars : list string :=
  [ "TELEGRAM_API_ID"; "TELEGRAM_API_HASH"; "BULK_MESSAGE_TEXT"; "LOG_CHAT_ID";
    "TARGET_CHATS" ].

(** [!value || value.trim().length === 0] *)
Definition blank (value : option string) : bool :=
  match value with
  | None => true
  | Some v => is_empty v || is_empty (trim v)
  end.

Definition missingVars (env : gmap string string) : list string :=
  List.filter (fun varName => blank (env !! varName)) requiredEnvVars.

(** [missingVars.forEach(varName => this.logger.error(...))] *)
Fixpoint report_missing (vars : list string) : M (T := T) unit :=
  match vars with
  | [] => ret tt
  | varName :: vars' =>
      logger LevelError ("   - " +:+ varName) ;;
      report_missing vars'
  end.

(** [onModuleInit], with the loop that [sendTestMessage] starts cut after
    [n] rounds.  The error line of the [catch], a logger call with a second
    argument, is recorded as the text, a space and the argument. *)
Definition onModuleInit (n : nat) (env : gmap string string) : M (T := T) Exit :=
  try_catch
    (if (0 <? length (missingVars env))%nat then
       logger LevelError "❌ Missing required environment variables:" ;;
       report_missing (missingVars env) ;;
       logger LevelLog "💡 Please fill all required variables in .env file" ;;
       ret Returned
     else
       (if blank (env !! "TELEGRAM_SESSION_STRING") then
          logger LevelWarn "⚠️ TELEGRAM_SESSION_STRING not found in .env file" ;;
          logger LevelLog "📋 First run: will require phone authentication" ;;
          logger LevelLog
            "💡 Copy session string from logs to .env for server deployment" ;;
          logger LevelLog ""
        else ret tt) ;;
       sendTestMessage n env)
    (fun error =>
       logger LevelError
         ("Application error: " +:+ show_property (message error)) ;;
       ret Returned).

End WithClient.

End AppService.

(** [MessagingService.sendMessage], the send without audit reports. *)

Module Unlogged.

Import MessagingService.

Section WithClient.

Context {T : Type} `{TelegramClient T}.

Notation "'let*' x ':=' m 'in' f" := (bind m (fun x => f))
  (at level 10, x name, m at level 100, f at level 200).
Notation "m ';;' f" := (bind m (fun _ => f))
  (at level 100, f at level 200, right associativity).

Definition sendMessage (chatId text : string) : M (T := T) bool :=
  let* missing := clientMissing in
  if missing : bool then throw notInitialized
  else
    try_catch
      (logger LevelLog
         ("📤 Sending message to chat " +:+ chatId +:+ ": " +:+ dquote +:+ text
            +:+ dquote) ;;
       let* entity := call (getEntity chatId) in
       let* _ := call (sendMessage entity text) in
       logger LevelLog ("✅ Message sent successfully to " +:+ chatId) ;;
       ret true)
      (fun error =>
         logger LevelError
           ("❌ Failed to send message to " +:+ chatId +:+ ": "
              +:+ show_property (message error)) ;;
         ret false).

End WithClient.

End Unlogged.

(** ** A scripted client

    A world that can be run: the entities the account can resolve, the
    errors the service answers with, by entity id, and the messages
    transmitted so far.  The clock shows one fixed time and timers fire
    without changing anything. *)

Module Script.

Record World : Type := mkWorld {
  known : list (string * Entity);
  refusals : list (Z * JsError);
  outbox : list (Z * string)
}.

Fixpoint lookup_entity (l : list (string * Entity)) (chat : string)
  : option Entity :=
  match l with
  | [] => None
  | (k, e) :: l' => if String.eqb k chat then Some e else lookup_entity l' chat
  end.

Fixpoint lookup_refusal (l : list (Z * JsError)) (z : Z) : option JsError :=
  match l with
  | [] => None
  | (k, e) :: l' => if (k =? z)%Z then Some e else lookup_refusal l' z
  end.

Definition notFound (chat : string) : JsError :=
  {| message := Some ("Could not find the input entity for " +:+ chat);
     toStr := "Error: Could not find the input entity for " +:+ chat |}.

#[export] Instance scripted : TelegramClient World := {
  getEntity chat w :=
    match lookup_entity (known w) chat with
    | Some e => (Normal e, w)
    | None => (Throw (notFound chat), w)
    end;
  sendMessage e text w :=
    match lookup_refusal (refusals w) (id e) with
    | Some err => (Throw err, w)
    | None =>
        (Normal {| sent_id := Z.of_nat (length (outbox w)) + 1 |},
         {| known := known w; refusals := refusals w;
            outbox := outbox w ++ [(id e, text)] |})
    end;
  start w := (Started, [(LevelLog, "Messaging client initialized successfully")], w);
  toLocaleString twoDigit w := "01.01.2025, 12:00:00";
  elapse ms w := w
}.

Definition channel (n : Z) (name : string) : Entity :=
  {| username := None; className := "Channel"; id := n;
     title := Some name; firstName := None |}.

Definition floodWait (seconds : string) : JsError :=
  {| message := Some ("FLOOD_WAIT_" +:+ seconds);
     toStr := "FloodWaitError: FLOOD_WAIT_" +:+ seconds |}.

(** Three destinations and an audit chat; the second destination answers
    with a flood wait of 120 seconds. *)
Definition three : World :=
  {| known := [ ("-1001", channel (-1001) "one");
                ("-1002", channel (-1002) "two");
                ("-1003", channel (-1003) "three");
                ("-4872735777", channel (-4872735777) "audit") ];
     refusals := [ (-1002, floodWait "120")%Z ];
     outbox := [] |}.

(** The same with no refusal. *)
Definition calm : World :=
  {| known := known three; refusals := []; outbox := [] |}.

Definition ready (w : World) : MessagingService.State :=
  {| MessagingService.client := true; MessagingService.world := w |}.

Definition chats : list string := ["-1001"; "-1002"; "-1003"].

End Script.

(** ** Reading a trace *)

Module Trace.

Definition attempts (tr : list Event) : list (nat * string * SendResult) :=
  flat_map (fun ev => match ev with
                      | EvAttempt i chatId result => [(i, chatId, result)]
                      | _ => []
                      end) tr.

Definition audits (tr : list Event) : list Report :=
  flat_map (fun ev => match ev with EvAudit r => [r] | _ => [] end) tr.

Definition sleeps (tr : list Event) : list (Pause * JsNumber) :=
  flat_map (fun ev => match ev with EvSleep why ms => [(why, ms)] | _ => [] end) tr.

Definition errors (tr : list Event) : list string :=
  flat_map (fun ev => match ev with
                      | EvLogger LevelError text => [text]
                      | _ => []
                      end) tr.

Definition is_logger (ev : Event) : bool :=
  match ev with EvLogger _ _ => true | _ => false end.

(** The reports of [sendMessageWithLogging], as opposed to those of the
    round loop. *)
Definition is_delivery_report (r : Report) : bool :=
  match r with MessageSent _ _ _ | SendFailed _ _ _ _ => true | _ => false end.

Definition is_started (r : Report) : bool :=
  match r with RoundStarted _ _ _ _ _ _ => true | _ => false end.

Definition is_paused (r : Report) : bool :=
  match r with RoundPaused _ _ _ _ _ _ => true | _ => false end.

(** What one call of [sendMessageWithLogging] may emit. *)
Definition is_delivery_event (ev : Event) : bool :=
  match ev with
  | EvLogger _ _ => true
  | EvAudit r => is_delivery_report r
  | _ => false
  end.

Definition is_flood (a : nat * string * SendResult) : bool :=
  match snd a with ResFloodWait => true | _ => false end.

Definition count_result (res : SendResult) (l : list (nat * string * SendResult)) : Z :=
  Z.of_nat (length (List.filter
                      (fun a => match snd a, res with
                                | ResTrue, ResTrue
                                | ResFalse, ResFalse
                                | ResFloodWait, ResFloodWait => true
                                | _, _ => false
                                end) l)).

(** The destinations with their indices: [(0, chatIds[0]), ...]. *)
Definition indexed (chatIds : list string) : list (nat * string) :=
  combine (seq 0 (length chatIds)) chatIds.

End Trace.

(** ** The classification the specification describes

    The outcome of a failure as the specification words it, and its
    classifier: the ordered list of markers, first match wins, and the wait
    read from the first integer of the text. *)

Module Classifier.

Inductive Outcome : Type :=
| RateLimited (waitSeconds : Z)
| PermanentSkip
| TransientSkip
| Unknown.

(** An outcome without its wait. *)
Inductive Kind : Type :=
| KindRateLimited
| KindPermanentSkip
| KindTransientSkip
| KindUnknown.

Definition kind (outcome : Outcome) : Kind :=
  match outcome with
  | RateLimited _ => KindRateLimited
  | PermanentSkip => KindPermanentSkip
  | TransientSkip => KindTransientSkip
  | Unknown => KindUnknown
  end.

Fixpoint digits_value (acc : Z) (s : string) : Z :=
  match s with
  | EmptyString => acc
  | String c t =>
      if is_digit c then digits_value (acc * 10 + (Z.of_N (code c) - 48)) t
      else acc
  end.

(** The first integer embedded in a text, if any. *)
Fixpoint first_integer (s : string) : option Z :=
  match s with
  | EmptyString => None
  | String c t => if is_digit c then Some (digits_value 0 s) else first_integer t
  end.

Definition contains_any (s : string) (markers : list string) : bool :=
  existsb (includes s) markers.

(** The rate-limit marker as the specification quotes it. *)
Definition quoted_marker : string := "too many requests".

(** The classifier, with the markers spelled as the program looks for
    them and the wait as the integer the text holds. *)
Definition classify_spec (text : string) : Outcome :=
  if contains_any text ["Too Many Requests"; "FLOOD_WAIT"] then
    RateLimited (match first_integer text with Some n => n | None => 300 end)
  else if contains_any text ["CHAT_WRITE_FORBIDDEN"; "write access"] then TransientSkip
  else if contains_any text ["USER_BANNED_IN_CHANNEL"; "banned"] then PermanentSkip
  else if contains_any text ["CHANNEL_PRIVATE"; "private"] then PermanentSkip
  else if contains_any text ["CHAT_ADMIN_REQUIRED"; "admin"] then TransientSkip
  else if contains_any text ["PEER_ID_INVALID"; "Could not find"] then PermanentSkip
  else Unknown.

(** The integers [parseInt] gives back as they are. *)
Definition exact (n : Z) : Prop := (n < 2 ^ 53)%Z.

(** The kind of outcome an [ErrorInfo] of the program stands for: the
    program names it in [action], and marks the unknown error in
    [description]. *)
Definition kind_of (info : MessagingService.ErrorInfo) : option Kind :=
  let action := MessagingService.action info in
  if String.eqb action "Will pause bulk sending until flood control expires" then
    Some KindRateLimited
  else if String.eqb action "Skip this chat permanently" then Some KindPermanentSkip
  else if String.eqb action "Skip this chat and continue with others" then
    if startsWith (MessagingService.description info) "Unknown error: "
    then Some KindUnknown else Some KindTransientSkip
  else None.

(** The outcome it stands for; none when its wait is no integer. *)
Definition outcome_of (info : MessagingService.ErrorInfo) : option Outcome :=
  match kind_of info with
  | Some KindRateLimited =>
      match MessagingService.waitTime info with
      | JNum z => Some (RateLimited z)
      | _ => None
      end
  | Some KindPermanentSkip => Some PermanentSkip
  | Some KindTransientSkip => Some TransientSkip
  | Some KindUnknown => Some Unknown
  | None => None
  end.

(** "With its -100 prefix stripped". *)
Definition strip_100 (s : string) : string :=
  if startsWith s "-100" then drop 4 s else s.

(** A text that is a decimal numeral: digits only, at least one. *)
Definition is_numeral (s : string) : bool :=
  negb (is_empty s) && String.eqb (take_digits s) s.

End Classifier.

(** ** Construction

    The constructor of [MessagingService] (that of [TelegramService] is the
    same): the two credentials it reads, or the error it throws. *)

Module Construction.

Definition missingCredentials : JsError :=
  {| message := Some "TELEGRAM_API_ID and TELEGRAM_API_HASH must be set in .env file";
     toStr := "Error: TELEGRAM_API_ID and TELEGRAM_API_HASH must be set in .env file" |}.

(** The fields [apiId] and [apiHash] of the new object. *)
Definition new_MessagingService (env : gmap string string)
  : Completion (JsNumber * string) :=
  let apiIdStr := env !! "TELEGRAM_API_ID" in
  let apiHashStr := env !! "TELEGRAM_API_HASH" in
  if negb (truthy apiIdStr) || negb (truthy apiHashStr) then Throw missingCredentials
  else Normal (Num.parseInt (show_property apiIdStr), show_property apiHashStr).

End Construction.

(** ** [TelegramService]

    The second service of the program: it lists the groups and channels of
    the account and leaves chats.  It has a client and a logger of its own,
    so it has its own events and its own collaborators. *)

(** The record [GroupStats]; its fields keep their names. *)
Module GroupStats.

Record t : Type := mk {
  id : string;
  title : string;
  username : option string;
  type : string;
  participantsCount : Z;
  messagesCount24h : Z
}.

End GroupStats.

Module TelegramService.

(** The requests [leaveChats] hands to [client.invoke]. *)
Inductive Request : Type :=
| LeaveChannel (channel : Entity)
    (** [new Api.channels.LeaveChannel({ channel })] *)
| DeleteChatUser (chatId userId : Z)
    (** [new Api.messages.DeleteChatUser({ chatId, userId })] *).

(** The entity of a dialog: the fields of [Entity] and
    [entity.participantsCount], [None] when the object has no such property
    or it holds no number. *)
Record DialogEntity : Type := mkDialogEntity {
  fields : Entity;
  declaredCount : option Z
}.

(** A dialog of [client.getDialogs()]; [entity] and [id] may be missing. *)
Record Dialog : Type := mkDialog {
  isGroup : bool;
  isChannel : bool;
  entity : option DialogEntity;
  dialogId : option Z
}.

Inductive Event : Type :=
| Logged (level : Level) (text : string)
    (** [this.logger.log], [.warn], [.error]; a call with a second argument
        is recorded as the text, a space and the argument *)
| Invoked (request : Request)
    (** [client.invoke(request)] was called *)
| Slept (ms : Z)
    (** [await new Promise(resolve => setTimeout(resolve, ms))] *).

(** The client of the service and the timer, over a world they may change. *)
Class AccountClient (T : Type) : Type := {
  (** [client.getDialogs()] *)
  getDialogs : T -> Completion (list Dialog) * T;
  (** [client.getParticipants(entity)] *)
  getParticipants : DialogEntity -> T -> Completion (list Entity) * T;
  (** [client.getEntity(id)] *)
  getEntity : string -> T -> Completion Entity * T;
  (** [client.getMe()] *)
  getMe : T -> Completion Entity * T;
  (** what [client.invoke(request)] answers *)
  invoke : Request -> T -> Completion unit * T;
  (** the world after a timer of [ms] milliseconds has fired *)
  elapse : Z -> T -> T
}.

(** [entity?.title || entity?.firstName || 'Unknown'] *)
Definition getEntityTitle (entity : Entity) : string :=
  if truthy (title entity) then show_property (title entity)
  else if truthy (firstName entity) then show_property (firstName entity)
  else "Unknown".

(** [entity?.username || null] *)
Definition getEntityUsername (entity : Entity) : option string :=
  if truthy (username entity) then username entity else None.

Section WithClient.

Context {T : Type} `{AccountClient T}.

Record State : Type := mkState {
  client : bool;
  world : T
}.

Definition M (A : Type) : Type := State -> Completion A * list Event * State.

Definition ret {A} (a : A) : M A := fun s => (Normal a, [], s).

Definition throw {A} (e : JsError) : M A := fun s => (Throw e, [], s).

Definition bind {A B} (m : M A) (f : A -> M B) : M B :=
  fun s =>
    match m s with
    | (Normal a, tr, s') =>
        match f a s' with
        | (r, tr', s'') => (r, tr ++ tr', s'')
        end
    | (Throw e, tr, s') => (Throw e, tr, s')
    end.

(** [try { body } catch (error) { handler(error) }] *)
Definition try_catch {A} (body : M A) (handler : JsError -> M A) : M A :=
  fun s =>
    match body s with
    | (Normal a, tr, s') => (Normal a, tr, s')
    | (Throw e, tr, s') =>
        match handler e s' with
        | (r, tr', s'') => (r, tr ++ tr', s'')
        end
    end.

Definition emit (ev : Event) : M unit := fun s => (Normal tt, [ev], s).

Definition logger (level : Level) (text : string) : M unit :=
  emit (Logged level text).

(** A call of a method of [this.client]. *)
Definition call {A} (op : T -> Completion A * T) : M A :=
  fun s =>
    if client s then
      match op (world s) with
      | (r, w) => (r, [], {| client := client s; world := w |})
      end
    else (Throw MessagingService.undefinedClient, [], s).

Definition sleep (ms : Z) : M unit :=
  fun s => (Normal tt, [Slept ms],
            {| client := client s; world := elapse ms (world s) |}).

Definition clientMissing : M bool := fun s => (Normal (negb (client s)), [], s).

Notation "'let*' x ':=' m 'in' f" := (bind m (fun x => f))
  (at level 10, x name, m at level 100, f at level 200).
Notation "m ';;' f" := (bind m (fun _ => f))
  (at level 100, f at level 200, right associativity).

(** *** [getGroupsStatistics] *)

(** The block that sets [participantsCount], for an entity of class [Chat]
    or [Channel]; the variable starts at 0. *)
Definition countParticipants (entity : DialogEntity) : M Z :=
  try_catch
    (if String.eqb (className (fields entity)) "Chat"
        || String.eqb (className (fields entity)) "Channel"
     then
       match declaredCount entity with
       | Some (Zpos _ as count) | Some (Zneg _ as count) => ret count
       | _ =>
           try_catch
             (let* participants := call (getParticipants entity) in
              ret (Z.of_nat (length participants)))
             (fun participantsError =>
                logger LevelWarn
                  ("Failed to get exact participants count for "
                     +:+ getEntityTitle (fields entity)) ;;
                ret 0%Z)
       end
     else ret 0%Z)
    (fun error =>
       logger LevelWarn
         ("Failed to get participants for " +:+ getEntityTitle (fields entity)
            +:+ ": " +:+ show_property (message error)) ;;
       ret 0%Z).

(** [for (const dialog of dialogs) { ... }], from the dialogs left and the
    array [groupsStats] so far. *)
Fixpoint dialogs_loop (dialogs : list Dialog) (groupsStats : list GroupStats.t)
  : M (list GroupStats.t) :=
  match dialogs with
  | [] => ret groupsStats
  | dialog :: rest =>
      if isGroup dialog || isChannel dialog then
        match entity dialog with
        | None => dialogs_loop rest groupsStats
        | Some entity =>
            if String.eqb (className (fields entity)) "User"
               || String.eqb (className (fields entity)) "UserEmpty"
            then dialogs_loop rest groupsStats
            else if negb (String.eqb (className (fields entity)) "Chat")
                    && negb (String.eqb (className (fields entity)) "Channel")
            then dialogs_loop rest groupsStats
            else
              let* participantsCount := countParticipants entity in
              dialogs_loop rest
                (groupsStats
                   ++ [ {| GroupStats.id :=
                             of_Z (match dialogId dialog with
                                   | Some dialog_id => dialog_id
                                   | None => id (fields entity)
                                   end);
                           GroupStats.title := getEntityTitle (fields entity);
                           GroupStats.username := getEntityUsername (fields entity);
                           GroupStats.type := className (fields entity);
                           GroupStats.participantsCount := participantsCount;
                           GroupStats.messagesCount24h := 0 |} ])
        end
      else dialogs_loop rest groupsStats
  end.

Definition getGroupsStatistics : M (list GroupStats.t) :=
  let* missing := clientMissing in
  if missing : bool then throw MessagingService.notInitialized
  else
    try_catch
      (let* dialogs := call getDialogs in
       dialogs_loop dialogs [])
      (fun error =>
         logger LevelError
           ("Failed to get groups statistics: " +:+ show_property (message error)) ;;
         throw error).

(** *** [leaveChats] *)

(** The body of the loop, for one [chatId]. *)
Definition leave_chat (chatId : string) : M unit :=
  try_catch
    (let* entity := call (getEntity chatId) in
     (if String.eqb (className entity) "Channel" then
        emit (Invoked (LeaveChannel entity)) ;;
        call (invoke (LeaveChannel entity)) ;;
        logger LevelLog
          ("✅ Left channel: " +:+ getEntityTitle entity +:+ " (" +:+ chatId +:+ ")")
      else if String.eqb (className entity) "Chat" then
        let* me := call getMe in
        emit (Invoked (DeleteChatUser (id entity) (id me))) ;;
        call (invoke (DeleteChatUser (id entity) (id me))) ;;
        logger LevelLog
          ("✅ Left group: " +:+ getEntityTitle entity +:+ " (" +:+ chatId +:+ ")")
      else ret tt) ;;
     sleep 1000)
    (fun error =>
       logger LevelError
         ("❌ Failed to leave chat " +:+ chatId +:+ ": "
            +:+ show_property (message error))).

Fixpoint leave_loop (chatIds : list string) : M unit :=
  match chatIds with
  | [] => ret tt
  | chatId :: rest => leave_chat chatId ;; leave_loop rest
  end.

Definition leaveChats (chatIds : list string) : M unit :=
  let* missing := clientMissing in
  if missing : bool then throw MessagingService.notInitialized
  else
    logger LevelLog
      ("Starting to leave " +:+ of_nat (length chatIds) +:+ " chats...") ;;
    leave_loop chatIds ;;
    logger LevelLog "Finished leaving chats".

End WithClient.

(** What a trace of the service holds. *)
Definition requests (tr : list Event) : list Request :=
  flat_map (fun ev => match ev with Invoked request => [request] | _ => [] end) tr.

Definition slept (tr : list Event) : list Z :=
  flat_map (fun ev => match ev with Slept ms => [ms] | _ => [] end) tr.

Definition logged (level : Level) (tr : list Event) : list string :=
  flat_map (fun ev => match ev, level with
                      | Logged LevelLog text, LevelLog
                      | Logged LevelWarn text, LevelWarn
                      | Logged LevelError text, LevelError => [text]
                      | _, _ => []
                      end) tr.

(** A trace that holds warnings only. *)
Definition warnings_only (tr : list Event) : Prop :=
  tr = map (Logged LevelWarn) (logged LevelWarn tr).

Definition no_members (entry : GroupStats.t) : bool :=
  (GroupStats.participantsCount entry =? 0)%Z.

(** What [leaveChats] may ask for: to leave a channel, only of an entity of
    class [Channel]. *)
Definition well_aimed (request : Request) : Prop :=
  match request with
  | LeaveChannel channel => className channel = "Channel"
  | DeleteChatUser _ _ => True
  end.

(** The dialogs [getGroupsStatistics] keeps. *)
Definition kept (dialog : Dialog) : bool :=
  (isGroup dialog || isChannel dialog)
  && match entity dialog with
     | Some entity =>
         String.eqb (className (fields entity)) "Chat"
         || String.eqb (className (fields entity)) "Channel"
     | None => false
     end.

(** The entry a kept dialog gives, but for the member count. *)
Definition entry_of (dialog : Dialog) (entry : GroupStats.t) : Prop :=
  match entity dialog with
  | Some entity =>
      GroupStats.id entry
      = of_Z (match dialogId dialog with
              | Some dialog_id => dialog_id
              | None => id (fields entity)
              end)
      /\ GroupStats.title entry = getEntityTitle (fields entity)
      /\ GroupStats.username entry = getEntityUsername (fields entity)
      /\ GroupStats.type entry = className (fields entity)
      /\ GroupStats.messagesCount24h entry = 0%Z
      /\ match declaredCount entity with
         | Some count =>
             if (count =? 0)%Z then (0 <= GroupStats.participantsCount entry)%Z
             else GroupStats.participantsCount entry = count
         | None => (0 <= GroupStats.participantsCount entry)%Z
         end
  | None => False
  end.

End TelegramService.

(** A scripted account: the chats it can resolve, its dialogs, and the
    requests it has answered; member lists are refused. *)
Module Account.

Import TelegramService.

Record World : Type := mkWorld {
  known : list (string * Entity);
  dialogs : list Dialog;
  answered : list Request
}.

Definition refused : JsError :=
  {| message := Some "CHAT_ADMIN_REQUIRED";
     toStr := "RPCError: CHAT_ADMIN_REQUIRED" |}.

#[export] Instance scripted : AccountClient World := {
  getDialogs w := (Normal (dialogs w), w);
  getParticipants e w := (Throw refused, w);
  getEntity chat w :=
    match Script.lookup_entity (known w) chat with
    | Some e => (Normal e, w)
    | None => (Throw (Script.notFound chat), w)
    end;
  getMe w :=
    (Normal {| username := Some "me"; className := "User"; id := 7;
               title := None; firstName := Some "Me" |}, w);
  invoke request w :=
    (Normal tt, {| known := known w; dialogs := dialogs w;
                   answered := answered w ++ [request] |});
  elapse ms w := w
}.

Definition group (n : Z) (name : string) : Entity :=
  {| username := None; className := "Chat"; id := n;
     title := Some name; firstName := None |}.

Definition person (n : Z) (name : string) : Entity :=
  {| username := Some name; className := "User"; id := n;
     title := None; firstName := Some name |}.

(** A channel, a group and a person; the dialog of the person and a dialog
    without entity are in the list too. *)
Definition home : World :=
  {| known := [ ("-1001", Script.channel (-1001) "one");
                ("-2002", group 2002 "two");
                ("3003", person 3003 "three") ];
     dialogs := [ mkDialog false true
                    (Some (mkDialogEntity (Script.channel (-1001) "one") (Some 1500%Z)))
                    (Some (-1001)%Z);
                  mkDialog false false
                    (Some (mkDialogEntity (person 3003 "three") None)) (Some 3003%Z);
                  mkDialog true false None None;
                  mkDialog true false
                    (Some (mkDialogEntity (group 2002 "two") None)) None ];
     answered := [] |}.

Definition ready (w : World) : TelegramService.State :=
  {| TelegramService.client := true; TelegramService.world := w |}.

End Account.

(** ** Destination tokens *)

Module Token.

Fixpoint every (p : ascii -> bool) (s : string) : bool :=
  match s with
  | EmptyString => true
  | String c t => p c && every p t
  end.

Definition not_comma (c : ascii) : bool := negb (Ascii.eqb c ","%char).

(** The separator between two destinations: a comma, with a space after it
    or not. *)
Definition separator (spaced : bool) : string :=
  if spaced then ", " else ",".

(** A text whose first bytes are no white space. *)
Definition clean_head (s : string) : Prop :=
  match s with
  | EmptyString => True
  | String c1 t1 =>
      ws1 c1 = false
      /\ match t1 with
         | EmptyString => True
         | String c2 t2 =>
             ws2 c1 c2 = false
             /\ match t2 with
                | EmptyString => True
                | String c3 _ => ws3 c1 c2 c3 = false
                end
         end
  end.

(** The same for a text read backwards. *)
Definition clean_head_rev (s : string) : Prop :=
  match s with
  | EmptyString => True
  | String c1 t1 =>
      ws1 c1 = false
      /\ match t1 with
         | EmptyString => True
         | String c2 t2 =>
             ws2 c2 c1 = false
             /\ match t2 with
                | EmptyString => True
                | String c3 _ => ws3 c3 c2 c1 = false
                end
         end
  end.

End Token.

(** ** The shape of a run

    What a round emits, as relations between the variables before, the
    trace and the variables after.  [for_loop], [after_loop] and [round] are
    shown below to run this way; the properties of rounds are then proved by
    induction on these relations. *)

Module Shape.

Import MessagingService Trace.

(** The counters after an attempt that returned [result]. *)
Definition tally_round (result : SendResult) (rnd : Round) : Round :=
  match result with
  | ResTrue =>
      {| roundSuccessCount := roundSuccessCount rnd + 1;
         roundFailCount := roundFailCount rnd;
         roundFloodWaitCount := roundFloodWaitCount rnd;
         roundStopped := roundStopped rnd |}
  | ResFalse =>
      {| roundSuccessCount := roundSuccessCount rnd;
         roundFailCount := roundFailCount rnd + 1;
         roundFloodWaitCount := roundFloodWaitCount rnd;
         roundStopped := roundStopped rnd |}
  | ResFloodWait =>
      {| roundSuccessCount := roundSuccessCount rnd;
         roundFailCount := roundFailCount rnd;
         roundFloodWaitCount := roundFloodWaitCount rnd + 1;
         roundStopped := true |}
  end.

Definition tally_total (result : SendResult) (tot : Totals) : Totals :=
  match result with
  | ResTrue =>
      {| totalSuccessCount := totalSuccessCount tot + 1;
         totalFailCount := totalFailCount tot;
         totalFloodWaitCount := totalFloodWaitCount tot;
         roundNumber := roundNumber tot |}
  | ResFalse =>
      {| totalSuccessCount := totalSuccessCount tot;
         totalFailCount := totalFailCount tot + 1;
         totalFloodWaitCount := totalFloodWaitCount tot;
         roundNumber := roundNumber tot |}
  | ResFloodWait =>
      {| totalSuccessCount := totalSuccessCount tot;
         totalFailCount := totalFailCount tot;
         totalFloodWaitCount := totalFloodWaitCount tot + 1;
         roundNumber := roundNumber tot |}
  end.

Definition next_round (tot : Totals) : Totals :=
  {| totalSuccessCount := totalSuccessCount tot;
     totalFailCount := totalFailCount tot;
     totalFloodWaitCount := totalFloodWaitCount tot;
     roundNumber := roundNumber tot + 1 |}.

(** The reports of the round loop in a trace: started, paused, completed. *)
Definition round_reports (tr : list Event) : list Report :=
  flat_map (fun ev => match ev with
                      | EvAudit r => if is_delivery_report r then [] else [r]
                      | _ => []
                      end) tr.

(** The attempts of one round over [chatIds]: the first destinations, in
    order and from index 0; all of them when no attempt is rate limited,
    and none after an attempt that is. *)
Definition attempts_of_round (chatIds : list string)
  (atts : list (nat * string * SendResult)) : Prop :=
  map fst atts = firstn (length atts) (indexed chatIds)
  /\ (length atts <= length chatIds)%nat
  /\ (chatIds <> [] -> (1 <= length atts)%nat)
  /\ (forallb (fun a => negb (is_flood a)) atts = true ->
      length atts = length chatIds)
  /\ (forall k a, atts !! k = Some a -> is_flood a = true ->
      length atts = (k + 1)%nat).

Section Shapes.

Variables (chatIds : list string) (intervalSeconds : JsNumber).

(** The delay after the attempt at index [i]. *)
Definition waiting (i : nat) : list Event :=
  if (Z.of_nat i <? Z.of_nat (length chatIds) - 1)%Z then
    [ EvLogger LevelLog
        ("⏳ Waiting " +:+ Num.to_string intervalSeconds
           +:+ " seconds before next message...");
      EvSleep BetweenMessages (Num.mul intervalSeconds 1000) ]
  else [].

(** The [for] loop from index [i] on the destinations [rest]. *)
Inductive loop_run
  : list string -> nat -> Totals -> Round -> list Event -> Totals -> Round -> Prop :=
| loop_end i tot rnd :
    loop_run [] i tot rnd [] tot rnd
| loop_pause chatId rest i tot rnd progress delivery time l :
    is_logger progress = true ->
    forallb is_delivery_event delivery = true ->
    forallb is_logger l = true ->
    loop_run (chatId :: rest) i tot rnd
      (progress :: delivery
         ++ EvAttempt i chatId ResFloodWait
         :: EvLogger LevelWarn "🚫 FloodWait detected! Pausing current round..."
         :: EvAudit (RoundPaused time (roundNumber tot) (i + 1) (length chatIds)
                       (roundSuccessCount rnd) (roundFailCount rnd))
         :: l)
      (tally_total ResFloodWait tot) (tally_round ResFloodWait rnd)
| loop_continue chatId rest i tot rnd progress delivery result tr tot' rnd' :
    result <> ResFloodWait ->
    is_logger progress = true ->
    forallb is_delivery_event delivery = true ->
    loop_run rest (i + 1) (tally_total result tot) (tally_round result rnd)
      tr tot' rnd' ->
    loop_run (chatId :: rest) i tot rnd
      (progress :: delivery ++ EvAttempt i chatId result :: waiting i ++ tr)
      tot' rnd'.

(** The report and the delay that close a round that was not stopped. *)
Inductive completion_run (tot : Totals) (rnd : Round) : list Event -> Prop :=
| completion_skipped :
    roundStopped rnd = true ->
    completion_run tot rnd []
| completion_reported time l :
    roundStopped rnd = false ->
    forallb is_logger l = true ->
    completion_run tot rnd
      (EvAudit (RoundCompleted time (roundNumber tot) (roundSuccessCount rnd)
                  (roundFailCount rnd) (totalSuccessCount tot)
                  (totalFailCount tot) (totalFloodWaitCount tot) intervalSeconds)
         :: l ++ [EvSleep BetweenRounds (Num.mul intervalSeconds 1000)]).

(** The guarded extra delay at the end of the body of [while (true)]. *)
Definition cooldown (rnd : Round) : list Event :=
  if (0 <? roundFloodWaitCount rnd)%Z && negb (roundStopped rnd) then
    [ EvLogger LevelWarn
        "⚠️ FloodWait detected but round completed. Adding extra delay...";
      EvSleep ExtraCooldown (JNum (300 * 1000)) ]
  else [].

(** What follows the [for] loop. *)
Inductive after_run (tot : Totals) (rnd : Round) : list Event -> Totals -> Prop :=
| after_run_intro done :
    completion_run tot rnd done ->
    after_run tot rnd (done ++ cooldown rnd) (next_round tot).

(** One pass through the body of [while (true)]. *)
Inductive round_run (tot : Totals) : list Event -> Totals -> Prop :=
| round_run_intro time l loop_tr tot1 rnd after_tr tot2 :
    forallb is_logger l = true ->
    loop_run chatIds 0 tot newRound loop_tr tot1 rnd ->
    after_run tot1 rnd after_tr tot2 ->
    round_run tot
      (EvAudit (RoundStarted time (roundNumber tot) (length chatIds)
                  (totalSuccessCount tot) (totalFailCount tot)
                  (totalFloodWaitCount tot))
         :: l ++ loop_tr ++ after_tr)
      tot2.

(** Consecutive passes, with the trace of each. *)
Inductive rounds_run : Totals -> list (list Event) -> Totals -> Prop :=
| rounds_none tot :
    rounds_run tot [] tot
| rounds_more tot tr tot1 trs tot2 :
    round_run tot tr tot1 ->
    rounds_run tot1 trs tot2 ->
    rounds_run tot (tr :: trs) tot2.

End Shapes.

End Shape.

(** ** The calls of the delivery unit

    What the specification calls the delivery attempts of a round: the
    calls of [sendMessageWithLogging], one for each destination in order,
    each made in the state the one before has left (after the delay between
    messages, when a destination follows), and none after the first that
    returns the rate-limit outcome. *)

Module Calls.

Import MessagingService.

Section WithClient.

Context {T : Type} `{TelegramClient T}.

Variables (chatIds : list string) (text logChatId : string)
          (intervalSeconds : JsNumber).

(** The calls for the destinations [rest], the first of index [i], from
    the state [s]: index, destination and what the call returned. *)
Fixpoint deliveries (rest : list string) (i : nat) (s : State (T := T))
  : list (nat * string * SendResult) :=
  match rest with
  | [] => []
  | chatId :: rest' =>
      match sendMessageWithLogging chatId text logChatId s with
      | (Normal result, _, s') =>
          (i, chatId, result)
            :: match result with
               | ResFloodWait => []
               | _ =>
                   deliveries rest' (i + 1)
                     (match rest' with
                      | [] => s'
                      | _ :: _ =>
                          snd (sleep BetweenMessages
                                 (Num.mul intervalSeconds 1000) s')
                      end)
               end
      | (Throw _, _, _) => []
      end
  end.

(** The state in which a round reaches its first destination: the one its
    start report has left. *)
Definition entered (tot : Totals) (s : State (T := T)) : State (T := T) :=
  snd (sendLogMessage logChatId
         (RoundStarted (toLocaleString false (world s)) (roundNumber tot)
            (length chatIds) (totalSuccessCount tot) (totalFailCount tot)
            (totalFloodWaitCount tot)) s).

(** The calls of the round that starts in [s] with the totals [tot]. *)
Definition round_deliveries (tot : Totals) (s : State (T := T))
  : list (nat * string * SendResult) :=
  deliveries chatIds 0 (entered tot s).

End WithClient.

End Calls.

(** * Properties *)

Import MessagingService Classifier.

(** ** Digits and [parseInt] *)

Section Digits.

Lemma is_digit_range c :
  is_digit c = true -> (48 <= code c <= 57)%N.
Proof.
  unfold is_digit. rewrite andb_true_iff, !N.leb_le. tauto.
Qed.

Lemma digit_not_ws1 c : is_digit c = true -> ws1 c = false.
Proof.
  intros Hd. apply is_digit_range in Hd. unfold ws1.
  apply orb_false_iff. split.
  - apply andb_false_iff. right. apply N.leb_gt. lia.
  - apply N.eqb_neq. lia.
Qed.

Lemma digit_not_ws2 c c' : is_digit c = true -> ws2 c c' = false.
Proof.
  intros Hd. apply is_digit_range in Hd. unfold ws2.
  apply andb_false_iff. left. apply N.eqb_neq. lia.
Qed.

Lemma digit_not_ws3 c c' c'' : is_digit c = true -> ws3 c c' c'' = false.
Proof.
  intros Hd. apply is_digit_range in Hd. unfold ws3.
  assert (H1 : (code c =? 225)%N = false) by (apply N.eqb_neq; lia).
  assert (H2 : (code c =? 226)%N = false) by (apply N.eqb_neq; lia).
  assert (H3 : (code c =? 227)%N = false) by (apply N.eqb_neq; lia).
  assert (H4 : (code c =? 239)%N = false) by (apply N.eqb_neq; lia).
  rewrite H1, H2, H3, H4. reflexivity.
Qed.

Lemma trimStart_digit c t :
  is_digit c = true -> trimStart (String c t) = String c t.
Proof.
  intros Hd. cbn [trimStart]. rewrite (digit_not_ws1 _ Hd).
  destruct t as [|c2 t2]; [reflexivity|].
  rewrite (digit_not_ws2 _ c2 Hd).
  destruct t2 as [|c3 t3]; [reflexivity|].
  now rewrite (digit_not_ws3 _ c2 c3 Hd).
Qed.

Lemma digit_neq c (k : ascii) :
  is_digit c = true -> is_digit k = false -> Ascii.eqb c k = false.
Proof.
  intros Hd Hk. destruct (Ascii.eqb_spec c k) as [->|]; congruence.
Qed.

Lemma digit_value_digit c :
  is_digit c = true -> Num.digit_value 10 c = Some (Z.of_N (code c) - 48)%Z.
Proof.
  intros Hd. apply is_digit_range in Hd. unfold Num.digit_value.
  destruct (Z.leb_spec 48 (Z.of_N (code c))); [|lia].
  destruct (Z.leb_spec (Z.of_N (code c)) 57); [|lia].
  reflexivity.
Qed.

Lemma read_take_digits s : forall a,
  Num.read_digits 10 (Some a) (take_digits s) = Some (digits_value a s).
Proof.
  induction s as [|c t IH]; intros a; [reflexivity|].
  cbn [take_digits digits_value]. destruct (is_digit c) eqn:Hd.
  - cbn [Num.read_digits]. rewrite (digit_value_digit _ Hd). apply IH.
  - reflexivity.
Qed.

Lemma digits_value_nonneg s : forall acc, (0 <= acc)%Z -> (0 <= digits_value acc s)%Z.
Proof.
  induction s as [|c t IH]; intros acc Hacc; [exact Hacc|].
  cbn [digits_value]. destruct (is_digit c) eqn:Hd; [|exact Hacc].
  apply IH. apply is_digit_range in Hd. lia.
Qed.

Lemma first_integer_nonneg s : forall n, first_integer s = Some n -> (0 <= n)%Z.
Proof.
  induction s as [|c t IH]; intros n; [discriminate|].
  cbn [first_integer]. destruct (is_digit c); [|apply IH].
  intros [= <-]. apply (digits_value_nonneg (String c t)). lia.
Qed.

(** The Number value for an integer below 2^53 in magnitude is the
    integer. *)
Lemma double_exact z : (Z.abs z < 2 ^ 53)%Z -> Num.double z = JNum z.
Proof.
  intros Hz. unfold Num.double. cbv zeta.
  destruct (Z.ltb_spec (Z.abs z) (2 ^ 53)); [reflexivity|lia].
Qed.

(** It has the sign of the integer, and is never [NaN]. *)
Lemma double_cases z :
  (exists v, Num.double z = JNum v /\ (0 < v <-> 0 < z)%Z /\ (v < 0 <-> z < 0)%Z)
  \/ (Num.double z = JInf (z <? 0)%Z /\ z <> 0%Z).
Proof.
  unfold Num.double. cbv zeta.
  destruct (Z.ltb_spec (Z.abs z) (2 ^ 53)) as [Hsmall|Hbig].
  { left. exists z. split; [reflexivity|]. split; reflexivity. }
  set (a := Z.abs z) in *.
  set (e := (Z.log2 a - 52)%Z).
  set (q := Z.shiftr a e).
  set (q' := if (Z.land a (Z.ones e) <? Z.shiftl 1 (e - 1))%Z then q
             else if (Z.shiftl 1 (e - 1) <? Z.land a (Z.ones e))%Z then (q + 1)%Z
             else if Z.even q then q else (q + 1)%Z).
  assert (Ha : (0 < a)%Z) by (assert (0 < 2 ^ 53)%Z by reflexivity; lia).
  assert (He : (0 <= e)%Z).
  { subst e. assert (53 <= Z.log2 a)%Z; [|lia].
    apply Z.log2_le_pow2; [exact Ha|exact Hbig]. }
  assert (Hq : (0 < q)%Z).
  { subst q. rewrite Z.shiftr_div_pow2 by exact He.
    apply Z.div_str_pos. split; [apply Z.pow_pos_nonneg; lia|].
    transitivity (2 ^ Z.log2 a)%Z.
    - apply Z.pow_le_mono_r; lia.
    - now apply Z.log2_spec. }
  assert (Hq' : (0 < q')%Z).
  { subst q'. repeat match goal with |- context [if ?b then _ else _] => destruct b end; lia. }
  assert (Hv : (0 < Z.shiftl q' e)%Z).
  { rewrite Z.shiftl_mul_pow2 by exact He.
    apply Z.mul_pos_pos; [exact Hq'|apply Z.pow_pos_nonneg; lia]. }
  destruct (2 ^ 1024 <=? Z.shiftl q' e)%Z.
  - right. split; [reflexivity|]. subst a. lia.
  - left. eexists. split; [reflexivity|].
    subst a. destruct z; cbn [Z.sgn]; lia.
Qed.

Lemma gt0_double z : Num.gt0 (Num.double z) = (0 <? z)%Z.
Proof.
  destruct (double_cases z) as [(v & -> & Hpos & _) | [-> Hz]]; cbn [Num.gt0].
  - destruct (Z.ltb_spec 0 v), (Z.ltb_spec 0 z); try reflexivity; lia.
  - destruct (Z.ltb_spec z 0), (Z.ltb_spec 0 z); try reflexivity; lia.
Qed.

(** [parseInt] of a run of digits is the Number value for its decimal
    value: no white space, no sign and no [0x] can be read from it. *)
Lemma parseInt_take_digits c t :
  is_digit c = true ->
  Num.parseInt (take_digits (String c t)) = Num.double (digits_value 0 (String c t)).
Proof.
  intros Hd. cbn [take_digits digits_value]. rewrite Hd.
  unfold Num.parseInt. rewrite (trimStart_digit _ _ Hd).
  rewrite (digit_neq c "-"%char Hd eq_refl), (digit_neq c "+"%char Hd eq_refl).
  assert (Hhex : match String c (take_digits t) with
                 | String c1 (String c2 t') =>
                     if (Ascii.eqb c1 "0"%char
                         && (Ascii.eqb c2 "x"%char || Ascii.eqb c2 "X"%char))%bool
                     then (16%Z, t') else (10%Z, String c (take_digits t))
                 | _ => (10%Z, String c (take_digits t))
                 end = (10%Z, String c (take_digits t))).
  { destruct t as [|c2 t2]; [reflexivity|]. cbn [take_digits].
    destruct (is_digit c2) eqn:Hd2; [|reflexivity].
    rewrite (digit_neq c2 "x"%char Hd2 eq_refl), (digit_neq c2 "X"%char Hd2 eq_refl).
    now rewrite andb_false_r. }
  rewrite Hhex. cbn [Num.read_digits]. rewrite (digit_value_digit _ Hd).
  rewrite read_take_digits. f_equal.
  now rewrite Z.mul_1_l.
Qed.

(** The wait the program reads from a text is the Number value for its
    first integer, or 300. *)
Lemma wait_from_text s :
  match match_digits s with
  | Some group1 => Num.parseInt group1
  | None => JNum 300
  end = Num.double (match first_integer s with Some n => n | None => 300%Z end).
Proof.
  induction s as [|c t IH]; [reflexivity|].
  cbn [match_digits first_integer]. destruct (is_digit c) eqn:Hd.
  - now apply parseInt_take_digits.
  - exact IH.
Qed.

End Digits.

(** ** The error classifier *)

Lemma startsWith_app p s : startsWith (p +:+ s) p = true.
Proof.
  induction p as [|a p IH]; [reflexivity|].
  change (String a p +:+ s) with (String a (p +:+ s)).
  cbn [startsWith]. now rewrite Ascii.eqb_refl, IH.
Qed.

Lemma kind_of_unknown text w :
  kind_of {| description := "Unknown error: " +:+ text;
             action := "Skip this chat and continue with others";
             waitTime := w |} = Some KindUnknown.
Proof.
  unfold kind_of. cbn [action description String.eqb].
  cbn -[startsWith]. now rewrite startsWith_app.
Qed.

(** The kind and the wait of what [analyzeError] returns. *)
Lemma analyzeError_kind (error : JsError) :
  kind_of (analyzeError error) = Some (kind (classify_spec (errorMessageOf error)))
  /\ waitTime (analyzeError error)
     = match classify_spec (errorMessageOf error) with
       | RateLimited n => Num.double n
       | _ => JNum 0
       end.
Proof.
  unfold analyzeError, classify_spec, contains_any. cbn [existsb].
  set (m := errorMessageOf error).
  rewrite !orb_false_r.
  rewrite (orb_comm (includes m "Too Many Requests")).
  destruct (includes m "FLOOD_WAIT" || includes m "Too Many Requests").
  { cbv zeta. cbn [waitTime kind]. split; [reflexivity|apply wait_from_text]. }
  destruct (includes m "CHAT_WRITE_FORBIDDEN" || includes m "write access");
    [split; reflexivity|].
  destruct (includes m "USER_BANNED_IN_CHANNEL" || includes m "banned");
    [split; reflexivity|].
  destruct (includes m "CHANNEL_PRIVATE" || includes m "private");
    [split; reflexivity|].
  destruct (includes m "CHAT_ADMIN_REQUIRED" || includes m "admin");
    [split; reflexivity|].
  destruct (includes m "PEER_ID_INVALID" || includes m "Could not find");
    [split; reflexivity|].
  split; [apply kind_of_unknown|reflexivity].
Qed.

(** C2, as stated, fails twice.  The markers are the program's own
    spellings and are matched case-sensitively, so a text that holds the
    marker as the specification quotes it is an unknown error; and the wait
    is the double nearest to the first integer, which is another integer
    from 2^53 on. *)
Lemma analyzeError_counterexample :
  let quoted := {| message := Some "too many requests"; toStr := "" |} in
  let long := {| message := Some "FLOOD_WAIT_9007199254740993"; toStr := "" |} in
  includes (errorMessageOf quoted) quoted_marker = true
  /\ outcome_of (analyzeError quoted) = Some Unknown
  /\ first_integer (errorMessageOf long) = Some 9007199254740993%Z
  /\ outcome_of (analyzeError long) = Some (RateLimited 9007199254740992)
  /\ outcome_of (analyzeError long) <> Some (classify_spec (errorMessageOf long)).
Proof. vm_compute. repeat split; discriminate. Qed.

(** C2, amended. [analyzeError] classifies the text of an error
    ([error.message], or [error.toString()] when there is none) by the
    markers the program spells ([FLOOD_WAIT] or [Too Many Requests], then
    those of write forbidden, banned, private, admin required and peer not
    found), looked for as case-sensitive substrings in this order, the
    first marker found deciding; a text with no marker is an unknown
    error.  The wait of a rate limit is the double nearest to the first
    integer of the text, or 300 when the text holds no digit, and 0 for
    every other kind; so when that integer is below 2^53 the outcome is
    the one of the classifier, wait included. *)
Theorem analyzeError_classifies (error : JsError) :
  let text := errorMessageOf error in
  kind_of (analyzeError error) = Some (kind (classify_spec text))
  /\ waitTime (analyzeError error)
     = match classify_spec text with
       | RateLimited n => Num.double n
       | _ => JNum 0
       end
  /\ (match first_integer text with Some n => exact n | None => True end ->
      outcome_of (analyzeError error) = Some (classify_spec text)).
Proof.
  cbv zeta. destruct (analyzeError_kind error) as [Hkind Hwait].
  split; [exact Hkind|]. split; [exact Hwait|].
  intros Hexact. unfold outcome_of. rewrite Hkind, Hwait.
  unfold classify_spec in *.
  destruct (contains_any (errorMessageOf error) ["Too Many Requests"; "FLOOD_WAIT"]).
  - cbn [kind]. rewrite double_exact; [reflexivity|].
    destruct (first_integer (errorMessageOf error)) as [n|] eqn:Hn.
    + apply first_integer_nonneg in Hn. unfold exact in Hexact. lia.
    + reflexivity.
  - repeat match goal with
           | |- context [if ?b then _ else _] => destruct b
           end; reflexivity.
Qed.

Lemma analyzeError_classifies_witness :
  outcome_of (analyzeError {| message := Some "FLOOD_WAIT_120"; toStr := "" |})
  = Some (RateLimited 120).
Proof.
  apply (proj2 (proj2 (analyzeError_classifies
                         {| message := Some "FLOOD_WAIT_120"; toStr := "" |}))).
  vm_compute. reflexivity.
Defined.

Example classify_flood_120 :
  analyzeError {| message := Some "FLOOD_WAIT_120"; toStr := "FloodWaitError" |}
  = {| description := "Flood control activated, need to wait 120 seconds";
       action := "Will pause bulk sending until flood control expires";
       waitTime := JNum 120 |}.
Proof. vm_compute. reflexivity. Qed.

Example classify_flood_default :
  waitTime (analyzeError {| message := Some "Too Many Requests"; toStr := "" |})
  = JNum 300.
Proof. vm_compute. reflexivity. Qed.

(** A wait too long for a double is an infinity, and is printed so. *)
Example classify_flood_endless :
  let nines := "99999999999999999999999999999999999999999999999999" in
  let text := "FLOOD_WAIT_" +:+ nines +:+ nines +:+ nines +:+ nines +:+ nines
                +:+ nines +:+ nines in
  analyzeError {| message := Some text; toStr := "" |}
  = {| description := "Flood control activated, need to wait Infinity seconds";
       action := "Will pause bulk sending until flood control expires";
       waitTime := JInf false |}.
Proof. vm_compute. reflexivity. Qed.

Example classify_precedence :
  classify_spec "CHAT_WRITE_FORBIDDEN: banned by admin" = TransientSkip
  /\ classify_spec "banned from private channel" = PermanentSkip
  /\ classify_spec "FLOOD_WAIT_7 (banned)" = RateLimited 7.
Proof. repeat split; reflexivity. Qed.

(** ** The permalink *)

Section Permalink.

Lemma includes_unfold s needle :
  includes s needle =
  if startsWith s needle then true
  else match s with
       | EmptyString => false
       | String _ t => includes t needle
       end.
Proof. now destruct s. Qed.

Lemma includes_prefix p s : includes (p +:+ s) p = true.
Proof. rewrite includes_unfold. now rewrite startsWith_app. Qed.

Lemma includes_app p s needle :
  includes s needle = true -> includes (p +:+ s) needle = true.
Proof.
  intros Hs. induction p as [|a p IH]; [exact Hs|].
  change (String a p +:+ s) with (String a (p +:+ s)).
  rewrite includes_unfold. rewrite IH. now destruct (startsWith _ _).
Qed.

Lemma uint_digits d :
  take_digits (NilEmpty.string_of_uint d) = NilEmpty.string_of_uint d.
Proof.
  induction d; cbn [NilEmpty.string_of_uint take_digits]; try reflexivity;
    match goal with
    | |- (if is_digit ?c then _ else _) = _ =>
        change (is_digit c) with true; cbv iota; now f_equal
    end.
Qed.

(** The decimal text of an integer: one character, a digit or the sign,
    then digits only. *)
Lemma of_Z_shape z :
  exists c t, of_Z z = String c t /\ take_digits t = t.
Proof.
  unfold of_Z. destruct z as [|p|p]; cbn [Z.to_int NilZero.string_of_int].
  - exists "0"%char, EmptyString. now split.
  - pose proof (uint_digits (Pos.to_uint p)) as Hd.
    unfold NilZero.string_of_uint.
    destruct (Pos.to_uint p) eqn:Hp;
      try (cbn [NilEmpty.string_of_uint take_digits] in *;
           eexists _, _; split; [reflexivity|];
           match type of Hd with
           | (if is_digit ?c then _ else _) = _ =>
               change (is_digit c) with true in Hd; cbv iota in Hd
           end; congruence).
    exists "0"%char, EmptyString. now split.
  - exists "-"%char, (NilZero.string_of_uint (Pos.to_uint p)). split; [reflexivity|].
    unfold NilZero.string_of_uint.
    destruct (Pos.to_uint p) eqn:Hp; try reflexivity; rewrite <- Hp; apply uint_digits.
Qed.

Lemma replace_first_digits s :
  take_digits s = s -> replace_first "-100" "" s = s.
Proof.
  induction s as [|c t IH]; [reflexivity|].
  cbn [take_digits]. destruct (is_digit c) eqn:Hd; [|discriminate].
  intros Ht. injection Ht as Ht.
  cbn [replace_first startsWith].
  destruct (Ascii.eqb_spec "-"%char c) as [<-|_]; [discriminate|].
  cbn [andb]. now rewrite IH.
Qed.

(** On the decimal text of an integer, replacing the first [-100] by
    nothing strips the prefix [-100]: the sign cannot occur further in. *)
Lemma replace_first_of_Z z :
  replace_first "-100" "" (of_Z z) = strip_100 (of_Z z).
Proof.
  destruct (of_Z_shape z) as (c & t & -> & Ht).
  unfold strip_100. cbn [replace_first].
  destruct (startsWith (String c t) "-100"); [reflexivity|].
  now rewrite (replace_first_digits _ Ht).
Qed.

End Permalink.

(** C6. [getPostLink] returns, for an entity with a handle [h] (a [username]
    that is not empty), [https://t.me/<h>/<m>]; for an entity of class
    [Channel] with no handle, [https://t.me/c/<c>/<m>] where [<c>] is the
    decimal text of the entity id with its prefix [-100] stripped; and
    otherwise a text that holds the raw id and the message id.  The three
    examples of the specification come out as it says. *)
Theorem getPostLink_cases (entity : Entity) (messageId : Z) :
  (forall h, username entity = Some h -> h <> "" ->
     getPostLink entity messageId = "https://t.me/" +:+ h +:+ "/" +:+ of_Z messageId)
  /\ (truthy (username entity) = false -> className entity = "Channel" ->
      getPostLink entity messageId =
      "https://t.me/c/" +:+ strip_100 (of_Z (id entity)) +:+ "/" +:+ of_Z messageId)
  /\ (truthy (username entity) = false -> className entity <> "Channel" ->
      getPostLink entity messageId =
      "Private group (ID: " +:+ of_Z (id entity) +:+ ", Message: "
        +:+ of_Z messageId +:+ ")"
      /\ includes (getPostLink entity messageId) (of_Z (id entity)) = true
      /\ includes (getPostLink entity messageId) (of_Z messageId) = true)
  /\ getPostLink (mkEntity (Some "foo") "Channel" (-1001234567890) None None) 42
     = "https://t.me/foo/42"
  /\ getPostLink (mkEntity None "Channel" (-1001234567890) None None) 7
     = "https://t.me/c/1234567890/7"
  /\ getPostLink (mkEntity None "Chat" 555 None None) 3
     = "Private group (ID: 555, Message: 3)".
Proof.
  split; [|split; [|split]].
  - intros h Hu Hh. unfold getPostLink. rewrite Hu. cbn [truthy show_property].
    now destruct h.
  - intros Hu Hc. unfold getPostLink. rewrite Hu, Hc.
    cbn [String.eqb Ascii.eqb Bool.eqb]. now rewrite replace_first_of_Z.
  - intros Hu Hc. unfold getPostLink. rewrite Hu.
    destruct (String.eqb_spec (className entity) "Channel") as [|_]; [contradiction|].
    split; [reflexivity|]. split.
    + apply includes_app. apply includes_prefix.
    + apply includes_app. apply includes_app. apply includes_app.
      apply includes_prefix.
  - repeat split; reflexivity.
Qed.

Lemma getPostLink_cases_witness :
  getPostLink (mkEntity (Some "foo") "User" 9 None None) 42 = "https://t.me/foo/42"
  /\ getPostLink (mkEntity None "Channel" (-1001234567890) None None) 7
     = "https://t.me/c/" +:+ strip_100 "-1001234567890" +:+ "/7"
  /\ includes (getPostLink (mkEntity (Some "") "Chat" 555 None None) 3) "555" = true.
Proof.
  split; [|split].
  - apply (proj1 (getPostLink_cases (mkEntity (Some "foo") "User" 9 None None) 42) "foo");
      [reflexivity | discriminate].
  - apply (proj1 (proj2 (getPostLink_cases
                           (mkEntity None "Channel" (-1001234567890) None None) 7)));
      reflexivity.
  - apply (proj1 (proj2 (proj2 (getPostLink_cases
                                  (mkEntity (Some "") "Chat" 555 None None) 3))));
      [reflexivity | discriminate].
Defined.

(** ** The configured interval *)

Lemma is_numeral_spec v :
  is_numeral v = true -> exists c t, v = String c t /\ is_digit c = true /\ take_digits v = v.
Proof.
  unfold is_numeral. rewrite andb_true_iff. intros [Hne Heq].
  apply String.eqb_eq in Heq. destruct v as [|c t]; [discriminate|].
  exists c, t. split; [reflexivity|]. split; [|exact Heq].
  cbn [take_digits] in Heq. now destruct (is_digit c).
Qed.

(** C9, as stated, fails: a configured interval that is no number is not
    replaced by 90; [parseInt] answers [NaN] and that is the interval. *)
Lemma interval_invalid_counterexample :
  let env : gmap string string := {[ "BULK_INTERVAL_SECONDS" := "abc" ]} in
  env !! "BULK_INTERVAL_SECONDS" = Some "abc"
  /\ is_numeral "abc" = false
  /\ AppService.intervalSeconds env = JNaN
  /\ AppService.intervalSeconds env <> JNum 90.
Proof. vm_compute. repeat split; discriminate. Qed.

(** C9, amended. The interval is 90 when [BULK_INTERVAL_SECONDS] is unset
    or empty; otherwise it is [parseInt] of the configured text: for a
    decimal numeral the double nearest to its value, which is the
    configured value itself when that is below 2^53.  (No default replaces
    a text that [parseInt] cannot read.) *)
Theorem intervalSeconds_cases (env : gmap string string) :
  (env !! "BULK_INTERVAL_SECONDS" = None \/ env !! "BULK_INTERVAL_SECONDS" = Some "" ->
   AppService.intervalSeconds env = JNum 90)
  /\ (forall v, env !! "BULK_INTERVAL_SECONDS" = Some v -> v <> "" ->
      AppService.intervalSeconds env = Num.parseInt v)
  /\ (forall v, env !! "BULK_INTERVAL_SECONDS" = Some v -> is_numeral v = true ->
      AppService.intervalSeconds env = Num.double (digits_value 0 v)
      /\ (exact (digits_value 0 v) ->
          AppService.intervalSeconds env = JNum (digits_value 0 v))).
Proof.
  unfold AppService.intervalSeconds. split; [|split].
  - intros [-> | ->]; vm_compute; reflexivity.
  - intros v -> Hv. now destruct v.
  - intros v -> Hv. destruct (is_numeral_spec _ Hv) as (c & t & -> & Hd & Ht).
    cbn [or_else is_empty].
    assert (Hparse : Num.parseInt (String c t)
                     = Num.double (digits_value 0 (String c t))).
    { rewrite <- Ht at 1. now apply parseInt_take_digits. }
    split; [exact Hparse|]. intros Hexact. rewrite Hparse.
    apply double_exact. unfold exact in Hexact.
    pose proof (digits_value_nonneg (String c t) 0 (Z.le_refl 0)). lia.
Qed.

Lemma intervalSeconds_cases_witness :
  AppService.intervalSeconds ∅ = JNum 90
  /\ AppService.intervalSeconds {[ "BULK_INTERVAL_SECONDS" := " 12s" ]} = Num.parseInt " 12s"
  /\ AppService.intervalSeconds {[ "BULK_INTERVAL_SECONDS" := "45" ]} = JNum 45
  /\ AppService.intervalSeconds {[ "BULK_INTERVAL_SECONDS" := "9007199254740993" ]}
     = Num.double 9007199254740993.
Proof.
  split; [|split; [|split]].
  - apply (proj1 (intervalSeconds_cases ∅)). left. reflexivity.
  - apply (proj1 (proj2 (intervalSeconds_cases {[ "BULK_INTERVAL_SECONDS" := " 12s" ]})));
      [reflexivity | discriminate].
  - destruct (proj2 (proj2 (intervalSeconds_cases
                              {[ "BULK_INTERVAL_SECONDS" := "45" ]})) "45")
      as [_ Hexact]; [vm_compute; reflexivity | reflexivity |].
    apply Hexact. reflexivity.
  - destruct (proj2 (proj2 (intervalSeconds_cases
                              {[ "BULK_INTERVAL_SECONDS" := "9007199254740993" ]}))
                "9007199254740993")
      as [Hnearest _]; [vm_compute; reflexivity | reflexivity |].
    exact Hnearest.
Defined.

(** From 2^53 on a configured value that is no double is rounded to one. *)
Example interval_rounded :
  AppService.intervalSeconds {[ "BULK_INTERVAL_SECONDS" := "9007199254740993" ]}
  = JNum 9007199254740992.
Proof. vm_compute. reflexivity. Qed.

(** ** How the methods run *)

Section Runs.

Context {T : Type} `{TelegramClient T}.

Implicit Types (s : State (T := T)) (tr : list Event).

(** [sendLogMessage] returns normally from every state, whatever the
    client does; it emits the report and at most one error line. *)
Lemma sendLogMessage_run logChatId r s :
  exists l s',
    sendLogMessage logChatId r s = (Normal tt, EvAudit r :: l, s')
    /\ client s' = client s
    /\ (l = [] \/ exists text, l = [EvLogger LevelError text]).
Proof.
  unfold sendLogMessage, bind, try_catch, emit, call, logger, ret.
  destruct (client s) eqn:Hc.
  - destruct (getEntity logChatId (world s)) as [[logEntity|e] w] eqn:Hg.
    + cbn [client world].
      destruct (sendMessage logEntity (render r) w) as [[sent|e] w'] eqn:Hs.
      * eexists _, _. split; [reflexivity|]. split; [cbn; congruence|]. now left.
      * eexists _, _. split; [reflexivity|]. split; [cbn; congruence|].
        right. eexists. reflexivity.
    + eexists _, _. split; [reflexivity|]. split; [cbn; congruence|].
      right. eexists. reflexivity.
  - eexists _, _. split; [reflexivity|]. split; [cbn; congruence|].
    right. eexists. reflexivity.
Qed.

Lemma run_bind {A B} (m : M A) (f : A -> M B) s a tr s1 c tr' s2 :
  m s = (Normal a, tr, s1) ->
  f a s1 = (c, tr', s2) ->
  bind m f s = (c, tr ++ tr', s2).
Proof. intros Hm Hf. unfold bind. now rewrite Hm, Hf. Qed.

Lemma run_try_normal {A} (body : M A) handler s a tr s1 :
  body s = (Normal a, tr, s1) ->
  try_catch body handler s = (Normal a, tr, s1).
Proof. intros Hb. unfold try_catch. now rewrite Hb. Qed.

Lemma run_try_throw {A} (body : M A) handler s e tr s1 c tr' s2 :
  body s = (Throw e, tr, s1) ->
  handler e s1 = (c, tr', s2) ->
  try_catch body handler s = (c, tr ++ tr', s2).
Proof. intros Hb Hh. unfold try_catch. now rewrite Hb, Hh. Qed.

Lemma run_bind_throw {A B} (m : M A) (f : A -> M B) s e tr s1 :
  m s = (Throw e, tr, s1) ->
  bind m f s = (Throw e, tr, s1).
Proof. intros Hm. unfold bind. now rewrite Hm. Qed.

Lemma run_call {A} (op : T -> Completion A * T) s r w :
  client s = true ->
  op (world s) = (r, w) ->
  call op s = (r, [], {| client := true; world := w |}).
Proof. intros Hc Ho. unfold call. now rewrite Hc, Ho. Qed.

Lemma run_logger level text s :
  logger level text s = (Normal tt, [EvLogger level text], s).
Proof. reflexivity. Qed.

(** One step of a run that is known to return. *)
Ltac run_step :=
  eapply run_bind;
  [ first [ eassumption
          | apply run_logger
          | eapply run_call; [eassumption || reflexivity | eassumption]
          | reflexivity ]
  | cbv beta ].

Lemma error_line_loggers l :
  (l = [] \/ exists text, l = [EvLogger LevelError text]) ->
  forallb Trace.is_logger l = true /\ forallb Trace.is_delivery_event l = true.
Proof. intros [-> | [text ->]]; now split. Qed.

Ltac trace_ok :=
  rewrite ?forallb_app;
  cbn [forallb app Trace.is_delivery_event Trace.is_delivery_report
         Trace.is_logger andb];
  repeat match goal with
         | Hx : forallb _ _ = true |- _ => rewrite Hx
         end;
  reflexivity.

Lemma catch_block_run chatId logChatId e s :
  client s = true ->
  exists tr s',
    catch_block chatId logChatId e s
    = (Normal (if Num.gt0 (waitTime (analyzeError e)) then ResFloodWait else ResFalse),
       tr, s')
    /\ client s' = true
    /\ forallb Trace.is_delivery_event tr = true.
Proof.
  intros Hc. unfold catch_block. cbv zeta.
  destruct (sendLogMessage_run logChatId
              (SendFailed (toLocaleString true (world s)) chatId
                 (description (analyzeError e)) (action (analyzeError e))) s)
    as (l & s1 & Hlog & Hc1 & Hl).
  apply error_line_loggers in Hl as [_ Hl].
  destruct (Num.gt0 (waitTime (analyzeError e))) eqn:Hw.
  - eexists _, _. split; [|split].
    + run_step. run_step. run_step. run_step. reflexivity.
    + congruence.
    + trace_ok.
  - eexists _, _. split; [|split].
    + run_step. run_step. run_step. reflexivity.
    + congruence.
    + trace_ok.
Qed.

(** With the client set, [sendMessageWithLogging] returns normally,
    whatever the client does, and emits log lines and delivery reports
    only. *)
Lemma sendMessageWithLogging_run chatId text logChatId s :
  client s = true ->
  exists res tr s',
    sendMessageWithLogging chatId text logChatId s = (Normal res, tr, s')
    /\ client s' = true
    /\ forallb Trace.is_delivery_event tr = true.
Proof.
  intros Hc. unfold sendMessageWithLogging.
  assert (Hm : clientMissing s = (Normal false, [], s))
    by (unfold clientMissing; now rewrite Hc).
  destruct (getEntity chatId (world s)) as [[entity|e] w] eqn:Hg.
  - destruct (sendMessage entity text w) as [[sent|e] w'] eqn:Hs.
    + destruct (sendLogMessage_run logChatId
                  (MessageSent (toLocaleString true w') (getEntityTitle entity)
                     (getPostLink entity (sent_id sent)))
                  {| client := true; world := w' |})
        as (l & s1 & Hlog & Hc1 & Hl).
      apply error_line_loggers in Hl as [_ Hl].
      eexists _, _, _. split; [|split].
      * run_step. eapply run_try_normal. unfold try_block.
        run_step. run_step. run_step. run_step. cbv zeta. run_step. run_step.
        reflexivity.
      * exact Hc1.
      * trace_ok.
    + destruct (catch_block_run chatId logChatId e
                  {| client := true; world := w' |} eq_refl)
        as (tr & s' & Hrun & Hc' & Htr).
      eexists _, _, _. split; [|split]; [|exact Hc'|].
      * run_step. eapply run_try_throw; [|exact Hrun]. unfold try_block.
        run_step. run_step. eapply run_bind_throw.
        eapply run_call; [reflexivity | exact Hs].
      * trace_ok.
  - destruct (catch_block_run chatId logChatId e
                {| client := true; world := w |} eq_refl)
      as (tr & s' & Hrun & Hc' & Htr).
    eexists _, _, _. split; [|split]; [|exact Hc'|].
    + run_step. eapply run_try_throw; [|exact Hrun]. unfold try_block.
      run_step. eapply run_bind_throw.
      eapply run_call; [exact Hc | exact Hg].
    + trace_ok.
Qed.

Lemma regroup_3 (x a b c : Event) l rest :
  x :: (l ++ [a; b; c]) ++ rest = (x :: (l ++ [a; b]) ++ [c]) ++ rest.
Proof. cbn [app]. now rewrite <- !app_assoc. Qed.

Lemma regroup_1 (x a : Event) l rest :
  x :: l ++ a :: rest = x :: (l ++ [a]) ++ rest.
Proof. now rewrite <- app_assoc. Qed.

Section BulkRuns.

Variables (chatIds : list string) (text logChatId : string)
          (intervalSeconds : JsNumber).

Local Abbreviation for_loop := (for_loop chatIds text logChatId intervalSeconds).
Local Abbreviation loop_run := (Shape.loop_run chatIds intervalSeconds).

(** The delay between two messages returns and keeps the client. *)
Lemma waiting_run i s :
  exists s',
    (if (Z.of_nat i <? Z.of_nat (length chatIds) - 1)%Z then
       bind (logger LevelLog
               ("⏳ Waiting " +:+ Num.to_string intervalSeconds
                  +:+ " seconds before next message..."))
         (fun _ => sleep BetweenMessages (Num.mul intervalSeconds 1000))
     else ret tt) s
    = (Normal tt, Shape.waiting chatIds intervalSeconds i, s')
    /\ client s' = client s.
Proof.
  unfold Shape.waiting.
  destruct (Z.of_nat i <? Z.of_nat (length chatIds) - 1)%Z.
  - eexists. split; [reflexivity|reflexivity].
  - eexists. split; reflexivity.
Qed.

(** The [for] loop returns normally and runs as [loop_run] says. *)
Lemma for_loop_sound rest : forall i tot rnd s,
  client s = true ->
  exists tot' rnd' tr s',
    for_loop rest i tot rnd s = (Normal (tot', rnd'), tr, s')
    /\ client s' = true
    /\ loop_run rest i tot rnd tr tot' rnd'.
Proof.
  induction rest as [|chatId rest IH]; intros i tot rnd s Hc.
  - eexists _, _, _, _. split; [reflexivity|]. split; [exact Hc|]. constructor.
  - destruct (sendMessageWithLogging_run chatId text logChatId s Hc)
      as (res & delivery & s1 & Hsend & Hc1 & Hdelivery).
    destruct (waiting_run i s1) as (s2 & Hwait & Hc2).
    rewrite Hc1 in Hc2.
    destruct res.
    + destruct (IH (i + 1) (Shape.tally_total ResTrue tot)
                  (Shape.tally_round ResTrue rnd) s2 Hc2)
        as (tot' & rnd' & tr & s' & Hrun & Hc' & Hloop).
      eexists _, _, _, _. split; [|split]; [|exact Hc'|].
      * cbn [MessagingService.for_loop]. run_step. run_step. run_step.
        cbv iota. run_step. exact Hrun.
      * cbn [app]. eapply Shape.loop_continue; eauto.
    + destruct (IH (i + 1) (Shape.tally_total ResFalse tot)
                  (Shape.tally_round ResFalse rnd) s2 Hc2)
        as (tot' & rnd' & tr & s' & Hrun & Hc' & Hloop).
      eexists _, _, _, _. split; [|split]; [|exact Hc'|].
      * cbn [MessagingService.for_loop]. run_step. run_step. run_step.
        cbv iota. run_step. exact Hrun.
      * cbn [app]. eapply Shape.loop_continue; eauto.
    + destruct (sendLogMessage_run logChatId
                  (RoundPaused (toLocaleString false (world s1)) (roundNumber tot)
                     (i + 1) (length chatIds) (roundSuccessCount rnd)
                     (roundFailCount rnd)) s1)
        as (l & s' & Hlog & Hc' & Hl).
      apply error_line_loggers in Hl as [Hl _].
      eexists _, _, _, _. split; [|split].
      * cbn [MessagingService.for_loop]. run_step. run_step. run_step.
        cbv iota zeta. run_step. run_step.
        cbn [roundNumber roundSuccessCount roundFailCount].
        run_step. reflexivity.
      * congruence.
      * cbn [app]. rewrite app_nil_r.
        eapply Shape.loop_pause; eauto.
Qed.

(** What follows the loop returns normally from every state. *)
Lemma after_loop_sound tot rnd s :
  exists tr s',
    after_loop logChatId intervalSeconds tot rnd s
    = (Normal (Shape.next_round tot), tr, s')
    /\ client s' = client s
    /\ Shape.after_run intervalSeconds tot rnd tr (Shape.next_round tot).
Proof.
  unfold after_loop.
  assert (Hcool : forall s1, exists s2,
            (if (0 <? roundFloodWaitCount rnd)%Z && negb (roundStopped rnd) then
               bind (logger LevelWarn
                       "⚠️ FloodWait detected but round completed. Adding extra delay...")
                 (fun _ => sleep ExtraCooldown (JNum (300 * 1000)))
             else ret tt) s1
            = (Normal tt, Shape.cooldown rnd, s2)
            /\ client s2 = client s1).
  { intros s1. unfold Shape.cooldown.
    destruct ((0 <? roundFloodWaitCount rnd)%Z && negb (roundStopped rnd));
      eexists; split; reflexivity. }
  destruct (roundStopped rnd) eqn:Hstop; cbn [negb].
  - destruct (Hcool s) as (s2 & Hrun & Hc).
    eexists _, _. split; [|split]; [|exact Hc|].
    + run_step. run_step. reflexivity.
    + cbn [app]. rewrite app_nil_r.
      apply (Shape.after_run_intro intervalSeconds tot rnd []).
      now constructor.
  - destruct (sendLogMessage_run logChatId
                (RoundCompleted (toLocaleString false (world s)) (roundNumber tot)
                   (roundSuccessCount rnd) (roundFailCount rnd)
                   (totalSuccessCount tot) (totalFailCount tot)
                   (totalFloodWaitCount tot) intervalSeconds) s)
      as (l & s1 & Hlog & Hc1 & Hl).
    apply error_line_loggers in Hl as [Hl _].
    destruct (Hcool {| client := client s1;
                       world := elapse (Num.mul intervalSeconds 1000) (world s1) |})
      as (s2 & Hrun & Hc).
    cbn [client] in Hc. rewrite Hc1 in Hc.
    eexists _, _. split; [|split]; [|exact Hc|].
    + cbv iota. eapply run_bind.
      { run_step. run_step. run_step. run_step. reflexivity. }
      cbv beta. run_step. reflexivity.
    + cbn [app]. rewrite app_nil_r, regroup_3.
      apply Shape.after_run_intro. constructor; [exact Hstop|].
      rewrite forallb_app, Hl. reflexivity.
Qed.

(** One pass through the body of [while (true)] returns normally and
    runs as [round_run] says. *)
Lemma round_sound tot s :
  client s = true ->
  exists tot' tr s',
    round chatIds text logChatId intervalSeconds tot s = (Normal tot', tr, s')
    /\ client s' = true
    /\ Shape.round_run chatIds intervalSeconds tot tr tot'.
Proof.
  intros Hc. unfold round.
  destruct (sendLogMessage_run logChatId
              (RoundStarted (toLocaleString false (world s)) (roundNumber tot)
                 (length chatIds) (totalSuccessCount tot) (totalFailCount tot)
                 (totalFloodWaitCount tot)) s)
    as (l & s1 & Hlog & Hc1 & Hl).
  rewrite Hc in Hc1. apply error_line_loggers in Hl as [Hl _].
  destruct (for_loop_sound chatIds 0 tot newRound s1 Hc1)
    as (tot1 & rnd & loop_tr & s2 & Hloop & Hc2 & Hshape).
  destruct (after_loop_sound tot1 rnd s2) as (after_tr & s3 & Hafter & Hc3 & Hashape).
  rewrite Hc2 in Hc3.
  eexists _, _, _. split; [|split]; [|exact Hc3|].
  - run_step. run_step. run_step. run_step. exact Hafter.
  - cbn [app fst snd]. rewrite regroup_1.
    econstructor; [|exact Hshape|exact Hashape].
    rewrite forallb_app, Hl. reflexivity.
Qed.

(** Any number of passes returns normally. *)
Lemma rounds_sound n : forall tot s,
  client s = true ->
  exists tot' trs s',
    rounds chatIds text logChatId intervalSeconds n tot s
    = (Normal tot', concat trs, s')
    /\ client s' = true
    /\ length trs = n
    /\ Shape.rounds_run chatIds intervalSeconds tot trs tot'.
Proof.
  induction n as [|n IH]; intros tot s Hc.
  - exists tot, [], s. repeat split; [exact Hc|constructor].
  - destruct (round_sound tot s Hc) as (tot1 & tr & s1 & Hrun & Hc1 & Hshape).
    destruct (IH tot1 s1 Hc1) as (tot2 & trs & s2 & Hruns & Hc2 & Hlen & Hshapes).
    exists tot2, (tr :: trs), s2. split; [|split; [|split]].
    + cbn [rounds concat]. run_step. exact Hruns.
    + exact Hc2.
    + cbn [length]. now rewrite Hlen.
    + econstructor; eauto.
Qed.

End BulkRuns.

End Runs.

(** ** What the relations say about a trace *)

Section TraceFacts.

Import Trace Shape.

Lemma flat_map_unseen {B} (f : Event -> list B) (p : Event -> bool) l tr :
  (forall ev, p ev = true -> f ev = []) ->
  forallb p l = true ->
  flat_map f (l ++ tr) = flat_map f tr.
Proof.
  intros Hp. induction l as [|ev l IH]; [reflexivity|].
  cbn [forallb app flat_map]. rewrite andb_true_iff. intros [Hev Hl].
  now rewrite (Hp _ Hev), IH.
Qed.

Lemma attempts_loggers l tr :
  forallb is_logger l = true -> attempts (l ++ tr) = attempts tr.
Proof. apply flat_map_unseen. now intros []. Qed.

Lemma attempts_delivery l tr :
  forallb is_delivery_event l = true -> attempts (l ++ tr) = attempts tr.
Proof. apply flat_map_unseen. now intros []. Qed.

Lemma sleeps_loggers l tr :
  forallb is_logger l = true -> sleeps (l ++ tr) = sleeps tr.
Proof. apply flat_map_unseen. now intros []. Qed.

Lemma sleeps_delivery l tr :
  forallb is_delivery_event l = true -> sleeps (l ++ tr) = sleeps tr.
Proof. apply flat_map_unseen. now intros []. Qed.

Lemma reports_loggers l tr :
  forallb is_logger l = true -> round_reports (l ++ tr) = round_reports tr.
Proof. apply flat_map_unseen. now intros []. Qed.

Lemma reports_delivery l tr :
  forallb is_delivery_event l = true -> round_reports (l ++ tr) = round_reports tr.
Proof.
  apply flat_map_unseen. intros [| r | |]; cbn; try discriminate; try reflexivity.
  now intros ->.
Qed.

Lemma attempts_logger ev tr :
  is_logger ev = true -> attempts (ev :: tr) = attempts tr.
Proof. now destruct ev. Qed.

Lemma sleeps_logger ev tr :
  is_logger ev = true -> sleeps (ev :: tr) = sleeps tr.
Proof. now destruct ev. Qed.

Lemma reports_logger ev tr :
  is_logger ev = true -> round_reports (ev :: tr) = round_reports tr.
Proof. now destruct ev. Qed.

Lemma waiting_loggers_or_sleep chatIds interval i :
  waiting chatIds interval i = []
  \/ exists text,
       waiting chatIds interval i
       = [EvLogger LevelLog text; EvSleep BetweenMessages (Num.mul interval 1000)].
Proof.
  unfold waiting. destruct (_ <? _)%Z; [right; eexists; reflexivity | now left].
Qed.

Lemma attempts_waiting chatIds interval i tr :
  attempts (waiting chatIds interval i ++ tr) = attempts tr.
Proof. now destruct (waiting_loggers_or_sleep chatIds interval i) as [-> | [text ->]]. Qed.

Lemma reports_waiting chatIds interval i tr :
  round_reports (waiting chatIds interval i ++ tr) = round_reports tr.
Proof. now destruct (waiting_loggers_or_sleep chatIds interval i) as [-> | [text ->]]. Qed.

Section Loop.

Variables (chatIds : list string) (interval : JsNumber).

(** The attempts a loop trace holds. *)
Lemma attempts_pause progress delivery i chatId warn report l :
  is_logger progress = true ->
  forallb is_delivery_event delivery = true ->
  forallb is_logger l = true ->
  attempts (progress :: delivery
              ++ EvAttempt i chatId ResFloodWait :: EvLogger LevelWarn warn
              :: EvAudit report :: l)
  = [(i, chatId, ResFloodWait)].
Proof.
  intros Hp Hd Hl. rewrite (attempts_logger _ _ Hp), (attempts_delivery _ _ Hd).
  cbn [attempts flat_map app]. fold (attempts l).
  rewrite <- (app_nil_r l), (attempts_loggers _ _ Hl). reflexivity.
Qed.

Lemma attempts_continue progress delivery i chatId result tr :
  is_logger progress = true ->
  forallb is_delivery_event delivery = true ->
  attempts (progress :: delivery
              ++ EvAttempt i chatId result :: waiting chatIds interval i ++ tr)
  = (i, chatId, result) :: attempts tr.
Proof.
  intros Hp Hd. rewrite (attempts_logger _ _ Hp), (attempts_delivery _ _ Hd).
  cbn [attempts flat_map app]. fold (attempts (waiting chatIds interval i ++ tr)).
  now rewrite attempts_waiting.
Qed.

Lemma count_result_cons res a l :
  count_result res (a :: l)
  = ((if match snd a, res with
          | ResTrue, ResTrue | ResFalse, ResFalse
          | ResFloodWait, ResFloodWait => true
          | _, _ => false
          end then 1 else 0) + count_result res l)%Z.
Proof.
  unfold count_result. cbn [List.filter].
  destruct (match snd a, res with
            | ResTrue, ResTrue | ResFalse, ResFalse
            | ResFloodWait, ResFloodWait => true
            | _, _ => false
            end); cbn [length]; lia.
Qed.

Lemma count_result_nil res : count_result res [] = 0%Z.
Proof. reflexivity. Qed.

(** Which destinations a loop attempts. *)
Lemma loop_attempts rest i tot rnd tr tot' rnd' :
  loop_run chatIds interval rest i tot rnd tr tot' rnd' ->
  map fst (attempts tr)
  = firstn (length (attempts tr)) (combine (seq i (length rest)) rest)
  /\ (length (attempts tr) <= length rest)%nat
  /\ (rest <> [] -> (1 <= length (attempts tr))%nat)
  /\ (forallb (fun a => negb (is_flood a)) (attempts tr) = true ->
      length (attempts tr) = length rest)
  /\ (forall k a, attempts tr !! k = Some a -> is_flood a = true ->
      length (attempts tr) = (k + 1)%nat).
Proof.
  induction 1 as [i tot rnd
                 | chatId rest i tot rnd progress delivery time l Hp Hd Hl
                 | chatId rest i tot rnd progress delivery result tr tot' rnd'
                     Hres Hp Hd Hloop IH].
  - cbn [attempts flat_map length map firstn forallb].
    split; [reflexivity|]. split; [lia|]. split; [congruence|].
    split; [reflexivity|]. intros k a Hk. now rewrite lookup_nil in Hk.
  - rewrite (attempts_pause _ _ _ _ _ _ _ Hp Hd Hl).
    cbn [length map firstn seq combine fst forallb is_flood snd negb andb].
    split; [reflexivity|]. split; [lia|]. split; [lia|].
    split; [discriminate|].
    intros [|k] a Hk _; [reflexivity|]. now rewrite lookup_cons, lookup_nil in Hk.
  - rewrite (attempts_continue _ _ _ _ _ _ Hp Hd).
    destruct IH as (Hmap & Hlen & _ & Hall & Hflood).
    rewrite Nat.add_1_r in Hmap.
    cbn [length map firstn seq combine fst]. repeat split.
    + now rewrite Hmap.
    + lia.
    + intros _. lia.
    + cbn [forallb]. rewrite andb_true_iff. intros [_ Hrest].
      now rewrite (Hall Hrest).
    + intros [|k] a Hk Ha.
      * rewrite lookup_cons in Hk. injection Hk as <-.
        unfold is_flood in Ha. cbn [snd] in Ha.
        now destruct result.
      * rewrite lookup_cons in Hk. rewrite (Hflood k a Hk Ha). lia.
Qed.

(** What a loop does to the counters. *)
Lemma loop_counts rest i tot rnd tr tot' rnd' :
  loop_run chatIds interval rest i tot rnd tr tot' rnd' ->
  roundNumber tot' = roundNumber tot
  /\ totalSuccessCount tot'
     = (totalSuccessCount tot + count_result ResTrue (attempts tr))%Z
  /\ totalFailCount tot'
     = (totalFailCount tot + count_result ResFalse (attempts tr))%Z
  /\ totalFloodWaitCount tot'
     = (totalFloodWaitCount tot + count_result ResFloodWait (attempts tr))%Z
  /\ roundSuccessCount rnd'
     = (roundSuccessCount rnd + count_result ResTrue (attempts tr))%Z
  /\ roundFailCount rnd'
     = (roundFailCount rnd + count_result ResFalse (attempts tr))%Z
  /\ roundFloodWaitCount rnd'
     = (roundFloodWaitCount rnd + count_result ResFloodWait (attempts tr))%Z
  /\ roundStopped rnd' = roundStopped rnd || existsb is_flood (attempts tr).
Proof.
  induction 1 as [i tot rnd
                 | chatId rest i tot rnd progress delivery time l Hp Hd Hl
                 | chatId rest i tot rnd progress delivery result tr tot' rnd'
                     Hres Hp Hd Hloop IH].
  - cbn [attempts flat_map existsb]. rewrite !count_result_nil, orb_false_r.
    repeat split; lia.
  - rewrite (attempts_pause _ _ _ _ _ _ _ Hp Hd Hl).
    rewrite !count_result_cons, !count_result_nil. cbn.
    rewrite orb_true_r. repeat split; lia.
  - rewrite (attempts_continue _ _ _ _ _ _ Hp Hd).
    destruct IH as (Hn & Hts & Htf & Htw & Hrs & Hrf & Hrw & Hst).
    rewrite !count_result_cons. cbn [existsb snd].
    rewrite Hn, Hts, Htf, Htw, Hrs, Hrf, Hrw, Hst.
    destruct result; [| |contradiction]; cbn; repeat split; lia.
Qed.

(** Which reports of the round loop a loop emits, and where. *)
Lemma loop_reports rest i tot rnd tr tot' rnd' :
  loop_run chatIds interval rest i tot rnd tr tot' rnd' ->
  (existsb is_flood (attempts tr) = false -> round_reports tr = [])
  /\ (forall k c, In (k, c, ResFloodWait) (attempts tr) ->
      exists pre time l,
        tr = pre
               ++ EvAudit (RoundPaused time (roundNumber tot) (k + 1)
                             (length chatIds) (roundSuccessCount rnd')
                             (roundFailCount rnd'))
               :: l
        /\ round_reports pre = []
        /\ forallb is_logger l = true).
Proof.
  induction 1 as [i tot rnd
                 | chatId rest i tot rnd progress delivery time l Hp Hd Hl
                 | chatId rest i tot rnd progress delivery result tr tot' rnd'
                     Hres Hp Hd Hloop IH].
  - split; [reflexivity|]. intros k c [].
  - rewrite (attempts_pause _ _ _ _ _ _ _ Hp Hd Hl). split; [discriminate|].
    intros k c [Heq|[]]. injection Heq as <- <-.
    exists (progress :: delivery
              ++ [EvAttempt i chatId ResFloodWait;
                  EvLogger LevelWarn "🚫 FloodWait detected! Pausing current round..."]),
      time, l.
    split; [|split; [|exact Hl]].
    + cbn [app]. now rewrite <- app_assoc.
    + rewrite (reports_logger _ _ Hp), (reports_delivery _ _ Hd). reflexivity.
  - rewrite (attempts_continue _ _ _ _ _ _ Hp Hd).
    destruct IH as (Hcalm & Hpaused). split.
    + cbn [existsb]. rewrite orb_false_iff. intros [_ Hrest].
      rewrite (reports_logger _ _ Hp), (reports_delivery _ _ Hd).
      cbn [round_reports flat_map app].
      fold (round_reports (waiting chatIds interval i ++ tr)).
      rewrite reports_waiting. now apply Hcalm.
    + intros k c [Heq|Hin]; [congruence|].
      destruct (Hpaused k c Hin) as (pre & time & l & -> & Hpre & Hl).
      exists (progress :: delivery
                ++ EvAttempt i chatId result :: waiting chatIds interval i ++ pre),
        time, l.
      split; [|split; [|exact Hl]].
      * cbn [app]. rewrite <- !app_assoc. cbn [app].
        rewrite <- !app_assoc.
        now destruct result.
      * rewrite (reports_logger _ _ Hp), (reports_delivery _ _ Hd).
        cbn [round_reports flat_map app].
        fold (round_reports (waiting chatIds interval i ++ pre)).
        now rewrite reports_waiting.
Qed.

(** A loop sleeps between messages only, for the interval. *)
Lemma loop_sleeps rest i tot rnd tr tot' rnd' :
  loop_run chatIds interval rest i tot rnd tr tot' rnd' ->
  Forall (fun p => p = (BetweenMessages, Num.mul interval 1000)) (sleeps tr).
Proof.
  induction 1 as [i tot rnd
                 | chatId rest i tot rnd progress delivery time l Hp Hd Hl
                 | chatId rest i tot rnd progress delivery result tr tot' rnd'
                     Hres Hp Hd Hloop IH].
  - constructor.
  - rewrite (sleeps_logger _ _ Hp), (sleeps_delivery _ _ Hd).
    cbn [sleeps flat_map app]. fold (sleeps l).
    rewrite <- (app_nil_r l), (sleeps_loggers _ _ Hl). constructor.
  - rewrite (sleeps_logger _ _ Hp), (sleeps_delivery _ _ Hd).
    cbn [sleeps flat_map app]. fold (sleeps (waiting chatIds interval i ++ tr)).
    destruct (waiting_loggers_or_sleep chatIds interval i) as [-> | [text ->]].
    + exact IH.
    + cbn. now constructor.
Qed.

Lemma count_flood_none l :
  existsb is_flood l = false -> count_result ResFloodWait l = 0%Z.
Proof.
  induction l as [|a l IH]; [reflexivity|].
  cbn [existsb]. rewrite orb_false_iff. intros [Ha Hl].
  rewrite count_result_cons, (IH Hl). unfold is_flood in Ha.
  now destruct (snd a).
Qed.

Lemma count_result_nonneg res l : (0 <= count_result res l)%Z.
Proof. unfold count_result. lia. Qed.

Lemma in_flood l k c :
  In (k, c, ResFloodWait) l -> existsb is_flood l = true.
Proof. intros Hin. apply existsb_exists. now exists (k, c, ResFloodWait). Qed.

(** The invariant of a round: the flag is set where the counter is
    incremented, and nowhere else. *)
Lemma loop_stopped_iff_counted rest i tot tr tot' rnd' :
  loop_run chatIds interval rest i tot newRound tr tot' rnd' ->
  roundStopped rnd' = existsb is_flood (attempts tr)
  /\ roundFloodWaitCount rnd' = count_result ResFloodWait (attempts tr)
  /\ ((0 < roundFloodWaitCount rnd')%Z -> roundStopped rnd' = true)
  /\ cooldown rnd' = [].
Proof.
  intros Hloop.
  destruct (loop_counts _ _ _ _ _ _ _ Hloop) as (_ & _ & _ & _ & _ & _ & Hw & Hst).
  cbn [newRound roundFloodWaitCount roundStopped orb] in Hw, Hst.
  rewrite Z.add_0_l in Hw.
  assert (Hinv : (0 < roundFloodWaitCount rnd')%Z -> roundStopped rnd' = true).
  { rewrite Hw, Hst. intros Hpos.
    destruct (existsb is_flood (attempts tr)) eqn:Hex; [reflexivity|].
    rewrite (count_flood_none _ Hex) in Hpos. lia. }
  repeat split; try assumption.
  unfold cooldown. destruct (Z.ltb_spec 0 (roundFloodWaitCount rnd')) as [Hpos|_].
  - now rewrite (Hinv Hpos).
  - reflexivity.
Qed.

(** What closes a round holds no attempt and one report at most. *)
Lemma completion_attempts tot rnd tr :
  completion_run interval tot rnd tr -> attempts tr = [].
Proof.
  intros [Hs | time l Hs Hl]; [reflexivity|].
  cbn [attempts flat_map app]. fold (attempts (l ++ [EvSleep BetweenRounds (Num.mul interval 1000)])).
  now rewrite (attempts_loggers _ _ Hl).
Qed.

Lemma attempts_app a b : attempts (a ++ b) = attempts a ++ attempts b.
Proof. apply flat_map_app. Qed.

Lemma sleeps_app a b : sleeps (a ++ b) = sleeps a ++ sleeps b.
Proof. apply flat_map_app. Qed.

Lemma reports_app a b : round_reports (a ++ b) = round_reports a ++ round_reports b.
Proof. apply flat_map_app. Qed.

(** The trace of a pass, taken apart. *)
Lemma round_run_inv tot tr tot' :
  round_run chatIds interval tot tr tot' ->
  exists time l loop_tr tot1 rnd done,
    tr = EvAudit (RoundStarted time (roundNumber tot) (length chatIds)
                    (totalSuccessCount tot) (totalFailCount tot)
                    (totalFloodWaitCount tot))
           :: l ++ loop_tr ++ done
    /\ forallb is_logger l = true
    /\ loop_run chatIds interval chatIds 0 tot newRound loop_tr tot1 rnd
    /\ completion_run interval tot1 rnd done
    /\ tot' = next_round tot1
    /\ attempts tr = attempts loop_tr.
Proof.
  intros [time l loop_tr tot1 rnd after_tr tot2 Hl Hloop Hafter].
  destruct Hafter as [done Hdone].
  destruct (loop_stopped_iff_counted _ _ _ _ _ _ Hloop) as (_ & _ & _ & Hcool).
  rewrite Hcool, app_nil_r.
  exists time, l, loop_tr, tot1, rnd, done. repeat split; try assumption.
  cbn [attempts flat_map app]. fold (attempts (l ++ loop_tr ++ done)).
  rewrite (attempts_loggers _ _ Hl), attempts_app.
  now rewrite (completion_attempts _ _ _ Hdone), app_nil_r.
Qed.

End Loop.

End TraceFacts.

(** ** Rounds *)

Section RoundFacts.

Import Trace Shape.

Variables (chatIds : list string) (interval : JsNumber).

(** A rate-limited attempt is the last one of its loop. *)
Lemma loop_flood_last rest i tot rnd tr tot' rnd' :
  loop_run chatIds interval rest i tot rnd tr tot' rnd' ->
  forall k c, In (k, c, ResFloodWait) (attempts tr) ->
  (i + length (attempts tr) = k + 1)%nat.
Proof.
  induction 1 as [i tot rnd
                 | chatId rest i tot rnd progress delivery time l Hp Hd Hl
                 | chatId rest i tot rnd progress delivery result tr tot' rnd'
                     Hres Hp Hd Hloop IH]; intros k c Hin.
  - destruct Hin.
  - rewrite (attempts_pause _ _ _ _ _ _ _ Hp Hd Hl) in *.
    destruct Hin as [Heq|[]]. injection Heq as <- <-. reflexivity.
  - rewrite (attempts_continue _ _ _ _ _ _ _ _ Hp Hd) in *.
    destruct Hin as [Heq|Hin]; [congruence|].
    specialize (IH k c Hin). cbn [length]. lia.
Qed.

Lemma round_attempts tot tr tot' :
  round_run chatIds interval tot tr tot' ->
  attempts_of_round chatIds (attempts tr).
Proof.
  intros Hround.
  destruct (round_run_inv _ _ _ _ _ Hround)
    as (time & l & loop_tr & tot1 & rnd & done & _ & _ & Hloop & _ & _ & ->).
  exact (loop_attempts _ _ _ _ _ _ _ _ _ Hloop).
Qed.

Lemma round_counts tot tr tot' :
  round_run chatIds interval tot tr tot' ->
  roundNumber tot' = (roundNumber tot + 1)%Z
  /\ totalSuccessCount tot'
     = (totalSuccessCount tot + count_result ResTrue (attempts tr))%Z
  /\ totalFailCount tot'
     = (totalFailCount tot + count_result ResFalse (attempts tr))%Z
  /\ totalFloodWaitCount tot'
     = (totalFloodWaitCount tot + count_result ResFloodWait (attempts tr))%Z.
Proof.
  intros Hround.
  destruct (round_run_inv _ _ _ _ _ Hround)
    as (time & l & loop_tr & tot1 & rnd & done & _ & _ & Hloop & _ & -> & ->).
  destruct (loop_counts _ _ _ _ _ _ _ _ _ Hloop) as (Hn & Hs & Hf & Hw & _).
  cbn [next_round roundNumber totalSuccessCount totalFailCount totalFloodWaitCount].
  now rewrite Hn, Hs, Hf, Hw.
Qed.

(** A pass in which an attempt was rate limited. *)
Lemma round_paused tot tr tot' i chatId :
  round_run chatIds interval tot tr tot' ->
  In (i, chatId, ResFloodWait) (attempts tr) ->
  exists time0 time ok failed pre l,
    round_reports tr
    = [ RoundStarted time0 (roundNumber tot) (length chatIds)
          (totalSuccessCount tot) (totalFailCount tot) (totalFloodWaitCount tot);
        RoundPaused time (roundNumber tot) (i + 1) (length chatIds) ok failed ]
    /\ tr = pre ++ EvAudit (RoundPaused time (roundNumber tot) (i + 1)
                              (length chatIds) ok failed) :: l
    /\ forallb is_logger l = true
    /\ Forall (fun p => p = (BetweenMessages, Num.mul interval 1000)) (sleeps tr)
    /\ length (attempts tr) = (i + 1)%nat
    /\ ok = count_result ResTrue (attempts tr)
    /\ failed = count_result ResFalse (attempts tr).
Proof.
  intros Hround Hin.
  destruct (round_run_inv _ _ _ _ _ Hround)
    as (time0 & l0 & loop_tr & tot1 & rnd & done & -> & Hl0 & Hloop & Hdone & _ & Hatt).
  rewrite Hatt in *.
  destruct (loop_stopped_iff_counted _ _ _ _ _ _ _ _ Hloop) as (Hst & _).
  rewrite (in_flood _ _ _ Hin) in Hst.
  destruct Hdone as [_ | time' l' Hns _]; [|congruence].
  rewrite app_nil_r.
  destruct (loop_reports _ _ _ _ _ _ _ _ _ Hloop) as (_ & Hpaused).
  destruct (Hpaused i chatId Hin) as (pre & time & l & -> & Hpre & Hl).
  destruct (loop_counts _ _ _ _ _ _ _ _ _ Hloop) as (_ & _ & _ & _ & Hok & Hfail & _).
  cbn [newRound roundSuccessCount roundFailCount] in Hok, Hfail.
  rewrite Z.add_0_l in Hok, Hfail.
  exists time0, time, (roundSuccessCount rnd), (roundFailCount rnd),
    (EvAudit (RoundStarted time0 (roundNumber tot) (length chatIds)
                (totalSuccessCount tot) (totalFailCount tot)
                (totalFloodWaitCount tot)) :: l0 ++ pre), l.
  split; [|split; [|split; [|split; [|split; [|split]]]]].
  - cbn [round_reports flat_map is_delivery_report app].
    fold (round_reports (l0 ++ pre ++ EvAudit (RoundPaused time (roundNumber tot) (i + 1)
                              (length chatIds) (roundSuccessCount rnd)
                              (roundFailCount rnd)) :: l)).
    rewrite (reports_loggers _ _ Hl0), reports_app, Hpre.
    cbn [round_reports flat_map is_delivery_report app].
    fold (round_reports l). rewrite <- (app_nil_r l), (reports_loggers _ _ Hl).
    reflexivity.
  - cbn [app]. now rewrite <- app_assoc.
  - exact Hl.
  - cbn [sleeps flat_map app].
    fold (sleeps (l0 ++ pre ++ EvAudit (RoundPaused time (roundNumber tot) (i + 1)
                              (length chatIds) (roundSuccessCount rnd)
                              (roundFailCount rnd)) :: l)).
    rewrite (sleeps_loggers _ _ Hl0).
    exact (loop_sleeps _ _ _ _ _ _ _ _ _ Hloop).
  - pose proof (loop_flood_last _ _ _ _ _ _ _ Hloop i chatId Hin). lia.
  - exact Hok.
  - exact Hfail.
Qed.

End RoundFacts.

Lemma append_assoc_r (a b c : string) : (a +:+ b) +:+ c = a +:+ (b +:+ c).
Proof.
  induction a as [|x a IH]; [reflexivity|].
  change ((String x a +:+ b) +:+ c) with (String x ((a +:+ b) +:+ c)).
  change (String x a +:+ (b +:+ c)) with (String x (a +:+ (b +:+ c))).
  now rewrite IH.
Qed.

Lemma includes_progress a b tail :
  includes ("📊 Round progress: " +:+ a +:+ "/" +:+ b +:+ tail)
    ("Round progress: " +:+ a +:+ "/" +:+ b) = true.
Proof.
  change "📊 Round progress: " with ("📊 " +:+ "Round progress: ").
  rewrite append_assoc_r. apply includes_app.
  rewrite <- !append_assoc_r. apply includes_prefix.
Qed.

(** The text of a pause report names the progress as [processed/chats]. *)
Lemma render_paused_progress time round processed chats ok failed :
  includes (render (RoundPaused time round processed chats ok failed))
    ("Round progress: " +:+ of_nat processed +:+ "/" +:+ of_nat chats) = true.
Proof.
  unfold render, lines. cbn [String.concat].
  do 8 (apply includes_app).
  rewrite !append_assoc_r. apply includes_progress.
Qed.

Section RoundsFacts.

Import Trace Shape.

Variables (chatIds : list string) (interval : JsNumber).

Lemma count_result_app res a b :
  count_result res (a ++ b) = (count_result res a + count_result res b)%Z.
Proof.
  unfold count_result. rewrite List.filter_app, length_app. lia.
Qed.

Lemma rounds_counts tot trs tot' :
  rounds_run chatIds interval tot trs tot' ->
  roundNumber tot' = (roundNumber tot + Z.of_nat (length trs))%Z
  /\ totalSuccessCount tot'
     = (totalSuccessCount tot + count_result ResTrue (attempts (concat trs)))%Z
  /\ totalFailCount tot'
     = (totalFailCount tot + count_result ResFalse (attempts (concat trs)))%Z
  /\ totalFloodWaitCount tot'
     = (totalFloodWaitCount tot + count_result ResFloodWait (attempts (concat trs)))%Z.
Proof.
  induction 1 as [tot | tot tr tot1 trs tot2 Hround Hrounds IH].
  - cbn [length concat attempts flat_map]. rewrite !count_result_nil.
    repeat split; lia.
  - destruct (round_counts _ _ _ _ _ Hround) as (Hn & Hs & Hf & Hw).
    destruct IH as (Hn' & Hs' & Hf' & Hw').
    cbn [length concat]. rewrite attempts_app, !count_result_app.
    rewrite Hn', Hs', Hf', Hw', Hn, Hs, Hf, Hw. repeat split; lia.
Qed.

(** A pass sleeps between messages and between rounds, never for the
    extra cooldown. *)
Lemma round_sleeps tot tr tot' :
  round_run chatIds interval tot tr tot' ->
  Forall (fun p => fst p <> ExtraCooldown) (sleeps tr).
Proof.
  intros Hround.
  destruct (round_run_inv _ _ _ _ _ Hround)
    as (time0 & l0 & loop_tr & tot1 & rnd & done & -> & Hl0 & Hloop & Hdone & _ & _).
  cbn [sleeps flat_map app]. fold (sleeps (l0 ++ loop_tr ++ done)).
  rewrite (sleeps_loggers _ _ Hl0), sleeps_app. apply Forall_app. split.
  - eapply Forall_impl; [exact (loop_sleeps _ _ _ _ _ _ _ _ _ Hloop)|].
    now intros p ->.
  - destruct Hdone as [_ | time l _ Hl]; [constructor|].
    cbn [sleeps flat_map app].
    fold (sleeps (l ++ [EvSleep BetweenRounds (Num.mul interval 1000)])).
    rewrite (sleeps_loggers _ _ Hl). now repeat constructor.
Qed.

Lemma rounds_sleeps tot trs tot' :
  rounds_run chatIds interval tot trs tot' ->
  Forall (fun p => fst p <> ExtraCooldown) (sleeps (concat trs)).
Proof.
  induction 1 as [tot | tot tr tot1 trs tot2 Hround Hrounds IH]; [constructor|].
  cbn [concat]. rewrite sleeps_app. apply Forall_app. split; [|exact IH].
  exact (round_sleeps _ _ _ Hround).
Qed.

End RoundsFacts.

(** ** The attempts of a round are the calls of the delivery unit *)

(** One step of a run whose first part is known to return. *)
Ltac run_next :=
  eapply run_bind;
  [ first [ eassumption
          | apply run_logger
          | eapply run_call; [eassumption || reflexivity | eassumption]
          | reflexivity ]
  | cbv beta ].

Section Deliveries.

Context {T : Type} `{TelegramClient T}.

Import Trace Shape.

Variables (chatIds : list string) (text logChatId : string) (interval : JsNumber).

(** The delay after the attempt at index [i], and the state it leaves:
    the program sleeps exactly when a destination follows. *)
Lemma waiting_state (i : nat) (rest : list string) (s : State (T := T)) :
  (i + S (length rest) = length chatIds)%nat ->
  (if (Z.of_nat i <? Z.of_nat (length chatIds) - 1)%Z then
     bind (logger LevelLog
             ("⏳ Waiting " +:+ Num.to_string interval
                +:+ " seconds before next message..."))
       (fun _ => sleep BetweenMessages (Num.mul interval 1000))
   else ret tt) s
  = (Normal tt, waiting chatIds interval i,
     match rest with
     | [] => s
     | _ :: _ => snd (sleep BetweenMessages (Num.mul interval 1000) s)
     end).
Proof.
  intros Hlen. unfold waiting.
  destruct rest as [|next rest]; cbn [length] in Hlen;
    destruct (Z.ltb_spec (Z.of_nat i) (Z.of_nat (length chatIds) - 1));
    try lia; reflexivity.
Qed.

(** What the [for] loop records as attempts are the calls of the delivery
    unit, with what they returned. *)
Lemma for_loop_deliveries rest : forall i tot rnd (s : State (T := T)),
  client s = true ->
  (i + length rest = length chatIds)%nat ->
  exists vars tr s',
    for_loop chatIds text logChatId interval rest i tot rnd s = (Normal vars, tr, s')
    /\ attempts tr = Calls.deliveries text logChatId interval rest i s.
Proof.
  induction rest as [|chatId rest IH]; intros i tot rnd s Hc Hlen.
  - eexists _, _, _. split; reflexivity.
  - cbn [length] in Hlen.
    destruct (sendMessageWithLogging_run chatId text logChatId s Hc)
      as (res & delivery & s1 & Hsend & Hc1 & Hdelivery).
    pose proof (waiting_state i rest s1 ltac:(lia)) as Hwait.
    assert (Hc2 : client (match rest with
                          | [] => s1
                          | _ :: _ =>
                              snd (sleep BetweenMessages (Num.mul interval 1000) s1)
                          end) = true)
      by (destruct rest; [exact Hc1|exact Hc1]).
    cbn [Calls.deliveries]. rewrite Hsend.
    destruct res.
    + destruct (IH (i + 1)%nat (tally_total ResTrue tot) (tally_round ResTrue rnd)
                  _ Hc2 ltac:(lia))
        as (vars & tr & s' & Hrun & Hatt).
      eexists _, _, _. split.
      * cbn [MessagingService.for_loop]. run_next. run_next. run_next.
        cbv iota. run_next. exact Hrun.
      * cbn [app]. rewrite (attempts_continue chatIds interval) by (reflexivity || assumption).
        now rewrite Hatt.
    + destruct (IH (i + 1)%nat (tally_total ResFalse tot) (tally_round ResFalse rnd)
                  _ Hc2 ltac:(lia))
        as (vars & tr & s' & Hrun & Hatt).
      eexists _, _, _. split.
      * cbn [MessagingService.for_loop]. run_next. run_next. run_next.
        cbv iota. run_next. exact Hrun.
      * cbn [app]. rewrite (attempts_continue chatIds interval) by (reflexivity || assumption).
        now rewrite Hatt.
    + destruct (sendLogMessage_run logChatId
                  (RoundPaused (toLocaleString false (world s1)) (roundNumber tot)
                     (i + 1) (length chatIds) (roundSuccessCount rnd)
                     (roundFailCount rnd)) s1)
        as (l & s' & Hlog & _ & Hl).
      apply error_line_loggers in Hl as [Hl _].
      eexists _, _, _. split.
      * cbn [MessagingService.for_loop]. run_next. run_next. run_next.
        cbv iota zeta. run_next. run_next.
        cbn [roundNumber roundSuccessCount roundFailCount].
        run_next. reflexivity.
      * cbn [app]. rewrite app_nil_r.
        apply attempts_pause; (reflexivity || assumption).
Qed.

(** What follows the loop holds no attempt. *)
Lemma after_attempts tot rnd tr tot' :
  after_run interval tot rnd tr tot' -> attempts tr = [].
Proof.
  intros [done Hdone]. rewrite attempts_app, (completion_attempts _ _ _ _ Hdone).
  unfold cooldown. now destruct ((0 <? roundFloodWaitCount rnd)%Z && negb (roundStopped rnd)).
Qed.

(** A round returns, and its attempts are the calls of the delivery
    unit, from the state its start report has left. *)
Lemma round_deliveries_run tot (s : State (T := T)) :
  client s = true ->
  exists tot' tr s',
    round chatIds text logChatId interval tot s = (Normal tot', tr, s')
    /\ attempts tr = Calls.round_deliveries chatIds text logChatId interval tot s.
Proof.
  intros Hc. unfold round, Calls.round_deliveries, Calls.entered.
  destruct (sendLogMessage_run logChatId
              (RoundStarted (toLocaleString false (world s)) (roundNumber tot)
                 (length chatIds) (totalSuccessCount tot) (totalFailCount tot)
                 (totalFloodWaitCount tot)) s)
    as (l & s1 & Hlog & Hc1 & Hl).
  rewrite Hc in Hc1. apply error_line_loggers in Hl as [Hl _].
  rewrite Hlog. cbn [snd].
  destruct (for_loop_deliveries chatIds 0 tot newRound s1 Hc1 eq_refl)
    as (vars & loop_tr & s2 & Hloop & Hatt).
  destruct (after_loop_sound logChatId interval (fst vars) (snd vars) s2)
    as (after_tr & s3 & Hafter & _ & Hashape).
  eexists _, _, _. split.
  - run_next. run_next. run_next. run_next. exact Hafter.
  - cbn [app attempts flat_map].
    fold (attempts (l ++ EvLogger LevelLog
                           ("🔄 Starting round #" +:+ of_Z (roundNumber tot))
                      :: loop_tr ++ after_tr)).
    rewrite (attempts_loggers _ _ Hl), attempts_logger by reflexivity.
    rewrite attempts_app, (after_attempts _ _ _ _ Hashape), app_nil_r.
    exact Hatt.
Qed.

End Deliveries.

(** ** The claims about rounds *)

Section Rounds.

Context {T : Type} `{TelegramClient T}.

Import Trace Shape.

Variables (chatIds : list string) (text logChatId : string) (interval : JsNumber).

Local Abbreviation round := (round chatIds text logChatId interval).
Local Abbreviation rounds := (rounds chatIds text logChatId interval).


(** C3. When the call of the delivery unit at index [i] returns the
    rate-limit outcome, the round makes [i + 1] attempts, those calls, and
    emits, besides its start report, exactly one report: the pause report,
    whose progress is [i + 1] of [N] (and whose text says so) and whose
    counts are those of the attempts that succeeded and failed; it emits
    no completion report; after the pause report it emits log lines only,
    and it never sleeps between rounds: its only sleeps are those between
    messages. *)
Theorem round_paused_report (tot : Totals) (s : State (T := T))
  (i : nat) (chatId : string) :
  client s = true ->
  In (i, chatId, ResFloodWait)
    (Calls.round_deliveries chatIds text logChatId interval tot s) ->
  exists tot' tr s' started time pre l,
    let paused :=
      RoundPaused time (roundNumber tot) (i + 1) (length chatIds)
        (count_result ResTrue (attempts tr)) (count_result ResFalse (attempts tr)) in
    round tot s = (Normal tot', tr, s')
    /\ attempts tr = Calls.round_deliveries chatIds text logChatId interval tot s
    /\ is_started started = true
    /\ round_reports tr = [started; paused]
    /\ includes (render paused)
         ("Round progress: " +:+ of_nat (i + 1) +:+ "/"
            +:+ of_nat (length chatIds)) = true
    /\ tr = pre ++ EvAudit paused :: l
    /\ forallb is_logger l = true
    /\ Forall (fun p => fst p = BetweenMessages) (sleeps tr)
    /\ length (attempts tr) = (i + 1)%nat.
Proof.
  intros Hc Hcall.
  destruct (round_sound chatIds text logChatId interval tot s Hc)
    as (tot' & tr & s' & Hrun & _ & Hshape).
  destruct (round_deliveries_run chatIds text logChatId interval tot s Hc)
    as (tot1 & tr1 & s1 & Hrun1 & Hcalls).
  rewrite Hrun in Hrun1. injection Hrun1 as _ <- _.
  rewrite <- Hcalls in Hcall.
  destruct (round_paused _ _ _ _ _ _ _ Hshape Hcall)
    as (time0 & time & ok & failed & pre & l & Hrep & Htr & Hl & Hsl & Hlen & -> & ->).
  eexists tot', tr, s', _, time, pre, l. cbv zeta.
  split; [exact Hrun|]. split; [exact Hcalls|].
  split; [|split; [exact Hrep|split; [|split; [exact Htr|split; [exact Hl|split]]]]].
  - reflexivity.
  - apply render_paused_progress.
  - eapply Forall_impl; [exact Hsl|]. now intros p ->.
  - exact Hlen.
Qed.

(** C5. After any number of rounds the round number has grown by that
    number and the cumulative counters have grown by the attempts counted
    (so they have not decreased); and the round that follows, however it
    ends, adds exactly 1 to the round number and decreases no counter. *)
Theorem rounds_counters (n : nat) (tot : Totals) (s : State (T := T)) :
  client s = true ->
  exists tot' trs s',
    rounds n tot s = (Normal tot', concat trs, s')
    /\ length trs = n
    /\ roundNumber tot' = (roundNumber tot + Z.of_nat n)%Z
    /\ totalSuccessCount tot'
       = (totalSuccessCount tot + count_result ResTrue (attempts (concat trs)))%Z
    /\ totalFailCount tot'
       = (totalFailCount tot + count_result ResFalse (attempts (concat trs)))%Z
    /\ totalFloodWaitCount tot'
       = (totalFloodWaitCount tot
          + count_result ResFloodWait (attempts (concat trs)))%Z
    /\ (totalSuccessCount tot <= totalSuccessCount tot')%Z
    /\ (totalFailCount tot <= totalFailCount tot')%Z
    /\ (totalFloodWaitCount tot <= totalFloodWaitCount tot')%Z
    /\ exists tot'' tr s'',
         round tot' s' = (Normal tot'', tr, s'')
         /\ roundNumber tot'' = (roundNumber tot' + 1)%Z
         /\ (totalSuccessCount tot' <= totalSuccessCount tot'')%Z
         /\ (totalFailCount tot' <= totalFailCount tot'')%Z
         /\ (totalFloodWaitCount tot' <= totalFloodWaitCount tot'')%Z.
Proof.
  intros Hc.
  destruct (rounds_sound chatIds text logChatId interval n tot s Hc)
    as (tot' & trs & s' & Hrun & Hc' & Hlen & Hshape).
  destruct (rounds_counts _ _ _ _ _ Hshape) as (Hn & Hs & Hf & Hw).
  destruct (round_sound chatIds text logChatId interval tot' s' Hc')
    as (tot'' & tr & s'' & Hrun' & _ & Hshape').
  destruct (round_counts _ _ _ _ _ Hshape') as (Hn' & Hs' & Hf' & Hw').
  pose proof (count_result_nonneg ResTrue (attempts (concat trs))).
  pose proof (count_result_nonneg ResFalse (attempts (concat trs))).
  pose proof (count_result_nonneg ResFloodWait (attempts (concat trs))).
  pose proof (count_result_nonneg ResTrue (attempts tr)).
  pose proof (count_result_nonneg ResFalse (attempts tr)).
  pose proof (count_result_nonneg ResFloodWait (attempts tr)).
  exists tot', trs, s'. rewrite Hlen in Hn.
  repeat split; try assumption; try lia.
  exists tot'', tr, s''. repeat split; try assumption; lia.
Qed.

End Rounds.

Section Dispatch.

Context {T : Type} `{TelegramClient T}.

Import Trace Shape.

Variables (chatIds : list string) (text logChatId : string) (interval : JsNumber).

Local Abbreviation round := (round chatIds text logChatId interval).
Local Abbreviation rounds := (rounds chatIds text logChatId interval).

(** C4. At the end of the body of [while (true)], after the round number
    was incremented and as the last thing before the next round, the
    program sleeps for the extra cooldown if and only if the round counted
    a rate limit and was not stopped; the cooldown is 300 seconds (300000
    milliseconds) and is slept once.  This holds for any values of the
    variables of the round. *)
Theorem cooldown_iff (tot : Totals) (rnd : Round) (s : State (T := T)) :
  exists tr s',
    after_loop logChatId interval tot rnd s = (Normal (next_round tot), tr, s')
    /\ (In (ExtraCooldown, JNum 300000) (sleeps tr)
        <-> (0 < roundFloodWaitCount rnd)%Z /\ roundStopped rnd = false)
    /\ List.filter (fun p => match fst p with ExtraCooldown => true | _ => false end)
         (sleeps tr)
       = (if (0 <? roundFloodWaitCount rnd)%Z && negb (roundStopped rnd)
          then [(ExtraCooldown, JNum 300000)] else [])
    /\ ((0 < roundFloodWaitCount rnd)%Z /\ roundStopped rnd = false ->
        exists pre, tr = pre ++ [EvSleep ExtraCooldown (JNum 300000)]).
Proof.
  destruct (after_loop_sound logChatId interval tot rnd s)
    as (tr & s' & Hrun & _ & Hshape).
  exists tr, s'. split; [exact Hrun|].
  destruct Hshape as [done Hdone].
  assert (Hsl : sleeps done = []
                \/ sleeps done = [(BetweenRounds, Num.mul interval 1000)]).
  { destruct Hdone as [_ | time l _ Hl]; [now left|right].
    cbn [sleeps flat_map app].
    fold (sleeps (l ++ [EvSleep BetweenRounds (Num.mul interval 1000)])).
    now rewrite (sleeps_loggers _ _ Hl). }
  assert (Hb : (0 <? roundFloodWaitCount rnd)%Z && negb (roundStopped rnd) = true
               <-> (0 < roundFloodWaitCount rnd)%Z /\ roundStopped rnd = false).
  { rewrite andb_true_iff, Z.ltb_lt, negb_true_iff. tauto. }
  assert (Hcool : sleeps (cooldown rnd)
                  = if (0 <? roundFloodWaitCount rnd)%Z && negb (roundStopped rnd)
                    then [(ExtraCooldown, JNum 300000)] else []).
  { unfold cooldown. now destruct (_ && _). }
  rewrite sleeps_app, Hcool.
  destruct ((0 <? roundFloodWaitCount rnd)%Z && negb (roundStopped rnd)) eqn:Hcond.
  - split; [|split].
    + split; [intros _; now apply Hb|].
      intros _. apply in_or_app. right. now left.
    + destruct Hsl as [-> | ->]; reflexivity.
    + intros _. unfold cooldown. rewrite Hcond.
      eexists (done ++ [_]). now rewrite <- app_assoc.
  - rewrite app_nil_r. split; [|split].
    + split.
      * intros Hin. destruct Hsl as [Hs | Hs]; rewrite Hs in Hin.
        -- destruct Hin.
        -- destruct Hin as [Heq|[]]. discriminate.
      * intros Hyes. apply Hb in Hyes. congruence.
    + destruct Hsl as [-> | ->]; reflexivity.
    + intros Hyes. apply Hb in Hyes. congruence.
Qed.

(** C10. At the end of the loop of a round the flag [roundStopped] is set
    exactly when an attempt was rate limited, so a positive
    [roundFloodWaitCount] implies [roundStopped]; hence no run of rounds
    ever sleeps for the extra cooldown; and when a round is paused by a
    rate limit, between its pause report and the start report of the next
    round the program emits log lines only: it does not sleep at all. *)
Theorem flood_stops_round (tot : Totals) (s : State (T := T)) :
  client s = true ->
  (exists tot1 rnd tr s1,
      for_loop chatIds text logChatId interval chatIds 0 tot newRound s
      = (Normal (tot1, rnd), tr, s1)
      /\ roundStopped rnd = existsb is_flood (attempts tr)
      /\ ((0 < roundFloodWaitCount rnd)%Z -> roundStopped rnd = true))
  /\ (forall n, exists tot' trs s',
        rounds n tot s = (Normal tot', concat trs, s')
        /\ length trs = n
        /\ forall ms, ~ In (ExtraCooldown, ms) (sleeps (concat trs)))
  /\ (exists tot1 tr1 s1 tot2 tr2 s2,
        round tot s = (Normal tot1, tr1, s1)
        /\ round tot1 s1 = (Normal tot2, tr2, s2)
        /\ forall i chatId, In (i, chatId, ResFloodWait) (attempts tr1) ->
           exists pre paused l time rest,
             is_paused paused = true
             /\ forallb is_logger l = true
             /\ tr1 ++ tr2
                = pre ++ EvAudit paused :: l
                    ++ EvAudit (RoundStarted time (roundNumber tot + 1)
                                  (length chatIds) (totalSuccessCount tot1)
                                  (totalFailCount tot1) (totalFloodWaitCount tot1))
                    :: rest).
Proof.
  intros Hc. split; [|split].
  - destruct (for_loop_sound chatIds text logChatId interval chatIds 0 tot newRound s Hc)
      as (tot1 & rnd & tr & s1 & Hrun & _ & Hshape).
    destruct (loop_stopped_iff_counted _ _ _ _ _ _ _ _ Hshape) as (Hst & _ & Hinv & _).
    now exists tot1, rnd, tr, s1.
  - intros n.
    destruct (rounds_sound chatIds text logChatId interval n tot s Hc)
      as (tot' & trs & s' & Hrun & _ & Hlen & Hshape).
    exists tot', trs, s'. split; [exact Hrun|]. split; [exact Hlen|].
    intros ms Hin. pose proof (rounds_sleeps _ _ _ _ _ Hshape) as Hsl.
    rewrite List.Forall_forall in Hsl. now apply (Hsl _ Hin).
  - destruct (round_sound chatIds text logChatId interval tot s Hc)
      as (tot1 & tr1 & s1 & Hrun1 & Hc1 & Hshape1).
    destruct (round_sound chatIds text logChatId interval tot1 s1 Hc1)
      as (tot2 & tr2 & s2 & Hrun2 & _ & Hshape2).
    exists tot1, tr1, s1, tot2, tr2, s2. split; [exact Hrun1|]. split; [exact Hrun2|].
    intros i chatId Hin.
    destruct (round_paused _ _ _ _ _ _ _ Hshape1 Hin)
      as (time0 & time & ok & failed & pre & l & _ & -> & Hl & _).
    destruct (round_counts _ _ _ _ _ Hshape1) as (Hn & _).
    destruct (round_run_inv _ _ _ _ _ Hshape2)
      as (time' & l' & loop_tr & tot3 & rnd & done & -> & _).
    rewrite Hn.
    exists pre,
      (RoundPaused time (roundNumber tot) (i + 1) (length chatIds) ok failed),
      l, time', (l' ++ loop_tr ++ done).
    split; [reflexivity|]. split; [exact Hl|].
    now rewrite <- app_assoc.
Qed.

(** C7. [sendLogMessage] returns normally from every state and for every
    report, whatever the client does: when resolving the audit chat or
    transmitting the text throws (or the client is not there at all), the
    error is caught and one error line is logged.  So a call of
    [sendMessageWithLogging] and any number of rounds return normally
    too, whatever happens to the audit reports. *)
Theorem sendLogMessage_never_throws (r : Report) (s : State (T := T)) :
  (exists l s',
      sendLogMessage logChatId r s = (Normal tt, EvAudit r :: l, s')
      /\ (l = [] \/ exists line, l = [EvLogger LevelError line]))
  /\ (forall e w,
        client s = true ->
        getEntity logChatId (world s) = (Throw e, w) ->
        sendLogMessage logChatId r s
        = (Normal tt,
           [EvAudit r;
            EvLogger LevelError
              ("Failed to send log message: " +:+ show_property (message e))],
           {| client := true; world := w |}))
  /\ (forall entity w e w',
        client s = true ->
        getEntity logChatId (world s) = (Normal entity, w) ->
        sendMessage entity (render r) w = (Throw e, w') ->
        sendLogMessage logChatId r s
        = (Normal tt,
           [EvAudit r;
            EvLogger LevelError
              ("Failed to send log message: " +:+ show_property (message e))],
           {| client := true; world := w' |}))
  /\ (client s = false ->
      sendLogMessage logChatId r s
      = (Normal tt,
         [EvAudit r;
          EvLogger LevelError
            ("Failed to send log message: "
               +:+ show_property (message undefinedClient))],
         s))
  /\ (client s = true ->
      (forall chatId, exists res tr s',
          sendMessageWithLogging chatId text logChatId s = (Normal res, tr, s'))
      /\ (forall n tot, exists tot' tr s',
            rounds n tot s = (Normal tot', tr, s'))).
Proof.
  split; [|split; [|split; [|split]]].
  - destruct (sendLogMessage_run logChatId r s) as (l & s' & Hrun & _ & Hl).
    now exists l, s'.
  - intros e w Hc Hg.
    unfold sendLogMessage, bind, try_catch, emit, call, logger.
    now rewrite Hc, Hg.
  - intros entity w e w' Hc Hg Hs.
    unfold sendLogMessage, bind, try_catch, emit, call, logger.
    rewrite Hc, Hg. cbn [client world]. now rewrite Hs.
  - intros Hc.
    unfold sendLogMessage, bind, try_catch, emit, call, logger.
    now rewrite Hc.
  - intros Hc. split.
    + intros chatId.
      destruct (sendMessageWithLogging_run chatId text logChatId s Hc)
        as (res & tr & s' & Hrun & _).
      now exists res, tr, s'.
    + intros n tot.
      destruct (rounds_sound chatIds text logChatId interval n tot s Hc)
        as (tot' & trs & s' & Hrun & _).
      now exists tot', (concat trs), s'.
Qed.

End Dispatch.

(** ** Start-up *)

Section Startup.

Context {T : Type} `{TelegramClient T}.

Import Trace AppService.

Lemma loggers_silent l :
  forallb is_logger l = true ->
  attempts l = [] /\ audits l = [] /\ sleeps l = [].
Proof.
  intros Hl. rewrite <- (app_nil_r l). repeat split.
  - now rewrite (attempts_loggers _ _ Hl).
  - apply (flat_map_unseen _ is_logger l []); [now intros []|exact Hl].
  - now rewrite (sleeps_loggers _ _ Hl).
Qed.

Lemma logged_loggers (logged : list (Level * string)) :
  forallb is_logger (map (fun l => EvLogger (fst l) (snd l)) logged) = true.
Proof. now induction logged. Qed.

(** [initializeClient] emits log lines only. *)
Lemma initializeClient_run (s : State (T := T)) :
  exists c tr s',
    initializeClient s = (c, tr, s') /\ forallb is_logger tr = true.
Proof.
  unfold initializeClient.
  destruct (start (world s)) as [[[|assigned e] logged] w].
  - eexists _, _, _. split; [reflexivity|]. apply logged_loggers.
  - eexists _, _, _. split; [reflexivity|].
    rewrite forallb_app, logged_loggers. reflexivity.
Qed.

(** C8. When the list of destinations read from the configuration is
    empty, [sendTestMessage] does not enter the loop: it sends no audit
    report, makes no attempt and never sleeps; and once the client is
    initialized it logs exactly one error line, that no target chat was
    found, and returns. *)
Theorem empty_targets_never_start (n : nat) (env : gmap string string)
  (s : State (T := T)) :
  targetChats env = [] ->
  exists c tr s',
    sendTestMessage n env s = (c, tr, s')
    /\ (forall tot, c <> Normal (InsideLoop tot))
    /\ audits tr = [] /\ attempts tr = [] /\ sleeps tr = []
    /\ (forall init_tr s1,
          initializeClient s = (Normal tt, init_tr, s1) ->
          c = Normal Returned
          /\ s' = s1
          /\ exists l,
               tr = EvLogger LevelLog
                      "📤 Starting bulk message sending with env config..."
                      :: init_tr
                      ++ EvLogger LevelError
                           "❌ No target chats found in TARGET_CHATS env variable"
                      :: l
               /\ forallb is_logger l = true
               /\ errors l = []).
Proof.
  intros Hempty. unfold sendTestMessage. rewrite Hempty. cbn [length Nat.eqb].
  destruct (initializeClient_run s) as ([[]|e] & init_tr & s1 & Hinit & Hlog).
  - eexists _, _, _. split; [|split; [|split; [|split; [|split]]]].
    + eapply run_bind; [apply run_logger|]. cbv beta.
      eapply run_bind; [exact Hinit|]. cbv beta.
      eapply run_bind; [apply run_logger|]. cbv beta.
      eapply run_bind; [apply run_logger|]. cbv beta.
      eapply run_bind; [apply run_logger|]. reflexivity.
    + discriminate.
    + apply loggers_silent. cbn [app forallb is_logger andb].
      rewrite forallb_app, Hlog. reflexivity.
    + apply loggers_silent. cbn [app forallb is_logger andb].
      rewrite forallb_app, Hlog. reflexivity.
    + apply loggers_silent. cbn [app forallb is_logger andb].
      rewrite forallb_app, Hlog. reflexivity.
    + intros init_tr' s1' Hinit'. rewrite Hinit in Hinit'.
      injection Hinit' as <- <-. split; [reflexivity|]. split; [reflexivity|].
      eexists. split; [reflexivity|]. split; reflexivity.
  - eexists _, _, _. split; [|split; [|split; [|split; [|split]]]].
    + eapply run_bind; [apply run_logger|]. cbv beta.
      eapply run_bind_throw. exact Hinit.
    + discriminate.
    + apply loggers_silent. cbn [app forallb is_logger andb]. exact Hlog.
    + apply loggers_silent. cbn [app forallb is_logger andb]. exact Hlog.
    + apply loggers_silent. cbn [app forallb is_logger andb]. exact Hlog.
    + intros init_tr' s1' Hinit'. rewrite Hinit in Hinit'. discriminate.
Qed.

End Startup.

(** ** The scenarios of the specification, run on the scripted client *)

Section Scenarios.

Import Trace Shape Script.

Let run_three :=
  round chats "hi" "-4872735777" (JNum 0) initialTotals (ready three).

Let run_calm :=
  round chats "hi" "-4872735777" (JNum 0) initialTotals (ready calm).

(** Three destinations, the second answers with a flood wait of 120
    seconds: two attempts, one pause report naming 2/3, no completion
    report, no sleep after the pause. *)
Example scenario_second_rate_limited :
  attempts (snd (fst run_three))
  = [(0%nat, "-1001", ResTrue); (1%nat, "-1002", ResFloodWait)]
  /\ round_reports (snd (fst run_three))
     = [ RoundStarted "01.01.2025, 12:00:00" 1 3 0 0 0;
         RoundPaused "01.01.2025, 12:00:00" 1 2 3 1 0 ]
  /\ includes (render (RoundPaused "01.01.2025, 12:00:00" 1 2 3 1 0))
       "Round progress: 2/3 chats processed" = true
  /\ sleeps (snd (fst run_three)) = [(BetweenMessages, JNum 0)]
  /\ fst (fst run_three)
     = Normal {| totalSuccessCount := 1; totalFailCount := 0;
                 totalFloodWaitCount := 1; roundNumber := 2 |}.
Proof. vm_compute. repeat split. Qed.

(** Three destinations, interval 0, all succeed. *)
Example scenario_all_succeed :
  attempts (snd (fst run_calm))
  = [(0%nat, "-1001", ResTrue); (1%nat, "-1002", ResTrue); (2%nat, "-1003", ResTrue)]
  /\ round_reports (snd (fst run_calm))
     = [ RoundStarted "01.01.2025, 12:00:00" 1 3 0 0 0;
         RoundCompleted "01.01.2025, 12:00:00" 1 3 0 3 0 0 (JNum 0) ]
  /\ fst (fst run_calm)
     = Normal {| totalSuccessCount := 3; totalFailCount := 0;
                 totalFloodWaitCount := 0; roundNumber := 2 |}.
Proof. vm_compute. repeat split. Qed.

(** A flood wait of 0 seconds is classified as a rate limit and yet
    reported to the round as a plain failure: [waitTime > 0] is false. *)
Example scenario_flood_wait_zero :
  outcome_of (analyzeError (floodWait "0")) = Some (RateLimited 0)
  /\ fst (fst (catch_block "-1002" "-4872735777" (floodWait "0") (ready three)))
     = Normal ResFalse.
Proof. vm_compute. repeat split. Qed.

End Scenarios.

(** ** Instances of the theorems on the scripted client *)

#[local] Existing Instance Script.scripted.


(** The scenario of the specification: three destinations, the second
    rate limited. The round stops after 2 attempts, with one pause report
    of progress 2/3 and no completion report. *)
Lemma round_paused_report_witness :
  exists tot' tr s' started time pre l,
    round Script.chats "hi" "-4872735777" (JNum 0) initialTotals
      (Script.ready Script.three) = (Normal tot', tr, s')
    /\ Trace.is_started started = true
    /\ Shape.round_reports tr = [started; RoundPaused time 1 2 3 1 0]
    /\ includes (render (RoundPaused time 1 2 3 1 0)) "Round progress: 2/3" = true
    /\ tr = pre ++ EvAudit (RoundPaused time 1 2 3 1 0) :: l
    /\ forallb Trace.is_logger l = true
    /\ Forall (fun p => fst p = BetweenMessages) (Trace.sleeps tr)
    /\ length (Trace.attempts tr) = 2%nat.
Proof.
  assert (Hcall : In (1%nat, "-1002", ResFloodWait)
                    (Calls.round_deliveries Script.chats "hi" "-4872735777" (JNum 0)
                       initialTotals (Script.ready Script.three)))
    by (vm_compute; right; left; reflexivity).
  destruct (round_paused_report Script.chats "hi" "-4872735777" (JNum 0)
              initialTotals (Script.ready Script.three) 1 "-1002" eq_refl Hcall)
    as (tot' & tr & s' & started & time & pre & l & Hrun & Hcalls & Hst & Hrep
        & Hinc & Htr & Hl & Hsl & Hlen).
  assert (Hok : Trace.count_result ResTrue (Trace.attempts tr) = 1%Z)
    by (rewrite Hcalls; vm_compute; reflexivity).
  assert (Hfailed : Trace.count_result ResFalse (Trace.attempts tr) = 0%Z)
    by (rewrite Hcalls; vm_compute; reflexivity).
  rewrite Hok, Hfailed in Hrep, Hinc, Htr.
  exists tot', tr, s', started, time, pre, l.
  split; [exact Hrun|]. split; [exact Hst|]. split; [exact Hrep|].
  split; [exact Hinc|]. split; [exact Htr|]. split; [exact Hl|].
  split; [exact Hsl | exact Hlen].
Defined.

Lemma rounds_counters_witness :
  exists tot' trs s',
    rounds Script.chats "hi" "-4872735777" (JNum 0) 2 initialTotals
      (Script.ready Script.three) = (Normal tot', concat trs, s')
    /\ length trs = 2%nat
    /\ roundNumber tot' = 3%Z.
Proof.
  destruct (rounds_counters Script.chats "hi" "-4872735777" (JNum 0) 2
              initialTotals (Script.ready Script.three) eq_refl)
    as (tot' & trs & s' & Hrun & Hlen & Hn & _).
  exists tot', trs, s'. split; [exact Hrun|]. split; [exact Hlen|]. exact Hn.
Defined.

Lemma flood_stops_round_witness :
  exists tot' trs s',
    rounds Script.chats "hi" "-4872735777" (JNum 0) 3 initialTotals
      (Script.ready Script.three) = (Normal tot', concat trs, s')
    /\ length trs = 3%nat
    /\ ~ In (ExtraCooldown, JNum 300000) (Trace.sleeps (concat trs)).
Proof.
  destruct (proj1 (proj2 (flood_stops_round Script.chats "hi" "-4872735777" (JNum 0)
                            initialTotals (Script.ready Script.three) eq_refl)) 3%nat)
    as (tot' & trs & s' & Hrun & Hlen & Hno).
  exists tot', trs, s'. split; [exact Hrun|]. split; [exact Hlen|]. apply Hno.
Defined.

(** A rate limit counted in a round that was not stopped (values the loop
    never produces) is followed by the cooldown. *)
Lemma cooldown_iff_witness :
  exists tr s',
    after_loop "-4872735777" (JNum 0) initialTotals
      {| roundSuccessCount := 2; roundFailCount := 0;
         roundFloodWaitCount := 1; roundStopped := false |}
      (Script.ready Script.three)
    = (Normal (Shape.next_round initialTotals), tr, s')
    /\ In (ExtraCooldown, JNum 300000) (Trace.sleeps tr).
Proof.
  destruct (cooldown_iff "-4872735777" (JNum 0) initialTotals
              {| roundSuccessCount := 2; roundFailCount := 0;
                 roundFloodWaitCount := 1; roundStopped := false |}
              (Script.ready Script.three))
    as (tr & s' & Hrun & Hiff & _).
  exists tr, s'. split; [exact Hrun|]. apply Hiff. split; [reflexivity|reflexivity].
Defined.

(** The audit chat cannot be resolved: the report is lost, an error line is
    logged, the call returns. *)
Lemma sendLogMessage_never_throws_witness :
  sendLogMessage "nowhere" (MessageSent "now" "one" "link") (Script.ready Script.three)
  = (Normal tt,
     [EvAudit (MessageSent "now" "one" "link");
      EvLogger LevelError
        ("Failed to send log message: "
           +:+ show_property (message (Script.notFound "nowhere")))],
     Script.ready Script.three).
Proof.
  apply (proj1 (proj2 (sendLogMessage_never_throws Script.chats "hi" "nowhere" (JNum 0)
                         (MessageSent "now" "one" "link") (Script.ready Script.three))));
    reflexivity.
Defined.

Lemma empty_targets_never_start_witness :
  exists c tr s',
    AppService.sendTestMessage 3 {[ "TARGET_CHATS" := " , ," ]}
      (Script.ready Script.three) = (c, tr, s')
    /\ (forall tot, c <> Normal (AppService.InsideLoop tot))
    /\ Trace.audits tr = [] /\ Trace.attempts tr = [] /\ Trace.sleeps tr = [].
Proof.
  assert (Hempty : AppService.targetChats {[ "TARGET_CHATS" := " , ," ]} = [])
    by (vm_compute; reflexivity).
  destruct (empty_targets_never_start 3 {[ "TARGET_CHATS" := " , ," ]}
              (Script.ready Script.three) Hempty)
    as (c & tr & s' & Hrun & Hloop & Ha & Hb & Hc & _).
  now exists c, tr, s'.
Defined.

(** * Further properties of the program *)

(** ** Trimming *)

Section Trimming.

Import Token.

Lemma append_nil_r (s : string) : s +:+ "" = s.
Proof.
  induction s as [|c s IH]; [reflexivity|].
  change (String c s +:+ "") with (String c (s +:+ "")). now rewrite IH.
Qed.

Lemma append_cons c (s t : string) : String c s +:+ t = String c (s +:+ t).
Proof. reflexivity. Qed.

Lemma rev_onto_app s : forall acc, rev_onto s acc = rev s +:+ acc.
Proof.
  unfold rev. induction s as [|c s IH]; intros acc; [reflexivity|].
  cbn [rev_onto]. rewrite (IH (String c acc)), (IH (String c "")).
  now rewrite append_assoc_r.
Qed.

Lemma rev_cons c s : rev (String c s) = rev s +:+ String c "".
Proof. unfold rev at 1. cbn [rev_onto]. apply rev_onto_app. Qed.

Lemma rev_app s t : rev (s +:+ t) = rev t +:+ rev s.
Proof.
  induction s as [|c s IH].
  - change ("" +:+ t) with t. now rewrite append_nil_r.
  - rewrite append_cons, !rev_cons, IH. apply append_assoc_r.
Qed.

Lemma rev_involutive s : rev (rev s) = s.
Proof.
  induction s as [|c s IH]; [reflexivity|].
  rewrite rev_cons, rev_app, IH. reflexivity.
Qed.

Lemma trimStart_clean s : clean_head s -> trimStart s = s.
Proof.
  destruct s as [|c1 [|c2 [|c3 t3]]]; cbn [clean_head trimStart]; try reflexivity.
  - now intros [-> _].
  - now intros [-> [-> _]].
  - now intros [-> [-> ->]].
Qed.

Lemma trimStart_rev_clean s : clean_head_rev s -> trimStart_rev s = s.
Proof.
  destruct s as [|c1 [|c2 [|c3 t3]]]; cbn [clean_head_rev trimStart_rev];
    try reflexivity.
  - now intros [-> _].
  - now intros [-> [-> _]].
  - now intros [-> [-> ->]].
Qed.

(** What [trimStart] returns starts with no white space, and is what is left
    of the text after some prefix. *)
Lemma trimStart_spec n : forall s,
  (String.length s <= n)%nat ->
  clean_head (trimStart s) /\ exists pre, s = pre +:+ trimStart s.
Proof.
  induction n as [|n IH]; intros s Hn.
  - destruct s; [|cbn in Hn; lia]. split; [exact I|now exists ""].
  - destruct s as [|c1 t1]; [split; [exact I|now exists ""]|].
    cbn [String.length] in Hn. cbn [trimStart].
    destruct (ws1 c1) eqn:H1.
    { destruct (IH t1 ltac:(lia)) as [Hc [pre Hpre]]. split; [exact Hc|].
      exists (String c1 pre). now rewrite append_cons, <- Hpre. }
    destruct t1 as [|c2 t2]; [split; [now cbn; rewrite H1|now exists ""]|].
    cbn [String.length] in Hn.
    destruct (ws2 c1 c2) eqn:H2.
    { destruct (IH t2 ltac:(lia)) as [Hc [pre Hpre]]. split; [exact Hc|].
      exists (String c1 (String c2 pre)). now rewrite !append_cons, <- Hpre. }
    destruct t2 as [|c3 t3]; [split; [now cbn; rewrite H1, H2|now exists ""]|].
    cbn [String.length] in Hn.
    destruct (ws3 c1 c2 c3) eqn:H3.
    { destruct (IH t3 ltac:(lia)) as [Hc [pre Hpre]]. split; [exact Hc|].
      exists (String c1 (String c2 (String c3 pre))).
      now rewrite !append_cons, <- Hpre. }
    split; [now cbn; rewrite H1, H2, H3|now exists ""].
Qed.

Lemma trimStart_rev_spec n : forall s,
  (String.length s <= n)%nat ->
  clean_head_rev (trimStart_rev s) /\ exists pre, s = pre +:+ trimStart_rev s.
Proof.
  induction n as [|n IH]; intros s Hn.
  - destruct s; [|cbn in Hn; lia]. split; [exact I|now exists ""].
  - destruct s as [|c1 t1]; [split; [exact I|now exists ""]|].
    cbn [String.length] in Hn. cbn [trimStart_rev].
    destruct (ws1 c1) eqn:H1.
    { destruct (IH t1 ltac:(lia)) as [Hc [pre Hpre]]. split; [exact Hc|].
      exists (String c1 pre). now rewrite append_cons, <- Hpre. }
    destruct t1 as [|c2 t2]; [split; [now cbn; rewrite H1|now exists ""]|].
    cbn [String.length] in Hn.
    destruct (ws2 c2 c1) eqn:H2.
    { destruct (IH t2 ltac:(lia)) as [Hc [pre Hpre]]. split; [exact Hc|].
      exists (String c1 (String c2 pre)). now rewrite !append_cons, <- Hpre. }
    destruct t2 as [|c3 t3]; [split; [now cbn; rewrite H1, H2|now exists ""]|].
    cbn [String.length] in Hn.
    destruct (ws3 c3 c2 c1) eqn:H3.
    { destruct (IH t3 ltac:(lia)) as [Hc [pre Hpre]]. split; [exact Hc|].
      exists (String c1 (String c2 (String c3 pre))).
      now rewrite !append_cons, <- Hpre. }
    split; [now cbn; rewrite H1, H2, H3|now exists ""].
Qed.

(** A prefix of a text with a clean head has a clean head. *)
Lemma clean_head_prefix p q : clean_head (p +:+ q) -> clean_head p.
Proof.
  destruct p as [|c1 [|c2 [|c3 t3]]]; cbn [clean_head]; try exact (fun _ => I).
  - rewrite append_cons. cbn [clean_head]. tauto.
  - rewrite !append_cons. cbn [clean_head]. tauto.
  - rewrite !append_cons. cbn [clean_head]. tauto.
Qed.

(** [trim] leaves a text that it does not change any more, and that is
    an infix of the text it was given. *)
Lemma trim_spec s :
  trim (trim s) = trim s /\ exists pre post, s = pre +:+ trim s +:+ post.
Proof.
  unfold trim, trimEnd.
  destruct (trimStart_spec (String.length s) s (le_n _)) as [Hu [pre Hpre]].
  set (u := trimStart s) in *.
  destruct (trimStart_rev_spec (String.length (rev u)) (rev u) (le_n _))
    as [Hx [post Hpost]].
  set (x := trimStart_rev (rev u)) in *.
  assert (Hu' : u = rev x +:+ rev post).
  { rewrite <- (rev_involutive u), Hpost. apply rev_app. }
  split.
  - rewrite (trimStart_clean (rev x)).
    + now rewrite rev_involutive, (trimStart_rev_clean x Hx).
    + apply (clean_head_prefix _ (rev post)). now rewrite <- Hu'.
  - exists pre, (rev post). now rewrite <- Hu'.
Qed.

End Trimming.

(** ** The list of destinations *)

Section Destinations.

Import Token AppService.

Lemma every_app p a b : every p (a +:+ b) = every p a && every p b.
Proof.
  induction a as [|c a IH]; [reflexivity|].
  rewrite append_cons. cbn [every]. now rewrite IH, andb_assoc.
Qed.

Lemma split_comma_pieces s :
  Forall (fun piece => every not_comma piece = true) (split_comma s).
Proof.
  induction s as [|c s IH]; [now repeat constructor|].
  cbn [split_comma]. destruct (Ascii.eqb c ","%char) eqn:Hc.
  - now constructor.
  - destruct (split_comma s) as [|h r].
    + constructor; [|constructor]. cbn [every]. unfold not_comma. now rewrite Hc.
    + inversion IH as [|? ? Hh Hr]; subst. constructor; [|exact Hr].
      cbn [every]. unfold not_comma at 1. now rewrite Hc, Hh.
Qed.

Lemma split_comma_plain a :
  every not_comma a = true -> split_comma a = [a].
Proof.
  induction a as [|c a IH]; [reflexivity|].
  cbn [every split_comma]. unfold not_comma at 1.
  rewrite andb_true_iff, negb_true_iff. intros [-> Ha]. now rewrite (IH Ha).
Qed.

Lemma split_comma_app a rest :
  every not_comma a = true ->
  split_comma (a +:+ "," +:+ rest) = a :: split_comma rest.
Proof.
  induction a as [|c a IH]; [reflexivity|].
  cbn [every]. unfold not_comma at 1.
  rewrite andb_true_iff, negb_true_iff. intros [Hc Ha].
  rewrite append_cons. cbn [split_comma]. now rewrite Hc, (IH Ha).
Qed.

Lemma every_separator_pad (spaced : bool) :
  every not_comma (if spaced then " " else "") = true.
Proof. now destruct spaced. Qed.

Lemma separator_pad (spaced : bool) :
  separator spaced = "," +:+ (if spaced then " " else "").
Proof. now destruct spaced. Qed.

(** The pieces of a joined list: the elements, each after the first with
    the padding of the separator in front. *)
Lemma split_comma_concat_padded pad l :
  every not_comma pad = true ->
  forall b,
    Forall (fun t => every not_comma t = true) (b :: l) ->
    split_comma (pad +:+ String.concat ("," +:+ pad) (b :: l))
    = map (fun t => pad +:+ t) (b :: l).
Proof.
  intros Hpad. induction l as [|b' l IH]; intros b Hall.
  - inversion Hall as [|? ? Hb _]; subst. cbn [String.concat map].
    apply split_comma_plain. now rewrite every_app, Hb, Hpad.
  - inversion Hall as [|? ? Hb Hrest]; subst.
    change (String.concat ("," +:+ pad) (b :: b' :: l))
      with (b +:+ ("," +:+ pad) +:+ String.concat ("," +:+ pad) (b' :: l)).
    rewrite (append_assoc_r "," pad), <- (append_assoc_r pad b).
    rewrite split_comma_app.
    + rewrite (IH b' Hrest). reflexivity.
    + now rewrite every_app, Hb, Hpad.
Qed.

Lemma split_comma_concat (spaced : bool) l :
  Forall (fun t => every not_comma t = true) l ->
  l <> [] ->
  split_comma (String.concat (separator spaced) l)
  = match l with
    | [] => []
    | a :: l' => a :: map (fun t => (if spaced then " " else "") +:+ t) l'
    end.
Proof.
  intros Hall Hne. rewrite separator_pad.
  destruct l as [|a [|b l]]; [contradiction| |].
  - inversion Hall; subst. now apply split_comma_plain.
  - inversion Hall as [|? ? Ha Hrest]; subst.
    change (String.concat ("," +:+ (if spaced then " " else "")) (a :: b :: l))
      with (a +:+ ("," +:+ (if spaced then " " else ""))
              +:+ String.concat ("," +:+ (if spaced then " " else "")) (b :: l)).
    rewrite (append_assoc_r "," _).
    rewrite (split_comma_app _ _ Ha). f_equal.
    apply split_comma_concat_padded; [apply every_separator_pad|exact Hrest].
Qed.

Lemma trim_padded (spaced : bool) t :
  trim ((if spaced then " " else "") +:+ t) = trim t.
Proof. now destruct spaced. Qed.

(** X1. Every destination [sendTestMessage] derives from [TARGET_CHATS] is
    not empty, holds no comma, and has no white space at either end
    ([trim] does not change it). *)
Theorem targetChats_tokens (env : gmap string string) :
  Forall (fun chat => chat <> "" /\ every not_comma chat = true /\ trim chat = chat)
    (targetChats env).
Proof.
  unfold targetChats. set (v := or_else (env !! "TARGET_CHATS") "").
  pose proof (split_comma_pieces v) as Hpieces.
  induction (split_comma v) as [|piece pieces IH]; [constructor|].
  inversion Hpieces as [|? ? Hpiece Hrest]; subst.
  cbn [map List.filter]. destruct (is_empty (trim piece)) eqn:He; cbn [negb].
  - now apply IH.
  - constructor; [|now apply IH].
    destruct (trim_spec piece) as [Hidem (pre & post & Hinfix)].
    split; [|split].
    + intros Heq. now rewrite Heq in He.
    + rewrite Hinfix, !every_app, !andb_true_iff in Hpiece. tauto.
    + exact Hidem.
Qed.

(** X2. Round trip of the configuration: when destinations that are not
    empty, hold no comma and have no white space at either end are joined
    with ["," ] or [", "] and given as [TARGET_CHATS], [sendTestMessage]
    derives exactly these destinations, in the same order. *)
Theorem targetChats_round_trip (env : gmap string string) (l : list string)
  (spaced : bool) :
  Forall (fun chat => chat <> "" /\ every not_comma chat = true /\ trim chat = chat) l ->
  env !! "TARGET_CHATS" = Some (String.concat (separator spaced) l) ->
  targetChats env = l.
Proof.
  intros Hall Henv. unfold targetChats. rewrite Henv.
  destruct l as [|a l]; [reflexivity|].
  assert (Hne : String.concat (separator spaced) (a :: l) <> "").
  { inversion Hall as [|? ? [Ha _] _]; subst.
    destruct l; cbn [String.concat]; [exact Ha|]. destruct a; [contradiction|discriminate]. }
  assert (Hor : or_else (Some (String.concat (separator spaced) (a :: l))) ""
                = String.concat (separator spaced) (a :: l)).
  { cbn [or_else]. now destruct (String.concat (separator spaced) (a :: l)). }
  rewrite Hor, split_comma_concat;
    [|eapply Forall_impl; [exact Hall|]; now intros t (_ & Ht & _)|discriminate].
  clear Hne Hor Henv.
  inversion Hall as [|? ? (Ha & _ & Hta) Hrest]; subst.
  cbn [map List.filter]. rewrite Hta.
  destruct a; [contradiction|]. cbn [is_empty negb]. f_equal.
  clear Ha Hta Hall. induction l as [|b l IH]; [reflexivity|].
  inversion Hrest as [|? ? (Hb & _ & Htb) Hrest']; subst.
  cbn [map List.filter]. rewrite trim_padded, Htb.
  destruct b; [contradiction|]. cbn [is_empty negb]. f_equal. now apply IH.
Qed.

Lemma targetChats_round_trip_witness :
  AppService.targetChats
    {[ "TARGET_CHATS" := String.concat (separator true) ["-1001"; "@news"; "-1003"] ]}
  = ["-1001"; "@news"; "-1003"].
Proof.
  apply (targetChats_round_trip _ ["-1001"; "@news"; "-1003"] true).
  - repeat constructor; discriminate.
  - vm_compute. reflexivity.
Defined.

End Destinations.

(** ** The message text *)

Section MessageText.

Import Token AppService.

Lemma unescape_head c t :
  exists r,
    unescape_newlines (String c t) = String c r
    \/ unescape_newlines (String c t) = String (ascii_of_nat 10) r.
Proof.
  cbn [unescape_newlines]. destruct t as [|c' t']; [exists ""; now left|].
  destruct (Ascii.eqb c backslash && Ascii.eqb c' "n"%char);
    eexists; [right|left]; reflexivity.
Qed.

Lemma unescape_no_escape n : forall s,
  (String.length s <= n)%nat ->
  includes (unescape_newlines s) (String backslash "n") = false.
Proof.
  induction n as [|n IH]; intros s Hn.
  - destruct s; [reflexivity|cbn in Hn; lia].
  - destruct s as [|c t]; [reflexivity|]. cbn [String.length] in Hn.
    cbn [unescape_newlines]. destruct t as [|c' t']; [|cbn [String.length] in Hn].
    + cbn [includes startsWith]. now rewrite andb_false_r.
    + destruct (Ascii.eqb c backslash && Ascii.eqb c' "n"%char) eqn:Hesc.
      * cbn [includes startsWith]. cbn [Ascii.eqb Bool.eqb andb].
        apply IH. lia.
      * rewrite includes_unfold. rewrite (IH (String c' t')) by (cbn; lia).
        cbn [startsWith].
        destruct (Ascii.eqb_spec backslash c) as [<-|_]; [|reflexivity].
        cbn [andb]. rewrite Ascii.eqb_refl in Hesc. cbn [andb] in Hesc.
        destruct (unescape_head c' t') as [r [-> | ->]]; cbn [startsWith].
        -- rewrite Ascii.eqb_sym, Hesc. reflexivity.
        -- reflexivity.
Qed.

Lemma unescape_plain s :
  every (fun c => negb (Ascii.eqb c backslash)) s = true ->
  unescape_newlines s = s.
Proof.
  induction s as [|c t IH]; [reflexivity|].
  cbn [every]. rewrite andb_true_iff, negb_true_iff. intros [Hc Ht].
  cbn [unescape_newlines]. destruct t as [|c' t']; [reflexivity|].
  rewrite Hc. cbn [andb]. now rewrite (IH Ht).
Qed.

(** A text that holds no escaped line feed is not changed. *)
Lemma unescape_clean s :
  includes s (String backslash "n") = false -> unescape_newlines s = s.
Proof.
  induction s as [|c t IH]; [reflexivity|].
  rewrite includes_unfold.
  destruct (startsWith (String c t) (String backslash "n")) eqn:Hstart;
    [discriminate|].
  intros Ht. cbn [unescape_newlines]. destruct t as [|c' t']; [reflexivity|].
  cbn [startsWith] in Hstart. rewrite andb_true_r in Hstart.
  rewrite (Ascii.eqb_sym c backslash), (Ascii.eqb_sym c' "n"%char), Hstart.
  now rewrite (IH Ht).
Qed.

(** An escaped line feed after a text that holds none becomes a line
    feed, and what follows is read on from there. *)
Lemma unescape_append a : forall b,
  includes a (String backslash "n") = false ->
  unescape_newlines (a +:+ String backslash "n" +:+ b)
  = a +:+ nl +:+ unescape_newlines b.
Proof.
  induction a as [|c a' IH]; intros b.
  - intros _. reflexivity.
  - rewrite includes_unfold.
    destruct (startsWith (String c a') (String backslash "n")) eqn:Hstart;
      [discriminate|].
    intros Ha'. change (String c a' +:+ ?x) with (String c (a' +:+ x)).
    cbn [unescape_newlines]. destruct a' as [|c' a''].
    + change ("" +:+ ?x) with x. change (String backslash "n" +:+ b)
        with (String backslash (String "n"%char b)).
      cbv iota.
      replace (Ascii.eqb c backslash && Ascii.eqb backslash "n"%char) with false
        by (now rewrite andb_false_r).
      reflexivity.
    + change (String c' a'' +:+ ?x) with (String c' (a'' +:+ x)). cbv iota.
      cbn [startsWith] in Hstart. rewrite andb_true_r in Hstart.
      rewrite (Ascii.eqb_sym c backslash), (Ascii.eqb_sym c' "n"%char), Hstart.
      f_equal. apply (IH b Ha').
Qed.

(** A text cut at its escaped line feeds is sent joined by line feeds. *)
Lemma unescape_join pieces :
  Forall (fun piece => includes piece (String backslash "n") = false) pieces ->
  unescape_newlines (String.concat (String backslash "n") pieces)
  = String.concat nl pieces.
Proof.
  induction pieces as [|piece rest IH]; [reflexivity|].
  intros Hall. inversion Hall as [|? ? Hpiece Hrest]; subst.
  destruct rest as [|next rest].
  - cbn [String.concat]. now apply unescape_clean.
  - change (String.concat ?sep (piece :: next :: rest))
      with (piece +:+ sep +:+ String.concat sep (next :: rest)).
    rewrite (unescape_append piece _ Hpiece). now rewrite (IH Hrest).
Qed.

(** X3. The message text [sendTestMessage] sends is the configured text
    with every escaped line feed (a backslash followed by [n]) turned into
    a line feed: a text cut at its escaped line feeds into pieces is sent
    as the pieces joined by line feeds.  So the text sent holds no escaped
    line feed any more, and a configured text with no backslash is sent as
    it is. *)
Theorem messageText_unescaped (env : gmap string string) :
  includes (messageText env) (String backslash "n") = false
  /\ (forall v, env !! "BULK_MESSAGE_TEXT" = Some v -> v <> "" ->
      every (fun c => negb (Ascii.eqb c backslash)) v = true ->
      messageText env = v)
  /\ (forall pieces,
        env !! "BULK_MESSAGE_TEXT"
        = Some (String.concat (String backslash "n") pieces) ->
        String.concat (String backslash "n") pieces <> "" ->
        Forall (fun piece => includes piece (String backslash "n") = false) pieces ->
        messageText env = String.concat nl pieces).
Proof.
  unfold messageText. split; [|split].
  - eapply unescape_no_escape. apply le_n.
  - intros v -> Hv Hplain. destruct v; [contradiction|].
    cbn [or_else is_empty]. now apply unescape_plain.
  - intros pieces -> Hne Hpieces.
    destruct (String.concat (String backslash "n") pieces) eqn:Htext;
      [contradiction|].
    cbn [or_else is_empty]. rewrite <- Htext. now apply unescape_join.
Qed.

Lemma messageText_unescaped_witness :
  messageText {[ "BULK_MESSAGE_TEXT" := "Hello, world" ]} = "Hello, world"
  /\ messageText
       {[ "BULK_MESSAGE_TEXT"
          := String.concat (String backslash "n") ["Dear all,"; "see you"; ""] ]}
     = String.concat nl ["Dear all,"; "see you"; ""].
Proof.
  split.
  - apply (proj1 (proj2 (messageText_unescaped
                           {[ "BULK_MESSAGE_TEXT" := "Hello, world" ]})));
      [vm_compute; reflexivity | discriminate | reflexivity].
  - apply (proj2 (proj2 (messageText_unescaped
                           {[ "BULK_MESSAGE_TEXT"
                              := String.concat (String backslash "n")
                                   ["Dear all,"; "see you"; ""] ]})));
      [vm_compute; reflexivity | discriminate | repeat constructor].
Defined.

End MessageText.

(** ** One attempt *)

Section Wait.

(** X4. The wait [analyzeError] returns is never [NaN] and never negative:
    it is an integer that is not negative, or the positive infinity.  It is
    positive exactly when the text of the error holds a rate-limit marker
    and its first integer, or 300 when it holds no digit, is positive.  For
    a marked text it is the double nearest to that integer, the integer
    itself when below 2^53; for any other text it is 0. *)
Theorem analyzeError_wait (error : JsError) :
  let text := errorMessageOf error in
  let marked := includes text "FLOOD_WAIT" || includes text "Too Many Requests" in
  let wait := match first_integer text with Some n => n | None => 300%Z end in
  (waitTime (analyzeError error) = JInf false
   \/ exists z, waitTime (analyzeError error) = JNum z /\ (0 <= z)%Z)
  /\ (Num.gt0 (waitTime (analyzeError error)) = true
      <-> marked = true /\ (0 < wait)%Z)
  /\ waitTime (analyzeError error) = (if marked then Num.double wait else JNum 0)
  /\ (marked = true -> exact wait -> waitTime (analyzeError error) = JNum wait).
Proof.
  cbv zeta. set (text := errorMessageOf error).
  assert (Hwait : (0 <= match first_integer text with
                        | Some n => n | None => 300%Z end)%Z).
  { destruct (first_integer text) as [n|] eqn:Hn; [|lia].
    now apply (first_integer_nonneg text). }
  unfold analyzeError. fold text.
  destruct (includes text "FLOOD_WAIT" || includes text "Too Many Requests").
  - cbv zeta. cbn [waitTime]. rewrite wait_from_text.
    set (wait := match first_integer text with Some n => n | None => 300%Z end) in *.
    split; [|split; [|split]].
    + destruct (double_cases wait) as [(v & -> & Hpos & Hneg) | [-> Hz]].
      * right. exists v. split; [reflexivity|]. lia.
      * left. destruct (Z.ltb_spec wait 0); [lia|reflexivity].
    + rewrite gt0_double, Z.ltb_lt. tauto.
    + reflexivity.
    + intros _ Hexact. apply double_exact. unfold exact in Hexact. lia.
  - assert (Hzero : forall info : ErrorInfo,
               waitTime info = JNum 0 ->
               (waitTime info = JInf false
                \/ exists z, waitTime info = JNum z /\ (0 <= z)%Z)
               /\ (Num.gt0 (waitTime info) = true
                   <-> false = true
                       /\ (0 < match first_integer text with
                               | Some n => n | None => 300%Z end)%Z)
               /\ waitTime info = JNum 0
               /\ (false = true ->
                   exact (match first_integer text with
                          | Some n => n | None => 300%Z end) ->
                   waitTime info
                   = JNum (match first_integer text with
                           | Some n => n | None => 300%Z end))).
    { intros info ->. split; [right; exists 0%Z; split; [reflexivity|lia]|].
      split; [|split; [reflexivity|discriminate]].
      cbn [Num.gt0]. split; [discriminate|]. now intros [? _]. }
    repeat match goal with
           | |- context [if ?b then _ else _] => destruct b
           end; now apply Hzero.
Qed.

End Wait.

Section Attempt.

Context {T : Type} `{TelegramClient T}.

Import Trace.

Variables (chatId text logChatId : string).

(** What the audit of a failed attempt says, and what the attempt returns. *)
Lemma catch_block_audit e (s : State (T := T)) :
  exists tr s',
    catch_block chatId logChatId e s
    = (Normal (if Num.gt0 (waitTime (analyzeError e)) then ResFloodWait else ResFalse),
       tr, s')
    /\ audits tr
       = [SendFailed (toLocaleString true (world s)) chatId
            (description (analyzeError e)) (action (analyzeError e))].
Proof.
  unfold catch_block. cbv zeta.
  destruct (sendLogMessage_run logChatId
              (SendFailed (toLocaleString true (world s)) chatId
                 (description (analyzeError e)) (action (analyzeError e))) s)
    as (l & s1 & Hlog & _ & Hl).
  destruct (Num.gt0 (waitTime (analyzeError e))) eqn:Hw.
  - eexists _, _. split.
    + run_next. run_next. run_next. run_next. reflexivity.
    + now destruct Hl as [-> | [line ->]].
  - eexists _, _. split.
    + run_next. run_next. run_next. reflexivity.
    + now destruct Hl as [-> | [line ->]].
Qed.

(** X5. With the client set, every call of [sendMessageWithLogging] returns
    and hands exactly one report to the audit: the success report, with the
    title and the link of the message, when the destination was resolved
    and the message transmitted, and the call returns [true]; the failure
    report of the classified error when resolving or transmitting threw,
    and the call returns ['flood_wait'] if the classified wait is positive
    and [false] otherwise. *)
Theorem sendMessageWithLogging_outcome (s : State (T := T)) :
  client s = true ->
  exists res tr s' report,
    sendMessageWithLogging chatId text logChatId s = (Normal res, tr, s')
    /\ audits tr = [report]
    /\ let failed_with (e : JsError) :=
         res = (if Num.gt0 (waitTime (analyzeError e)) then ResFloodWait else ResFalse)
         /\ exists time,
              report = SendFailed time chatId (description (analyzeError e))
                         (action (analyzeError e)) in
       match getEntity chatId (world s) with
       | (Throw e, _) => failed_with e
       | (Normal entity, w) =>
           match sendMessage entity text w with
           | (Throw e, _) => failed_with e
           | (Normal sent, w') =>
               res = ResTrue
               /\ report = MessageSent (toLocaleString true w') (getEntityTitle entity)
                             (getPostLink entity (sent_id sent))
           end
       end.
Proof.
  intros Hc. unfold sendMessageWithLogging.
  assert (Hm : clientMissing s = (Normal false, [], s))
    by (unfold clientMissing; now rewrite Hc).
  destruct (getEntity chatId (world s)) as [[entity|e] w] eqn:Hg.
  - destruct (sendMessage entity text w) as [[sent|e] w'] eqn:Hs.
    + destruct (sendLogMessage_run logChatId
                  (MessageSent (toLocaleString true w') (getEntityTitle entity)
                     (getPostLink entity (sent_id sent)))
                  {| client := true; world := w' |})
        as (l & s1 & Hlog & _ & Hl).
      eexists _, _, _, _. split; [|split].
      * run_next. eapply run_try_normal. unfold try_block.
        run_next. run_next. run_next. run_next. cbv zeta. run_next. run_next.
        reflexivity.
      * now destruct Hl as [-> | [line ->]].
      * cbv zeta. now split.
    + destruct (catch_block_audit e {| client := true; world := w' |})
        as (tr & s' & Hrun & Haud).
      eexists _, _, _, _. split; [|split].
      * run_next. eapply run_try_throw; [|exact Hrun]. unfold try_block.
        run_next. run_next. eapply run_bind_throw.
        eapply run_call; [reflexivity | exact Hs].
      * cbn [app]. exact Haud.
      * cbv zeta. split; [reflexivity|]. eexists. reflexivity.
  - destruct (catch_block_audit e {| client := true; world := w |})
      as (tr & s' & Hrun & Haud).
    eexists _, _, _, _. split; [|split].
    + run_next. eapply run_try_throw; [|exact Hrun]. unfold try_block.
      run_next. eapply run_bind_throw.
      eapply run_call; [exact Hc | exact Hg].
    + cbn [app]. exact Haud.
    + cbv zeta. split; [reflexivity|]. eexists. reflexivity.
Qed.

End Attempt.

Section Guard.

Context {T : Type} `{TelegramClient T}.

Import Trace.

(** X6. With the client set, the plain [sendMessage] returns for every
    behaviour of the client, hands nothing to the audit, and returns [true]
    exactly when the destination was resolved and the message transmitted;
    when it returns [false] it has logged exactly one error line. *)
Theorem sendMessage_outcome (chatId text : string) (s : State (T := T)) :
  client s = true ->
  exists b tr s',
    Unlogged.sendMessage chatId text s = (Normal b, tr, s')
    /\ audits tr = []
    /\ (b = true <->
        exists entity w sent w',
          getEntity chatId (world s) = (Normal entity, w)
          /\ sendMessage entity text w = (Normal sent, w'))
    /\ length (errors tr) = (if b then 0 else 1)%nat.
Proof.
  intros Hc. unfold Unlogged.sendMessage.
  assert (Hm : clientMissing s = (Normal false, [], s))
    by (unfold clientMissing; now rewrite Hc).
  destruct (getEntity chatId (world s)) as [[entity|e] w] eqn:Hg.
  - destruct (sendMessage entity text w) as [[sent|e] w'] eqn:Hs.
    + eexists _, _, _. split; [|split; [|split]].
      * run_next. eapply run_try_normal.
        run_next. run_next. run_next. run_next. reflexivity.
      * reflexivity.
      * split; [intros _; now exists entity, w, sent, w'|reflexivity].
      * reflexivity.
    + eexists _, _, _. split; [|split; [|split]].
      * run_next. eapply run_try_throw.
        -- run_next. run_next. eapply run_bind_throw.
           eapply run_call; [reflexivity|exact Hs].
        -- cbv beta. run_next. reflexivity.
      * reflexivity.
      * split; [discriminate|].
        intros (entity' & w0 & sent & w1 & [= <- <-] & Hs'). congruence.
      * reflexivity.
  - eexists _, _, _. split; [|split; [|split]].
    + run_next. eapply run_try_throw.
      * run_next. eapply run_bind_throw.
        eapply run_call; [exact Hc|exact Hg].
      * cbv beta. run_next. reflexivity.
    + reflexivity.
    + split; [discriminate|]. now intros (entity' & w0 & sent & w1 & [=] & _).
    + reflexivity.
Qed.

(** X7. Without a client (before [initializeClient]) both send methods
    throw "Telegram client not initialized" at once, emitting nothing; so a
    round over a list that is not empty throws that error at its first
    destination, after the start report, with no attempt completed and no
    sleep. *)
Theorem not_initialized_throws (chatIds : list string)
  (text logChatId : string) (interval : JsNumber) (tot : Totals)
  (s : State (T := T)) :
  client s = false ->
  (forall chatId,
      sendMessageWithLogging chatId text logChatId s = (Throw notInitialized, [], s)
      /\ Unlogged.sendMessage chatId text s = (Throw notInitialized, [], s))
  /\ (chatIds <> [] ->
      exists tr,
        round chatIds text logChatId interval tot s = (Throw notInitialized, tr, s)
        /\ (exists time, Shape.round_reports tr
                         = [RoundStarted time (roundNumber tot) (length chatIds)
                              (totalSuccessCount tot) (totalFailCount tot)
                              (totalFloodWaitCount tot)])
        /\ attempts tr = [] /\ sleeps tr = []).
Proof.
  intros Hc.
  assert (Hm : clientMissing s = (Normal true, [], s))
    by (unfold clientMissing; now rewrite Hc).
  assert (Hsend : forall chatId,
             sendMessageWithLogging chatId text logChatId s
             = (Throw notInitialized, [], s)).
  { intros chatId. unfold sendMessageWithLogging, bind. now rewrite Hm. }
  split.
  - intros chatId. split; [apply Hsend|].
    unfold Unlogged.sendMessage, bind. now rewrite Hm.
  - intros Hne. destruct chatIds as [|chatId rest]; [contradiction|].
    assert (Hlog : sendLogMessage logChatId
                     (RoundStarted (toLocaleString false (world s)) (roundNumber tot)
                        (length (chatId :: rest)) (totalSuccessCount tot)
                        (totalFailCount tot) (totalFloodWaitCount tot)) s
                   = (Normal tt,
                      [EvAudit (RoundStarted (toLocaleString false (world s))
                                  (roundNumber tot) (length (chatId :: rest))
                                  (totalSuccessCount tot) (totalFailCount tot)
                                  (totalFloodWaitCount tot));
                       EvLogger LevelError
                         ("Failed to send log message: "
                            +:+ show_property (message undefinedClient))], s)).
    { unfold sendLogMessage, bind, try_catch, emit, call, logger. now rewrite Hc. }
    eexists. split; [|split; [|split]].
    + unfold round. run_next. run_next. run_next.
      eapply run_bind_throw. cbn [for_loop]. run_next.
      eapply run_bind_throw. apply Hsend.
    + eexists. reflexivity.
    + reflexivity.
    + reflexivity.
Qed.

End Guard.

(** ** The schedule and the reports of a round *)

Section Schedule.

Import Trace Shape.

Variables (chatIds : list string) (interval : JsNumber).

Lemma sleeps_waiting i tr :
  sleeps (waiting chatIds interval i ++ tr)
  = (if (Z.of_nat i <? Z.of_nat (length chatIds) - 1)%Z
     then [(BetweenMessages, Num.mul interval 1000)] else [])
    ++ sleeps tr.
Proof. unfold waiting. now destruct (_ <? _)%Z. Qed.

Lemma loop_run_nil i tot rnd tr tot' rnd' :
  loop_run chatIds interval [] i tot rnd tr tot' rnd' -> tr = [].
Proof. now inversion 1. Qed.

(** Between the attempts of a loop, and nowhere else, the program sleeps
    for the interval. *)
Lemma loop_schedule rest i tot rnd tr tot' rnd' :
  loop_run chatIds interval rest i tot rnd tr tot' rnd' ->
  (i + length rest = length chatIds)%nat ->
  sleeps tr
  = repeat (BetweenMessages, Num.mul interval 1000) (length (attempts tr) - 1).
Proof.
  induction 1 as [i tot rnd
                 | chatId rest i tot rnd progress delivery time l Hp Hd Hl
                 | chatId rest i tot rnd progress delivery result tr tot' rnd'
                     Hres Hp Hd Hloop IH]; intros Hlen.
  - reflexivity.
  - rewrite (attempts_pause _ _ _ _ _ _ _ Hp Hd Hl).
    rewrite (sleeps_logger _ _ Hp), (sleeps_delivery _ _ Hd).
    cbn [sleeps flat_map app]. fold (sleeps l).
    now rewrite <- (app_nil_r l), (sleeps_loggers _ _ Hl).
  - rewrite (attempts_continue _ _ _ _ _ _ _ _ Hp Hd).
    rewrite (sleeps_logger _ _ Hp), (sleeps_delivery _ _ Hd).
    cbn [sleeps flat_map app]. fold (sleeps (waiting chatIds interval i ++ tr)).
    rewrite sleeps_waiting. cbn [length] in Hlen |- *.
    rewrite IH by lia.
    replace (S (length (attempts tr)) - 1)%nat with (length (attempts tr)) by lia.
    destruct rest as [|chatId' rest'].
    + rewrite (loop_run_nil _ _ _ _ _ _ Hloop).
      destruct (Z.ltb_spec (Z.of_nat i) (Z.of_nat (length chatIds) - 1));
        [cbn [length] in Hlen; lia|reflexivity].
    + destruct (loop_attempts _ _ _ _ _ _ _ _ _ Hloop) as (_ & _ & Hpos & _).
      specialize (Hpos ltac:(discriminate)).
      destruct (Z.ltb_spec (Z.of_nat i) (Z.of_nat (length chatIds) - 1));
        [|cbn [length] in Hlen; lia].
      destruct (length (attempts tr)) as [|k]; [lia|].
      replace (S k - 1)%nat with k by lia. reflexivity.
Qed.

Lemma loop_flood_once rest i tot rnd tr tot' rnd' :
  loop_run chatIds interval rest i tot rnd tr tot' rnd' ->
  (count_result ResFloodWait (attempts tr) <= 1)%Z.
Proof.
  induction 1 as [i tot rnd
                 | chatId rest i tot rnd progress delivery time l Hp Hd Hl
                 | chatId rest i tot rnd progress delivery result tr tot' rnd'
                     Hres Hp Hd Hloop IH].
  - now rewrite count_result_nil.
  - rewrite (attempts_pause _ _ _ _ _ _ _ Hp Hd Hl).
    now rewrite count_result_cons, count_result_nil.
  - rewrite (attempts_continue _ _ _ _ _ _ _ _ Hp Hd), count_result_cons.
    cbn [snd]. destruct result; [| |contradiction]; lia.
Qed.

Lemma count_result_total l :
  (count_result ResTrue l + count_result ResFalse l + count_result ResFloodWait l
   = Z.of_nat (length l))%Z.
Proof.
  induction l as [|a l IH]; [reflexivity|].
  rewrite !count_result_cons. cbn [length]. destruct (snd a); lia.
Qed.

(** The sleeps and the reports of one pass. *)
Lemma round_schedule tot tr tot' :
  round_run chatIds interval tot tr tot' ->
  sleeps tr
  = repeat (BetweenMessages, Num.mul interval 1000) (length (attempts tr) - 1)
      ++ (if existsb is_flood (attempts tr) then []
          else [(BetweenRounds, Num.mul interval 1000)]).
Proof.
  intros Hround.
  destruct (round_run_inv _ _ _ _ _ Hround)
    as (time0 & l0 & loop_tr & tot1 & rnd & done & -> & Hl0 & Hloop & Hdone & _ & Hatt).
  rewrite Hatt. cbn [sleeps flat_map app]. fold (sleeps (l0 ++ loop_tr ++ done)).
  rewrite (sleeps_loggers _ _ Hl0), sleeps_app.
  rewrite (loop_schedule _ _ _ _ _ _ _ Hloop eq_refl). f_equal.
  destruct (loop_stopped_iff_counted _ _ _ _ _ _ _ _ Hloop) as (Hst & _).
  rewrite <- Hst.
  destruct Hdone as [-> | time l -> Hl]; [reflexivity|].
  cbn [sleeps flat_map app].
  fold (sleeps (l ++ [EvSleep BetweenRounds (Num.mul interval 1000)])).
  now rewrite (sleeps_loggers _ _ Hl).
Qed.

Lemma round_completed tot tr tot' :
  round_run chatIds interval tot tr tot' ->
  existsb is_flood (attempts tr) = false ->
  exists time0 time,
    round_reports tr
    = [ RoundStarted time0 (roundNumber tot) (length chatIds)
          (totalSuccessCount tot) (totalFailCount tot) (totalFloodWaitCount tot);
        RoundCompleted time (roundNumber tot)
          (count_result ResTrue (attempts tr)) (count_result ResFalse (attempts tr))
          (totalSuccessCount tot') (totalFailCount tot') (totalFloodWaitCount tot')
          interval ]
    /\ length (attempts tr) = length chatIds
    /\ totalFloodWaitCount tot' = totalFloodWaitCount tot.
Proof.
  intros Hround Hcalm.
  destruct (round_run_inv _ _ _ _ _ Hround)
    as (time0 & l0 & loop_tr & tot1 & rnd & done & -> & Hl0 & Hloop & Hdone & -> & Hatt).
  rewrite Hatt in *.
  destruct (loop_stopped_iff_counted _ _ _ _ _ _ _ _ Hloop) as (Hst & _).
  rewrite Hcalm in Hst.
  destruct Hdone as [Hs | time l _ Hl]; [congruence|].
  destruct (loop_reports _ _ _ _ _ _ _ _ _ Hloop) as (Hnone & _).
  destruct (loop_counts _ _ _ _ _ _ _ _ _ Hloop) as (Hn & _ & _ & Hw & Hok & Hfail & _).
  destruct (loop_attempts _ _ _ _ _ _ _ _ _ Hloop) as (_ & _ & _ & Hall & _).
  cbn [newRound roundSuccessCount roundFailCount] in Hok, Hfail.
  rewrite Z.add_0_l in Hok, Hfail.
  exists time0, time. split; [|split].
  - cbn [round_reports flat_map is_delivery_report app].
    fold (round_reports (l0 ++ loop_tr
                           ++ EvAudit (RoundCompleted time (roundNumber tot1)
                                         (roundSuccessCount rnd) (roundFailCount rnd)
                                         (totalSuccessCount tot1) (totalFailCount tot1)
                                         (totalFloodWaitCount tot1) interval)
                           :: l ++ [EvSleep BetweenRounds (Num.mul interval 1000)])).
    rewrite (reports_loggers _ _ Hl0), reports_app, (Hnone Hcalm).
    cbn [round_reports flat_map is_delivery_report app].
    fold (round_reports (l ++ [EvSleep BetweenRounds (Num.mul interval 1000)])).
    rewrite (reports_loggers _ _ Hl). cbn [round_reports flat_map].
    now rewrite Hn, Hok, Hfail.
  - apply Hall. clear -Hcalm. induction (attempts loop_tr) as [|a l' IH]; [reflexivity|].
    cbn [existsb forallb] in *. apply orb_false_iff in Hcalm as [-> Hl'].
    now rewrite (IH Hl').
  - cbn [next_round totalFloodWaitCount]. rewrite Hw.
    rewrite (count_flood_none _ Hcalm). lia.
Qed.

End Schedule.

Section ManyRounds.

Import Trace Shape.

Variables (chatIds : list string) (interval : JsNumber).

Lemma round_flood_once tot tr tot' :
  round_run chatIds interval tot tr tot' ->
  (count_result ResFloodWait (attempts tr) <= 1)%Z.
Proof.
  intros Hround.
  destruct (round_run_inv _ _ _ _ _ Hround)
    as (time0 & l0 & loop_tr & tot1 & rnd & done & _ & _ & Hloop & _ & _ & ->).
  exact (loop_flood_once _ _ _ _ _ _ _ _ _ Hloop).
Qed.

Lemma rounds_flood_bound tot trs tot' :
  rounds_run chatIds interval tot trs tot' ->
  (count_result ResFloodWait (attempts (concat trs)) <= Z.of_nat (length trs))%Z.
Proof.
  induction 1 as [tot | tot tr tot1 trs tot2 Hround Hrounds IH].
  - cbn [concat attempts flat_map length]. now rewrite count_result_nil.
  - cbn [concat length]. rewrite attempts_app, count_result_app.
    pose proof (round_flood_once _ _ _ Hround). lia.
Qed.

Lemma rounds_sleep_values tot trs tot' :
  rounds_run chatIds interval tot trs tot' ->
  Forall (fun p => snd p = Num.mul interval 1000) (sleeps (concat trs)).
Proof.
  induction 1 as [tot | tot tr tot1 trs tot2 Hround Hrounds IH]; [constructor|].
  cbn [concat]. rewrite sleeps_app. apply Forall_app. split; [|exact IH].
  rewrite (round_schedule _ _ _ _ _ Hround). apply Forall_app. split.
  - induction (length (attempts tr) - 1)%nat as [|k IHk]; now constructor.
  - destruct (existsb is_flood (attempts tr)); now repeat constructor.
Qed.

Lemma in_firstn {A} (x : A) n : forall l, In x (firstn n l) -> In x l.
Proof.
  induction n as [|n IH]; intros [|y l]; cbn [firstn]; try contradiction.
  intros [->|Hin]; [now left|right; now apply IH].
Qed.

Lemma rounds_attempted tot trs tot' :
  rounds_run chatIds interval tot trs tot' ->
  Forall (fun a => In (snd (fst a)) chatIds) (attempts (concat trs)).
Proof.
  induction 1 as [tot | tot tr tot1 trs tot2 Hround Hrounds IH]; [constructor|].
  cbn [concat]. rewrite attempts_app. apply Forall_app. split; [|exact IH].
  destruct (round_attempts _ _ _ _ _ Hround) as (Hmap & _).
  apply List.Forall_forall. intros [[i c] r] Hin. cbn [fst snd].
  assert (Hic : In (i, c) (map fst (attempts tr))).
  { apply in_map_iff. now exists (i, c, r). }
  rewrite Hmap in Hic. apply in_firstn in Hic.
  unfold indexed in Hic. now apply in_combine_r in Hic.
Qed.

(** The start report of each pass: its number and the totals so far. *)
Lemma rounds_start_reports tot trs tot' :
  rounds_run chatIds interval tot trs tot' ->
  forall j tr, nth_error trs j = Some tr ->
  exists time rest,
    tr = EvAudit
           (RoundStarted time (roundNumber tot + Z.of_nat j) (length chatIds)
              (totalSuccessCount tot
               + count_result ResTrue (attempts (concat (firstn j trs))))
              (totalFailCount tot
               + count_result ResFalse (attempts (concat (firstn j trs))))
              (totalFloodWaitCount tot
               + count_result ResFloodWait (attempts (concat (firstn j trs)))))
         :: rest.
Proof.
  induction 1 as [tot | tot tr0 tot1 trs tot2 Hround Hrounds IH]; intros j tr Hj.
  - now destruct j.
  - destruct j as [|j].
    + cbn in Hj. injection Hj as <-.
      destruct (round_run_inv _ _ _ _ _ Hround)
        as (time0 & l0 & loop_tr & tot3 & rnd & done & -> & _).
      exists time0, (l0 ++ loop_tr ++ done).
      cbn [firstn concat attempts flat_map]. rewrite !count_result_nil, !Z.add_0_r.
      reflexivity.
    + cbn [nth_error] in Hj. destruct (IH j tr Hj) as (time & rest & ->).
      destruct (round_counts _ _ _ _ _ Hround) as (Hn & Hs & Hf & Hw).
      exists time, rest. cbn [firstn concat].
      rewrite attempts_app, !count_result_app, Hn, Hs, Hf, Hw.
      f_equal. f_equal. f_equal; lia.
Qed.

End ManyRounds.

Section RoundExtras.

Context {T : Type} `{TelegramClient T}.

Import Trace Shape.

Variables (chatIds : list string) (text logChatId : string) (interval : JsNumber).

Local Abbreviation round := (round chatIds text logChatId interval).
Local Abbreviation rounds := (rounds chatIds text logChatId interval).

(** X8. The delays of a round: the program sleeps for the interval exactly
    once between two consecutive attempts, once more at the end of a round
    that was not paused, and at no other time; a paused round ends with no
    delay at all. *)
Theorem round_delay_schedule (tot : Totals) (s : State (T := T)) :
  client s = true ->
  exists tot' tr s',
    round tot s = (Normal tot', tr, s')
    /\ sleeps tr
       = repeat (BetweenMessages, Num.mul interval 1000) (length (attempts tr) - 1)
           ++ (if existsb is_flood (attempts tr) then []
               else [(BetweenRounds, Num.mul interval 1000)]).
Proof.
  intros Hc.
  destruct (round_sound chatIds text logChatId interval tot s Hc)
    as (tot' & tr & s' & Hrun & _ & Hshape).
  exists tot', tr, s'. split; [exact Hrun|].
  exact (round_schedule _ _ _ _ _ Hshape).
Qed.

(** X9. A round in which no attempt is rate limited attempts every
    destination and emits, besides its start report, exactly one report:
    the completion report, with the numbers of attempts that succeeded and
    failed in the round (which add up to the number of destinations) and
    the totals after the round; the total of rate limits is unchanged. *)
Theorem round_completed_report (tot : Totals) (s : State (T := T)) :
  client s = true ->
  exists tot' tr s',
    round tot s = (Normal tot', tr, s')
    /\ (existsb is_flood (attempts tr) = false ->
        exists started time ok failed,
          is_started started = true
          /\ round_reports tr
             = [started;
                RoundCompleted time (roundNumber tot) ok failed
                  (totalSuccessCount tot + ok) (totalFailCount tot + failed)
                  (totalFloodWaitCount tot) interval]
          /\ ok = count_result ResTrue (attempts tr)
          /\ failed = count_result ResFalse (attempts tr)
          /\ (ok + failed)%Z = Z.of_nat (length chatIds)
          /\ length (attempts tr) = length chatIds).
Proof.
  intros Hc.
  destruct (round_sound chatIds text logChatId interval tot s Hc)
    as (tot' & tr & s' & Hrun & _ & Hshape).
  exists tot', tr, s'. split; [exact Hrun|]. intros Hcalm.
  destruct (round_completed _ _ _ _ _ Hshape Hcalm) as (time0 & time & Hrep & Hlen & Hw).
  destruct (round_counts _ _ _ _ _ Hshape) as (_ & Hs & Hf & _).
  pose proof (count_result_total (attempts tr)) as Htotal.
  rewrite (count_flood_none _ Hcalm), Hlen in Htotal.
  exists (RoundStarted time0 (roundNumber tot) (length chatIds)
            (totalSuccessCount tot) (totalFailCount tot) (totalFloodWaitCount tot)),
    time, (count_result ResTrue (attempts tr)), (count_result ResFalse (attempts tr)).
  split; [|split; [|split; [|split; [|split]]]].
  - reflexivity.
  - rewrite Hrep, Hs, Hf, Hw. reflexivity.
  - reflexivity.
  - reflexivity.
  - lia.
  - exact Hlen.
Qed.

(** X10. The start report of the round number [j] (counting from 0) of a
    run carries the round number of the start plus [j], the number of
    destinations, and as totals the totals of the start plus the attempts
    of the rounds before it, counted by result. *)
Theorem rounds_start_report (n : nat) (tot : Totals) (s : State (T := T)) :
  client s = true ->
  exists tot' trs s',
    rounds n tot s = (Normal tot', concat trs, s')
    /\ length trs = n
    /\ forall j tr, nth_error trs j = Some tr ->
       exists time rest,
         tr = EvAudit
                (RoundStarted time (roundNumber tot + Z.of_nat j) (length chatIds)
                   (totalSuccessCount tot
                    + count_result ResTrue (attempts (concat (firstn j trs))))
                   (totalFailCount tot
                    + count_result ResFalse (attempts (concat (firstn j trs))))
                   (totalFloodWaitCount tot
                    + count_result ResFloodWait (attempts (concat (firstn j trs)))))
              :: rest.
Proof.
  intros Hc.
  destruct (rounds_sound chatIds text logChatId interval n tot s Hc)
    as (tot' & trs & s' & Hrun & _ & Hlen & Hshape).
  exists tot', trs, s'. split; [exact Hrun|]. split; [exact Hlen|].
  intros j tr Hj. exact (rounds_start_reports _ _ _ _ _ Hshape j tr Hj).
Qed.

(** X11. Over any number of rounds the three totals together grow by
    exactly the number of attempts made, every attempted destination is one
    of the list, and the total of rate limits grows by at most one for each
    round. *)
Theorem rounds_accounting (n : nat) (tot : Totals) (s : State (T := T)) :
  client s = true ->
  exists tot' trs s',
    rounds n tot s = (Normal tot', concat trs, s')
    /\ (totalSuccessCount tot' + totalFailCount tot' + totalFloodWaitCount tot'
        = totalSuccessCount tot + totalFailCount tot + totalFloodWaitCount tot
          + Z.of_nat (length (attempts (concat trs))))%Z
    /\ (totalFloodWaitCount tot' <= totalFloodWaitCount tot + Z.of_nat n)%Z
    /\ Forall (fun a => In (snd (fst a)) chatIds) (attempts (concat trs)).
Proof.
  intros Hc.
  destruct (rounds_sound chatIds text logChatId interval n tot s Hc)
    as (tot' & trs & s' & Hrun & _ & Hlen & Hshape).
  destruct (rounds_counts _ _ _ _ _ Hshape) as (_ & Hs & Hf & Hw).
  pose proof (count_result_total (attempts (concat trs))) as Htotal.
  pose proof (rounds_flood_bound _ _ _ _ _ Hshape) as Hbound.
  rewrite Hlen in Hbound.
  exists tot', trs, s'. split; [exact Hrun|]. split; [lia|]. split; [lia|].
  exact (rounds_attempted _ _ _ _ _ Hshape).
Qed.

(** [sendBulkMessagesWithInterval] logs that it starts and runs the rounds. *)
Lemma bulk_run (n : nat) (intervalSeconds : option JsNumber) (s : State (T := T)) :
  client s = true ->
  exists tot' line trs s',
    sendBulkMessagesWithInterval n chatIds text logChatId intervalSeconds s
    = (Normal tot', EvLogger LevelLog line :: concat trs, s')
    /\ MessagingService.rounds chatIds text logChatId
         (match intervalSeconds with Some v => v | None => JNum 90 end)
         n initialTotals s
       = (Normal tot', concat trs, s')
    /\ length trs = n
    /\ rounds_run chatIds
         (match intervalSeconds with Some v => v | None => JNum 90 end)
         initialTotals trs tot'.
Proof.
  intros Hc. unfold sendBulkMessagesWithInterval.
  destruct (rounds_sound chatIds text logChatId
              (match intervalSeconds with Some v => v | None => JNum 90 end)
              n initialTotals s Hc)
    as (tot' & trs & s' & Hrun & Hc' & Hlen & Hshape).
  eexists tot', _, trs, s'. split; [|now repeat split].
  unfold bind, logger, emit. cbv beta iota. now rewrite Hrun.
Qed.

(** X12. [sendBulkMessagesWithInterval] first logs that it starts and then
    runs the rounds from round number 1 and totals 0: after [n] rounds the
    round number is [1 + n] and each total is the number of attempts with
    that result, counted from nothing.  Every delay it sleeps lasts the
    interval times 1000 milliseconds, where the interval is 90 when the
    argument is left out. *)
Theorem bulk_interval (n : nat) (intervalSeconds : option JsNumber)
  (s : State (T := T)) :
  client s = true ->
  let effective := match intervalSeconds with Some v => v | None => JNum 90 end in
  exists tot' line tr s',
    sendBulkMessagesWithInterval n chatIds text logChatId intervalSeconds s
    = (Normal tot', EvLogger LevelLog line :: tr, s')
    /\ MessagingService.rounds chatIds text logChatId effective n
         {| totalSuccessCount := 0; totalFailCount := 0;
            totalFloodWaitCount := 0; roundNumber := 1 |} s
       = (Normal tot', tr, s')
    /\ roundNumber tot' = (1 + Z.of_nat n)%Z
    /\ totalSuccessCount tot' = count_result ResTrue (attempts tr)
    /\ totalFailCount tot' = count_result ResFalse (attempts tr)
    /\ totalFloodWaitCount tot' = count_result ResFloodWait (attempts tr)
    /\ Forall (fun p => snd p = Num.mul effective 1000) (sleeps tr)
    /\ (intervalSeconds = None ->
        Forall (fun p => snd p = JNum 90000) (sleeps tr)).
Proof.
  intros Hc effective.
  destruct (bulk_run n intervalSeconds s Hc)
    as (tot' & line & trs & s' & Hrun & Hrounds & Hlen & Hshape).
  fold effective in Hshape, Hrounds.
  destruct (rounds_counts _ _ _ _ _ Hshape) as (Hn & Hs & Hf & Hw).
  pose proof (rounds_sleep_values _ _ _ _ _ Hshape) as Hsl.
  exists tot', line, (concat trs), s'. split; [exact Hrun|].
  split; [exact Hrounds|]. split; [|split; [|split; [|split; [|split]]]].
  - rewrite Hn, Hlen. reflexivity.
  - rewrite Hs. reflexivity.
  - rewrite Hf. reflexivity.
  - rewrite Hw. reflexivity.
  - exact Hsl.
  - intros Hnone. subst effective. rewrite Hnone in Hsl. exact Hsl.
Qed.

End RoundExtras.

(** ** Start-up, continued *)

Section StartupExtras.

Context {T : Type} `{TelegramClient T}.

Import Trace Shape AppService.

Lemma errors_app a b : errors (a ++ b) = errors a ++ errors b.
Proof. apply flat_map_app. Qed.

Lemma errors_loggers_only l :
  forallb is_logger l = true ->
  attempts l = [] /\ sleeps l = [] /\ audits l = [].
Proof.
  intros Hl. rewrite <- (app_nil_r l). repeat split.
  - now rewrite (attempts_loggers _ _ Hl).
  - now rewrite (sleeps_loggers _ _ Hl).
  - apply (flat_map_unseen _ is_logger l []); [now intros []|exact Hl].
Qed.

Lemma initializeClient_normal (s : State (T := T)) tr s1 :
  initializeClient s = (Normal tt, tr, s1) ->
  client s1 = true /\ forallb is_logger tr = true.
Proof.
  unfold initializeClient.
  destruct (start (world s)) as [[[|assigned e] logged] w]; [|discriminate].
  intros [= <- <-]. split; [reflexivity|].
  now induction logged.
Qed.

Lemma blank_text_check m :
  is_empty m || is_empty (trim m) = is_empty (trim m).
Proof. now destruct m. Qed.

(** X13. [sendTestMessage] enters the loop exactly when the client was
    initialized, the list of destinations derived from [TARGET_CHATS] is
    not empty and the message text is not blank.  The rounds it then runs
    attempt destinations of that list only, sleep only for the configured
    interval times 1000 milliseconds, and leave the round number at one
    more than the rounds run. *)
Theorem sendTestMessage_enters_loop (n : nat) (env : gmap string string)
  (s : State (T := T)) :
  exists c tr s',
    sendTestMessage n env s = (c, tr, s')
    /\ ((exists tot, c = Normal (InsideLoop tot))
        <-> (exists tr1 s1, initializeClient s = (Normal tt, tr1, s1))
            /\ targetChats env <> []
            /\ trim (messageText env) <> "")
    /\ (forall tot, c = Normal (InsideLoop tot) ->
        roundNumber tot = (1 + Z.of_nat n)%Z
        /\ Forall (fun a => In (snd (fst a)) (targetChats env)) (attempts tr)
        /\ Forall (fun p => snd p = Num.mul (intervalSeconds env) 1000) (sleeps tr)).
Proof.
  unfold sendTestMessage.
  destruct (initializeClient s) as [[[[]|e] init_tr] s1] eqn:Hinit.
  - destruct (initializeClient_normal s init_tr s1 Hinit) as [Hc1 Hinit_tr].
    destruct (targetChats env) as [|chat chats] eqn:Htargets.
    { eexists _, _, _. split; [|split].
      - run_next. run_next. cbn [length Nat.eqb].
        run_next. run_next. run_next. reflexivity.
      - split; [now intros [tot [=]]|]. now intros (_ & Hne & _).
      - intros tot [=]. }
    rewrite blank_text_check.
    destruct (trim (messageText env)) as [|c0 t0] eqn:Htext.
    { eexists _, _, _. split; [|split].
      - run_next. run_next. cbn [length Nat.eqb is_empty].
        run_next. run_next. reflexivity.
      - split; [now intros [tot [=]]|]. now intros (_ & _ & Hne).
      - intros tot [=]. }
    destruct (bulk_run (chat :: chats) (messageText env) (logChatId env) n
                (Some (intervalSeconds env)) s1 Hc1)
      as (tot' & line & trs & s' & Hrun & _ & Hlen & Hshape).
    eexists _, _, _. split; [|split].
    + run_next. run_next. cbn [length Nat.eqb is_empty].
      run_next. run_next. run_next. run_next. run_next. run_next.
      run_next. reflexivity.
    + split; [intros _|intros _; now exists tot'].
      split; [now exists init_tr, s1|]. split; discriminate.
    + intros tot [= <-].
      destruct (rounds_counts _ _ _ _ _ Hshape) as (Hn & _).
      rewrite Hlen in Hn. split; [rewrite Hn; reflexivity|].
      cbn [app].
      rewrite attempts_logger, (attempts_loggers init_tr _ Hinit_tr) by reflexivity.
      rewrite sleeps_logger, (sleeps_loggers init_tr _ Hinit_tr) by reflexivity.
      rewrite !attempts_logger, !sleeps_logger by reflexivity.
      rewrite !app_nil_r. split.
      * exact (rounds_attempted _ _ _ _ _ Hshape).
      * exact (rounds_sleep_values _ _ _ _ _ Hshape).
  - eexists _, _, _. split; [|split].
    + run_next. eapply run_bind_throw. exact Hinit.
    + split; [now intros [tot [=]]|]. now intros ((tr1 & s2 & [=]) & _).
    + intros tot [=].
Qed.

Lemma report_missing_run (vars : list string) (s : State (T := T)) :
  report_missing vars s
  = (Normal tt, map (fun v => EvLogger LevelError ("   - " +:+ v)) vars, s).
Proof.
  induction vars as [|v vars IH]; [reflexivity|].
  cbn [report_missing map]. unfold bind, logger, emit. cbv beta iota.
  now rewrite IH.
Qed.

Lemma errors_error_lines (lines : list string) :
  errors (map (fun v => EvLogger LevelError v) lines) = lines.
Proof. induction lines as [|v l IH]; [reflexivity|]. cbn. now f_equal. Qed.

Lemma error_lines_loggers (f : string -> string) (lines : list string) :
  forallb is_logger (map (fun v => EvLogger LevelError (f v)) lines) = true.
Proof. now induction lines. Qed.

(** X14. [onModuleInit] never throws: whatever the configuration and
    whatever the client does, an error thrown under it is caught and logged
    as an application error. *)
Theorem onModuleInit_never_throws (n : nat) (env : gmap string string)
  (s : State (T := T)) :
  exists r tr s',
    onModuleInit n env s = (Normal r, tr, s')
    /\ (forall e tr0 s0,
          (0 <? length (missingVars env))%nat = false ->
          initializeClient s = (Throw e, tr0, s0) ->
          r = Returned
          /\ exists before,
               tr = before
                      ++ [EvLogger LevelError
                            ("Application error: " +:+ show_property (message e))]).
Proof.
  unfold onModuleInit.
  destruct (0 <? length (missingVars env))%nat eqn:Hmissing.
  - eexists _, _, _. split.
    + eapply run_try_normal. run_next.
      eapply run_bind; [apply report_missing_run|]. cbv beta.
      run_next. reflexivity.
    + discriminate.
  - assert (Hsession : exists l,
               (if blank (env !! "TELEGRAM_SESSION_STRING") then
                  bind (logger LevelWarn
                          "⚠️ TELEGRAM_SESSION_STRING not found in .env file")
                    (fun _ =>
                     bind (logger LevelLog
                             "📋 First run: will require phone authentication")
                       (fun _ =>
                        bind (logger LevelLog
                                "💡 Copy session string from logs to .env for server deployment")
                          (fun _ => logger LevelLog "")))
                else ret tt) s = (Normal tt, l, s)).
    { destruct (blank (env !! "TELEGRAM_SESSION_STRING")); eexists; reflexivity. }
    destruct Hsession as (l & Hsession).
    destruct (sendTestMessage n env s) as [[[r|e] tr] s'] eqn:Hsend.
    + eexists _, _, _. split.
      * eapply run_try_normal. run_next. exact Hsend.
      * intros e tr0 s0 _ Hinit. exfalso.
        unfold sendTestMessage, bind in Hsend.
        cbn [logger emit] in Hsend. rewrite Hinit in Hsend. discriminate.
    + eexists _, _, _. split.
      * eapply run_try_throw.
        -- eapply run_bind; [exact Hsession|]. cbv beta.
           exact Hsend.
        -- cbv beta. run_next. reflexivity.
      * intros e' tr0 s0 _ Hinit.
        unfold sendTestMessage, bind in Hsend.
        cbn [logger emit] in Hsend. rewrite Hinit in Hsend.
        injection Hsend as <- <- <-. split; [reflexivity|].
        eexists. rewrite app_nil_r. reflexivity.
Qed.

(** X15. When a required variable is unset, empty or blank, [onModuleInit]
    returns without touching the client or the world: it sends nothing,
    attempts nothing, never sleeps, and logs as errors one header line and
    then one line for each missing variable, in the order of the list of
    required variables. *)
Theorem onModuleInit_missing (n : nat) (env : gmap string string)
  (s : State (T := T)) :
  missingVars env <> [] ->
  exists tr,
    onModuleInit n env s = (Normal Returned, tr, s)
    /\ errors tr
       = "❌ Missing required environment variables:"
           :: map (fun v => "   - " +:+ v) (missingVars env)
    /\ audits tr = [] /\ attempts tr = [] /\ sleeps tr = [].
Proof.
  intros Hne. unfold onModuleInit.
  destruct (missingVars env) as [|v vars] eqn:Hvars; [contradiction|].
  cbn [length Nat.ltb Nat.leb].
  eexists. split; [|split].
  - eapply run_try_normal. run_next.
    eapply run_bind; [apply report_missing_run|]. cbv beta.
    run_next. reflexivity.
  - cbn [app errors flat_map]. fold (errors (map (fun v0 => EvLogger LevelError ("   - " +:+ v0)) vars ++ [EvLogger LevelLog "💡 Please fill all required variables in .env file"])).
    rewrite errors_app. rewrite <- (map_map (fun v0 => "   - " +:+ v0) (fun t => EvLogger LevelError t)).
    rewrite errors_error_lines. cbn [errors flat_map map app].
    now rewrite app_nil_r.
  - assert (Hlog : forallb is_logger
                     ([EvLogger LevelError "❌ Missing required environment variables:"]
                        ++ map (fun v0 => EvLogger LevelError ("   - " +:+ v0)) (v :: vars)
                        ++ [EvLogger LevelLog
                              "💡 Please fill all required variables in .env file"]
                        ++ []) = true).
    { rewrite !forallb_app. cbn [forallb is_logger andb].
      rewrite andb_true_r. cbn [map forallb is_logger andb].
      apply error_lines_loggers. }
    destruct (errors_loggers_only _ Hlog) as (Ha & Hs & Hau). now repeat split.
Qed.

(** X16. When [onModuleInit] finds no required variable missing, the values
    [sendTestMessage] falls back to are never used: the message text, the
    audit chat and the list of destinations come from the configuration,
    and the audit chat is the configured text as it is (not trimmed). *)
Theorem required_present (env : gmap string string) :
  missingVars env = [] ->
  exists m l t,
    env !! "BULK_MESSAGE_TEXT" = Some m
    /\ env !! "LOG_CHAT_ID" = Some l
    /\ env !! "TARGET_CHATS" = Some t
    /\ trim m <> "" /\ trim l <> "" /\ trim t <> ""
    /\ messageText env = unescape_newlines m
    /\ logChatId env = l
    /\ targetChats env
       = List.filter (fun chat => negb (is_empty chat)) (map trim (split_comma t)).
Proof.
  unfold missingVars, requiredEnvVars. cbn [List.filter].
  destruct (blank (env !! "TELEGRAM_API_ID")); [discriminate|].
  destruct (blank (env !! "TELEGRAM_API_HASH")); [discriminate|].
  destruct (blank (env !! "BULK_MESSAGE_TEXT")) eqn:Hm; [discriminate|].
  destruct (blank (env !! "LOG_CHAT_ID")) eqn:Hl; [discriminate|].
  destruct (blank (env !! "TARGET_CHATS")) eqn:Ht; [discriminate|].
  intros _. unfold messageText, logChatId, targetChats.
  destruct (env !! "BULK_MESSAGE_TEXT") as [m|]; [|discriminate].
  destruct (env !! "LOG_CHAT_ID") as [l|]; [|discriminate].
  destruct (env !! "TARGET_CHATS") as [t|]; [|discriminate].
  cbn [blank] in Hm, Hl, Ht. apply orb_false_iff in Hm as [Hm Hm'].
  apply orb_false_iff in Hl as [Hl Hl']. apply orb_false_iff in Ht as [Ht Ht'].
  exists m, l, t. cbn [or_else]. rewrite Hm, Hl, Ht.
  repeat split; try reflexivity.
  - intros Heq. now rewrite Heq in Hm'.
  - intros Heq. now rewrite Heq in Hl'.
  - intros Heq. now rewrite Heq in Ht'.
Qed.

End StartupExtras.

(** ** What a success report names, and the credentials *)

Section Naming.

Import Construction AppService.

Lemma of_Z_nonneg_digits z : (0 <= z)%Z -> take_digits (of_Z z) = of_Z z.
Proof.
  intros Hz. unfold of_Z. destruct z as [|p|p]; [reflexivity| |lia].
  cbn [Z.to_int NilZero.string_of_int]. unfold NilZero.string_of_uint.
  destruct (Pos.to_uint p) eqn:Hp; try reflexivity; rewrite <- Hp; apply uint_digits.
Qed.

(** X17. The title [getEntityTitle] returns is never empty, and every
    permalink [getPostLink] builds holds the message id; for an entity of
    class [Channel] with no handle and an id that is not negative (no
    [-100] prefix to strip) the channel part of the link is the id as it
    is. *)
Theorem report_names (entity : Entity) (messageId : Z) :
  getEntityTitle entity <> ""
  /\ includes (getPostLink entity messageId) (of_Z messageId) = true
  /\ (truthy (username entity) = false -> className entity = "Channel" ->
      (0 <= id entity)%Z ->
      getPostLink entity messageId
      = "https://t.me/c/" +:+ of_Z (id entity) +:+ "/" +:+ of_Z messageId).
Proof.
  split; [|split].
  - unfold getEntityTitle, truthy.
    destruct (title entity) as [[|c t]|]; cbn [is_empty negb show_property];
      try discriminate;
      destruct (firstName entity) as [[|c' t']|]; cbn [is_empty negb show_property];
      discriminate.
  - unfold getPostLink. destruct (truthy (username entity)).
    + apply includes_app. apply includes_app. apply includes_app.
      rewrite <- (append_nil_r (of_Z messageId)) at 1. apply includes_prefix.
    + destruct (String.eqb (className entity) "Channel").
      * cbv zeta. apply includes_app. apply includes_app. apply includes_app.
        rewrite <- (append_nil_r (of_Z messageId)) at 1. apply includes_prefix.
      * apply includes_app. apply includes_app. apply includes_app.
        apply includes_prefix.
  - intros Hu Hc Hid. unfold getPostLink. rewrite Hu, Hc.
    cbn [String.eqb Ascii.eqb Bool.eqb]. cbv zeta.
    now rewrite (replace_first_digits _ (of_Z_nonneg_digits _ Hid)).
Qed.

Lemma report_names_witness :
  getPostLink (mkEntity None "Channel" 1234567890 (Some "news") None) 7
  = "https://t.me/c/1234567890/7".
Proof.
  apply (proj2 (proj2 (report_names
                         (mkEntity None "Channel" 1234567890 (Some "news") None) 7)));
    [reflexivity | reflexivity | discriminate].
Defined.

(** X18. The constructor throws exactly when [TELEGRAM_API_ID] or
    [TELEGRAM_API_HASH] is unset or empty; otherwise it keeps [parseInt] of
    the first and the second as it is.  Whatever the check of
    [onModuleInit] accepts, the constructor accepts. *)
Theorem constructor_credentials (env : gmap string string) :
  (new_MessagingService env = Throw missingCredentials
   <-> or_else (env !! "TELEGRAM_API_ID") "" = ""
       \/ or_else (env !! "TELEGRAM_API_HASH") "" = "")
  /\ (forall apiId apiHash,
        env !! "TELEGRAM_API_ID" = Some apiId -> apiId <> "" ->
        env !! "TELEGRAM_API_HASH" = Some apiHash -> apiHash <> "" ->
        new_MessagingService env = Normal (Num.parseInt apiId, apiHash))
  /\ (missingVars env = [] -> exists fields, new_MessagingService env = Normal fields).
Proof.
  unfold new_MessagingService. cbv zeta. split; [|split].
  - destruct (env !! "TELEGRAM_API_ID") as [[|c t]|];
      destruct (env !! "TELEGRAM_API_HASH") as [[|c' t']|];
      cbn [truthy is_empty negb orb or_else]; split;
      try (intros _; reflexivity); try discriminate;
      try (intros _; now left); try (intros _; now right);
      intros [|]; discriminate.
  - intros apiId apiHash -> Hid -> Hhash.
    destruct apiId; [contradiction|]. destruct apiHash; [contradiction|].
    reflexivity.
  - unfold missingVars, requiredEnvVars. cbn [List.filter].
    destruct (blank (env !! "TELEGRAM_API_ID")) eqn:Hid; [discriminate|].
    destruct (blank (env !! "TELEGRAM_API_HASH")) eqn:Hhash; [discriminate|].
    intros _.
    destruct (env !! "TELEGRAM_API_ID") as [apiId|]; [|discriminate].
    destruct (env !! "TELEGRAM_API_HASH") as [apiHash|]; [|discriminate].
    cbn [blank] in Hid, Hhash.
    apply orb_false_iff in Hid as [Hid _]. apply orb_false_iff in Hhash as [Hhash _].
    cbn [truthy]. rewrite Hid, Hhash. eexists. reflexivity.
Qed.

Lemma constructor_credentials_witness :
  new_MessagingService {[ "TELEGRAM_API_ID" := "12345"; "TELEGRAM_API_HASH" := "abcdef" ]}
  = Normal (Num.parseInt "12345", "abcdef").
Proof.
  apply (proj1 (proj2 (constructor_credentials
                         {[ "TELEGRAM_API_ID" := "12345";
                            "TELEGRAM_API_HASH" := "abcdef" ]})));
    [vm_compute; reflexivity | discriminate | vm_compute; reflexivity | discriminate].
Defined.

End Naming.

(** ** The further properties at the scripted client *)

Section FurtherScenarios.

Import Trace AppService.

Lemma sendMessageWithLogging_outcome_witness :
  exists res tr s' report,
    sendMessageWithLogging "-1001" "hi" "-4872735777" (Script.ready Script.three)
    = (Normal res, tr, s')
    /\ audits tr = [report].
Proof.
  destruct (sendMessageWithLogging_outcome "-1001" "hi" "-4872735777"
              (Script.ready Script.three) eq_refl)
    as (res & tr & s' & report & Hrun & Haud & _).
  exists res, tr, s', report. split; [exact Hrun | exact Haud].
Defined.

Lemma sendMessage_outcome_witness :
  exists b tr s',
    Unlogged.sendMessage "-1001" "hi" (Script.ready Script.three) = (Normal b, tr, s')
    /\ audits tr = []
    /\ length (errors tr) = (if b then 0 else 1)%nat.
Proof.
  destruct (sendMessage_outcome "-1001" "hi" (Script.ready Script.three) eq_refl)
    as (b & tr & s' & Hrun & Haud & _ & Herr).
  exists b, tr, s'. split; [exact Hrun|]. split; [exact Haud | exact Herr].
Defined.

Lemma not_initialized_throws_witness :
  exists tr,
    round Script.chats "hi" "-4872735777" (JNum 0) initialTotals
      {| client := false; world := Script.three |}
    = (Throw notInitialized, tr, {| client := false; world := Script.three |})
    /\ attempts tr = [] /\ sleeps tr = [].
Proof.
  destruct (proj2 (not_initialized_throws Script.chats "hi" "-4872735777" (JNum 0)
                     initialTotals {| client := false; world := Script.three |}
                     eq_refl))
    as (tr & Hrun & _ & Ha & Hs); [discriminate|].
  exists tr. split; [exact Hrun|]. split; [exact Ha | exact Hs].
Defined.

Lemma round_delay_schedule_witness :
  exists tot' tr s',
    round Script.chats "hi" "-4872735777" (JNum 0) initialTotals
      (Script.ready Script.calm) = (Normal tot', tr, s')
    /\ sleeps tr
       = repeat (BetweenMessages, Num.mul (JNum 0) 1000) (length (attempts tr) - 1)
           ++ (if existsb is_flood (attempts tr) then []
               else [(BetweenRounds, Num.mul (JNum 0) 1000)]).
Proof.
  apply (round_delay_schedule Script.chats "hi" "-4872735777" (JNum 0)
           initialTotals (Script.ready Script.calm)).
  reflexivity.
Defined.

Lemma round_completed_report_witness :
  exists tot' tr s',
    round Script.chats "hi" "-4872735777" (JNum 0) initialTotals
      (Script.ready Script.calm) = (Normal tot', tr, s')
    /\ (existsb is_flood (attempts tr) = false ->
        length (attempts tr) = length Script.chats).
Proof.
  destruct (round_completed_report Script.chats "hi" "-4872735777" (JNum 0)
              initialTotals (Script.ready Script.calm) eq_refl)
    as (tot' & tr & s' & Hrun & Hcalm).
  exists tot', tr, s'. split; [exact Hrun|]. intros Hno.
  destruct (Hcalm Hno) as (started & time & ok & failed & _ & _ & _ & _ & _ & Hlen).
  exact Hlen.
Defined.

Lemma rounds_start_report_witness :
  exists tot' trs s',
    rounds Script.chats "hi" "-4872735777" (JNum 0) 2 initialTotals
      (Script.ready Script.three) = (Normal tot', concat trs, s')
    /\ length trs = 2%nat.
Proof.
  destruct (rounds_start_report Script.chats "hi" "-4872735777" (JNum 0) 2
              initialTotals (Script.ready Script.three) eq_refl)
    as (tot' & trs & s' & Hrun & Hlen & _).
  exists tot', trs, s'. split; [exact Hrun | exact Hlen].
Defined.

Lemma rounds_accounting_witness :
  exists tot' trs s',
    rounds Script.chats "hi" "-4872735777" (JNum 0) 2 initialTotals
      (Script.ready Script.three) = (Normal tot', concat trs, s')
    /\ (totalFloodWaitCount tot' <= totalFloodWaitCount initialTotals + 2)%Z.
Proof.
  destruct (rounds_accounting Script.chats "hi" "-4872735777" (JNum 0) 2
              initialTotals (Script.ready Script.three) eq_refl)
    as (tot' & trs & s' & Hrun & _ & Hbound & _).
  exists tot', trs, s'. split; [exact Hrun | exact Hbound].
Defined.

Lemma bulk_interval_witness :
  exists tot' line tr s',
    sendBulkMessagesWithInterval 2 Script.chats "hi" "-4872735777" None
      (Script.ready Script.three)
    = (Normal tot', EvLogger LevelLog line :: tr, s')
    /\ roundNumber tot' = 3%Z
    /\ totalSuccessCount tot' = count_result ResTrue (attempts tr)
    /\ Forall (fun p => snd p = JNum 90000) (sleeps tr).
Proof.
  destruct (bulk_interval Script.chats "hi" "-4872735777" 2 None
              (Script.ready Script.three) eq_refl)
    as (tot' & line & tr & s' & Hrun & _ & Hn & Hok & _ & _ & _ & Hsl).
  exists tot', line, tr, s'. split; [exact Hrun|]. split; [exact Hn|].
  split; [exact Hok|]. apply Hsl. reflexivity.
Defined.

Lemma onModuleInit_missing_witness :
  exists tr,
    onModuleInit 3 {[ "TELEGRAM_API_ID" := "12345"; "TARGET_CHATS" := "  " ]}
      (Script.ready Script.three)
    = (Normal Returned, tr, Script.ready Script.three)
    /\ audits tr = [] /\ attempts tr = [] /\ sleeps tr = [].
Proof.
  assert (Hmissing :
            missingVars {[ "TELEGRAM_API_ID" := "12345"; "TARGET_CHATS" := "  " ]} <> [])
    by (vm_compute; discriminate).
  destruct (onModuleInit_missing 3
              {[ "TELEGRAM_API_ID" := "12345"; "TARGET_CHATS" := "  " ]}
              (Script.ready Script.three) Hmissing)
    as (tr & Hrun & _ & Haud).
  exists tr. split; [exact Hrun | exact Haud].
Defined.

Lemma required_present_witness :
  exists m l t,
    ({[ "TELEGRAM_API_ID" := "12345"; "TELEGRAM_API_HASH" := "abcdef";
        "BULK_MESSAGE_TEXT" := "hello"; "LOG_CHAT_ID" := "-1009";
        "TARGET_CHATS" := "-1001, -1002" ]} : gmap string string)
      !! "BULK_MESSAGE_TEXT" = Some m
    /\ trim m <> "" /\ trim l <> "" /\ trim t <> "".
Proof.
  assert (Hnone :
            missingVars
              {[ "TELEGRAM_API_ID" := "12345"; "TELEGRAM_API_HASH" := "abcdef";
                 "BULK_MESSAGE_TEXT" := "hello"; "LOG_CHAT_ID" := "-1009";
                 "TARGET_CHATS" := "-1001, -1002" ]} = [])
    by (vm_compute; reflexivity).
  destruct (required_present _ Hnone)
    as (m & l & t & Hm & _ & _ & Hm' & Hl' & Ht' & _).
  exists m, l, t. split; [exact Hm|]. split; [exact Hm'|]. split; [exact Hl' | exact Ht'].
Defined.

End FurtherScenarios.

(** ** The groups of the account *)

Section Groups.

Import TelegramService.

Context {T : Type} `{AccountClient T}.

Lemma requests_app (tr tr' : list Event) :
  requests (tr ++ tr') = requests tr ++ requests tr'.
Proof. apply flat_map_app. Qed.

Lemma slept_app (tr tr' : list Event) : slept (tr ++ tr') = slept tr ++ slept tr'.
Proof. apply flat_map_app. Qed.

Lemma logged_app (level : Level) (tr tr' : list Event) :
  logged level (tr ++ tr') = logged level tr ++ logged level tr'.
Proof. apply flat_map_app. Qed.

Lemma warnings_only_app (tr tr' : list Event) :
  warnings_only tr -> warnings_only tr' -> warnings_only (tr ++ tr').
Proof.
  unfold warnings_only. intros Htr Htr'.
  rewrite logged_app, map_app. now rewrite <- Htr, <- Htr'.
Qed.

(** The member count of a group or channel: the declared one when it is
    not 0, else the length of the member list, else 0 with a warning. *)
Lemma countParticipants_run (e : DialogEntity) (s : State (T := T)) :
  client s = true ->
  String.eqb (className (fields e)) "Chat"
  || String.eqb (className (fields e)) "Channel" = true ->
  exists count tr s',
    countParticipants e s = (Normal count, tr, s')
    /\ client s' = true
    /\ match declaredCount e with
       | Some declared =>
           if (declared =? 0)%Z then (0 <= count)%Z else count = declared
       | None => (0 <= count)%Z
       end
    /\ (tr = [] \/ count = 0%Z /\ exists text, tr = [Logged LevelWarn text]).
Proof.
  intros Hc Hclass. unfold countParticipants. rewrite Hclass.
  assert (Hlist : exists count tr s',
             try_catch
               (bind (call (getParticipants e))
                  (fun participants => ret (Z.of_nat (length participants))))
               (fun _ =>
                  bind (logger LevelWarn
                          ("Failed to get exact participants count for "
                             +:+ getEntityTitle (fields e)))
                    (fun _ => ret 0%Z)) s
             = (Normal count, tr, s')
             /\ client s' = true /\ (0 <= count)%Z
             /\ (tr = [] \/ count = 0%Z /\ exists text, tr = [Logged LevelWarn text])).
  { unfold try_catch, bind, call, logger, emit, ret. rewrite Hc.
    destruct (getParticipants e (world s)) as [[participants|err] w].
    - eexists _, _, _. split; [reflexivity|]. split; [reflexivity|].
      split; [lia|]. now left.
    - eexists _, _, _. split; [reflexivity|]. split; [reflexivity|].
      split; [lia|]. right. split; [reflexivity|]. eexists. reflexivity. }
  destruct Hlist as (count & tr & s' & Hrun & Hc' & Hpos & Htr).
  destruct (declaredCount e) as [[|p|p]|].
  - exists count, tr, s'. unfold try_catch at 1. rewrite Hrun. now repeat split.
  - eexists _, _, _. split; [reflexivity|]. split; [exact Hc|].
    split; [reflexivity|]. now left.
  - eexists _, _, _. split; [reflexivity|]. split; [exact Hc|].
    split; [reflexivity|]. now left.
  - exists count, tr, s'. unfold try_catch at 1. rewrite Hrun. now repeat split.
Qed.

Lemma dialogs_loop_run (dialogs : list Dialog) :
  forall (groupsStats : list GroupStats.t) (s : State (T := T)),
    client s = true ->
    exists added tr s',
      dialogs_loop dialogs groupsStats s = (Normal (groupsStats ++ added), tr, s')
      /\ client s' = true
      /\ Forall2 entry_of (List.filter kept dialogs) added
      /\ warnings_only tr
      /\ (length tr <= length (List.filter no_members added))%nat.
Proof.
  induction dialogs as [|dialog rest IH]; intros groupsStats s Hc.
  - exists [], [], s. cbn [dialogs_loop List.filter]. rewrite app_nil_r.
    split; [reflexivity|]. split; [exact Hc|]. split; [constructor|].
    split; [reflexivity|]. cbn [length List.filter]. lia.
  - cbn [dialogs_loop List.filter]. unfold kept at 1.
    destruct (isGroup dialog || isChannel dialog); [|now apply IH].
    cbn [andb].
    destruct (entity dialog) as [e|] eqn:He; [|now apply IH].
    destruct (String.eqb (className (fields e)) "User") eqn:Huser.
    { apply String.eqb_eq in Huser. rewrite Huser. cbn -[dialogs_loop]. now apply IH. }
    destruct (String.eqb (className (fields e)) "UserEmpty") eqn:Hempty.
    { apply String.eqb_eq in Hempty. rewrite Hempty. cbn -[dialogs_loop]. now apply IH. }
    cbn [orb].
    destruct (String.eqb (className (fields e)) "Chat"
              || String.eqb (className (fields e)) "Channel") eqn:Hclass.
    + assert (Hneg : negb (String.eqb (className (fields e)) "Chat")
                     && negb (String.eqb (className (fields e)) "Channel") = false).
      { rewrite <- negb_orb, Hclass. reflexivity. }
      rewrite Hneg.
      destruct (countParticipants_run e s Hc Hclass)
        as (count & tr1 & s1 & Hrun1 & Hc1 & Hcount & Htr1).
      destruct (IH (groupsStats
                      ++ [ {| GroupStats.id :=
                                of_Z (match dialogId dialog with
                                      | Some dialog_id => dialog_id
                                      | None => id (fields e)
                                      end);
                              GroupStats.title := getEntityTitle (fields e);
                              GroupStats.username := getEntityUsername (fields e);
                              GroupStats.type := className (fields e);
                              GroupStats.participantsCount := count;
                              GroupStats.messagesCount24h := 0 |} ]) s1 Hc1)
        as (added & tr2 & s2 & Hrun2 & Hc2 & Hentries & Hwarn & Hlen).
      eexists (_ :: added), (tr1 ++ tr2), s2.
      split; [|split; [exact Hc2|split; [|split]]].
      * unfold bind. rewrite Hrun1, Hrun2. now rewrite <- app_assoc.
      * constructor; [|exact Hentries].
        unfold entry_of. rewrite He. cbn. now repeat split.
      * apply warnings_only_app; [|exact Hwarn].
        destruct Htr1 as [-> | [_ [text ->]]]; reflexivity.
      * rewrite length_app. cbn [List.filter]. unfold no_members at 1.
        cbn [GroupStats.participantsCount].
        destruct Htr1 as [-> | [-> [text ->]]]; cbn [length Z.eqb].
        -- destruct (count =? 0)%Z; cbn [length]; lia.
        -- lia.
    + assert (Hneg : negb (String.eqb (className (fields e)) "Chat")
                     && negb (String.eqb (className (fields e)) "Channel") = true).
      { rewrite <- negb_orb, Hclass. reflexivity. }
      rewrite Hneg. now apply IH.
Qed.

Lemma kept_entries (dialogs : list Dialog) :
  forall stats,
    Forall2 entry_of (List.filter kept dialogs) stats ->
    Forall (fun entry =>
              (GroupStats.type entry = "Chat" \/ GroupStats.type entry = "Channel")
              /\ GroupStats.messagesCount24h entry = 0%Z) stats.
Proof.
  induction dialogs as [|dialog rest IH]; intros stats Hentries.
  - inversion Hentries. constructor.
  - cbn [List.filter] in Hentries. destruct (kept dialog) eqn:Hkept; [|now apply IH].
    inversion Hentries as [|d entry ds es Hentry Hrest]; subst.
    constructor; [|now apply IH].
    unfold kept in Hkept. unfold entry_of in Hentry.
    destruct (entity dialog) as [e|]; [|contradiction].
    destruct Hentry as (_ & _ & _ & Htype & Hcount & _).
    split; [|exact Hcount]. rewrite Htype.
    apply andb_true_iff in Hkept as [_ Hclass].
    apply orb_true_iff in Hclass as [Hclass | Hclass];
      apply String.eqb_eq in Hclass; [now left | now right].
Qed.

(** X19. With the client set, [getGroupsStatistics] rethrows what
    [getDialogs] throws, after one error line; otherwise it returns, for
    every behaviour of the client, one entry for each dialog that is a
    group or a channel and whose entity is of class [Chat] or [Channel], in
    the order of the dialogs, with the id of the dialog (of the entity when
    the dialog has none), the title, the handle, the class, the declared
    member count when there is one that is not 0, and 0 messages.  It
    emits warnings only, and each warning comes with an entry of its own
    whose member count is 0. *)
Theorem getGroupsStatistics_entries (s : State (T := T)) :
  client s = true ->
  exists c tr s',
    getGroupsStatistics s = (c, tr, s')
    /\ match getDialogs (world s) with
       | (Normal dialogs, _) =>
           exists stats,
             c = Normal stats
             /\ Forall2 entry_of (List.filter kept dialogs) stats
             /\ Forall (fun entry =>
                          (GroupStats.type entry = "Chat"
                           \/ GroupStats.type entry = "Channel")
                          /\ GroupStats.messagesCount24h entry = 0%Z) stats
             /\ warnings_only tr
             /\ (length tr <= length (List.filter no_members stats))%nat
       | (Throw e, _) =>
           c = Throw e
           /\ tr = [Logged LevelError
                      ("Failed to get groups statistics: "
                         +:+ show_property (message e))]
       end.
Proof.
  intros Hc. unfold getGroupsStatistics, bind at 1, clientMissing. rewrite Hc.
  cbn [negb]. unfold try_catch, bind, call. rewrite Hc.
  destruct (getDialogs (world s)) as [[dialogs|e] w].
  - destruct (dialogs_loop_run dialogs [] {| client := true; world := w |} eq_refl)
      as (stats & tr & s' & Hrun & _ & Hentries & Hwarn & Hlen).
    rewrite Hrun. eexists _, _, _. split; [reflexivity|].
    exists stats. cbn [app].
    split; [reflexivity|]. split; [exact Hentries|].
    split; [exact (kept_entries _ _ Hentries)|]. split; [exact Hwarn | exact Hlen].
  - eexists _, _, _. split; [reflexivity|]. split; reflexivity.
Qed.

(** One turn of the loop of [leaveChats] returns; it ends either with the
    delay or with an error line, and asks for at most one thing. *)
Lemma leave_chat_run (chatId : string) (s : State (T := T)) :
  client s = true ->
  exists tr s',
    leave_chat chatId s = (Normal tt, tr, s')
    /\ client s' = true
    /\ (slept tr = [1000%Z] /\ logged LevelError tr = []
        \/ slept tr = [] /\ exists text, logged LevelError tr = [text])
    /\ (length (logged LevelLog tr) <= length (requests tr) <= 1)%nat
    /\ Forall well_aimed (requests tr)
    /\ logged LevelWarn tr = [].
Proof.
  destruct s as [c w0]. cbn [client]. intros ->.
  cbv beta iota delta [leave_chat try_catch bind call logger emit sleep ret client world].
  destruct (getEntity chatId w0) as [[e|err] w].
  - destruct (String.eqb (className e) "Channel") eqn:Hchannel.
    + apply String.eqb_eq in Hchannel.
      destruct (invoke (LeaveChannel e) w) as [[[]|err] w1];
        eexists _, _; (split; [reflexivity|]); (split; [reflexivity|]);
        cbn; (split; [|split; [lia|split; [|reflexivity]]]);
        try (left; split; reflexivity);
        try (right; split; [reflexivity|eexists; reflexivity]);
        repeat constructor; exact Hchannel.
    + destruct (String.eqb (className e) "Chat").
      * destruct (getMe w) as [[me|err] w1].
        -- destruct (invoke (DeleteChatUser (id e) (id me)) w1) as [[[]|err] w2];
             eexists _, _; (split; [reflexivity|]); (split; [reflexivity|]);
             cbn; (split; [|split; [lia|split; [|reflexivity]]]);
             try (left; split; reflexivity);
             try (right; split; [reflexivity|eexists; reflexivity]);
             repeat constructor.
        -- eexists _, _. split; [reflexivity|]. split; [reflexivity|]. cbn.
           split; [|split; [lia|split; [constructor|reflexivity]]].
           right. split; [reflexivity|]. eexists. reflexivity.
      * eexists _, _. split; [reflexivity|]. split; [reflexivity|]. cbn.
        split; [|split; [lia|split; [constructor|reflexivity]]].
        left. split; reflexivity.
  - eexists _, _. split; [reflexivity|]. split; [reflexivity|]. cbn.
    split; [|split; [lia|split; [constructor|reflexivity]]].
    right. split; [reflexivity|]. eexists. reflexivity.
Qed.

Lemma leave_loop_run (chatIds : list string) :
  forall s : State (T := T),
    client s = true ->
    exists tr s',
      leave_loop chatIds s = (Normal tt, tr, s')
      /\ client s' = true
      /\ (length (slept tr) + length (logged LevelError tr) = length chatIds)%nat
      /\ Forall (eq 1000%Z) (slept tr)
      /\ (length (logged LevelLog tr) <= length (requests tr) <= length chatIds)%nat
      /\ Forall well_aimed (requests tr)
      /\ logged LevelWarn tr = [].
Proof.
  induction chatIds as [|chatId rest IH]; intros s Hc.
  - exists [], s. cbn. repeat split; try constructor; try lia. exact Hc.
  - destruct (leave_chat_run chatId s Hc)
      as (tr1 & s1 & Hrun1 & Hc1 & Hend & Hasked & Haimed & Hwarn1).
    destruct (IH s1 Hc1) as (tr2 & s2 & Hrun2 & Hc2 & Hcount & Hms & Hleft & Haimed2 & Hwarn2).
    exists (tr1 ++ tr2), s2. cbn [leave_loop]. unfold bind. rewrite Hrun1, Hrun2.
    rewrite slept_app, !logged_app, requests_app, !length_app. cbn [length].
    split; [reflexivity|]. split; [exact Hc2|].
    split; [|split; [|split; [lia|split]]].
    + destruct Hend as [[-> ->] | [-> [text ->]]]; cbn [length]; lia.
    + apply Forall_app. split; [|exact Hms].
      destruct Hend as [[-> _] | [-> _]]; repeat constructor.
    + apply Forall_app. now split.
    + now rewrite Hwarn1, Hwarn2.
Qed.

(** X20. With the client set, [leaveChats] returns for every behaviour of
    the client: what goes wrong at one chat is logged and the loop goes
    on.  Each chat ends either with the delay of 1000 milliseconds or with
    an error line, never both, so delays and error lines add up to the
    number of chats.  Without a client the call throws at once. *)
Theorem leaveChats_contained (chatIds : list string) (s : State (T := T)) :
  if client s then
    exists tr s',
      leaveChats chatIds s
      = (Normal tt,
         Logged LevelLog
           ("Starting to leave " +:+ of_nat (length chatIds) +:+ " chats...")
           :: tr ++ [Logged LevelLog "Finished leaving chats"], s')
      /\ (length (slept tr) + length (logged LevelError tr) = length chatIds)%nat
      /\ Forall (eq 1000%Z) (slept tr)
      /\ logged LevelWarn tr = []
  else leaveChats chatIds s = (Throw MessagingService.notInitialized, [], s).
Proof.
  destruct (client s) eqn:Hc.
  - destruct (leave_loop_run chatIds s Hc)
      as (tr & s' & Hrun & _ & Hcount & Hms & _ & _ & Hwarn).
    exists tr, s'. split; [|now repeat split].
    unfold leaveChats, bind at 1, clientMissing. rewrite Hc. cbn [negb].
    unfold bind, logger, emit. now rewrite Hrun.
  - unfold leaveChats, bind, clientMissing. now rewrite Hc.
Qed.

(** X21. What [leaveChats] asks of the service: at most one request for
    each chat, a request to leave a channel only for an entity of class
    [Channel]; and it logs that it left a chat only after the request for
    it was answered, so the lines that say so are no more than the
    requests. *)
Theorem leaveChats_requests (chatIds : list string) (s : State (T := T)) :
  client s = true ->
  exists tr s',
    leaveChats chatIds s = (Normal tt, tr, s')
    /\ (length (requests tr) <= length chatIds)%nat
    /\ Forall well_aimed (requests tr)
    /\ (length (logged LevelLog tr) <= length (requests tr) + 2)%nat.
Proof.
  intros Hc.
  destruct (leave_loop_run chatIds s Hc)
    as (tr & s' & Hrun & _ & _ & _ & Hleft & Haimed & _).
  eexists _, s'. split.
  - unfold leaveChats, bind at 1, clientMissing. rewrite Hc. cbn [negb].
    unfold bind, logger, emit. rewrite Hrun. reflexivity.
  - cbn [app]. change (Logged LevelLog ?t :: ?l) with ([Logged LevelLog t] ++ l).
    rewrite !requests_app, !logged_app, !length_app. cbn. rewrite app_nil_r.
    split; [lia|]. split; [exact Haimed|lia].
Qed.

End Groups.

(** ** The account's groups at the scripted account *)

#[local] Existing Instance Account.scripted.

Section AccountScenarios.

Import TelegramService.

Lemma getGroupsStatistics_entries_witness :
  exists stats tr s',
    getGroupsStatistics (Account.ready Account.home) = (Normal stats, tr, s')
    /\ Forall2 entry_of (List.filter kept (Account.dialogs Account.home)) stats.
Proof.
  destruct (getGroupsStatistics_entries (Account.ready Account.home) eq_refl)
    as (c & tr & s' & Hrun & Hcases).
  change (getDialogs (world (Account.ready Account.home)))
    with (Normal (Account.dialogs Account.home), Account.home) in Hcases.
  destruct Hcases as (stats & -> & Hentries & _).
  exists stats, tr, s'. split; [exact Hrun | exact Hentries].
Defined.

Lemma leaveChats_requests_witness :
  exists tr s',
    leaveChats ["-1001"; "-2002"; "3003"; "nowhere"] (Account.ready Account.home)
    = (Normal tt, tr, s')
    /\ (length (requests tr) <= 4)%nat.
Proof.
  destruct (leaveChats_requests ["-1001"; "-2002"; "3003"; "nowhere"]
              (Account.ready Account.home) eq_refl)
    as (tr & s' & Hrun & Hlen & _).
  exists tr, s'. split; [exact Hrun | exact Hlen].
Defined.

End AccountScenarios.
